(** * Bookstore inventory and sales ledger: the request handlers of [server.js]

    A shallow embedding of the handlers of [src/server.js] (an Express server
    over a JSON document store) and the properties of its ledger.

    Conventions of the embedding:
    - the document returned by [loadDb] and handed to [saveDb] is the
      state; a handler is a function from the loaded document and the
      request body to the response and the document that is on disk
      afterwards (the loaded one when the handler returns before [saveDb]);
      what [Date], [Math.random] give is an argument of the handler;
    - a missing collection ([db.books || []]) is the empty list;
    - integer quantities and identifiers are exact integers ([Z]), prices and
      totals are exact rationals extended with NaN and the infinities: the
      rounding of IEEE doubles is not modelled, so that the quantities of
      the embedding are those of the code as long as they are safe integers
      ([safeInteger]), which the properties of the ledger equation and of
      a sale that undoes a restock assume;
    - a JS string is a [string] whose characters are code units below 256;
    - a reference to an object held in an array ([books.find(...)]) is the
      index of that object in the list, and a write through the reference
      is an update of the list at that index. *)

From Stdlib Require Import ZArith QArith List String Ascii Bool Lia.
From Stdlib Require Import DecimalString.
From Stdlib Require DecimalPos.
Import ListNotations.

Local Open Scope string_scope.
Local Open Scope Z_scope.

(** ** JavaScript values and conversions *)

Module JS.

(** Numbers: [NaN], the two infinities and the finite values. *)
Inductive num :=
| NaN
| Inf (negative : bool)
| Fin (q : Q).

Definition ofZ (z : Z) : num := Fin (inject_Z z).

Definition isNaN (n : num) : bool :=
  match n with NaN => true | _ => false end.

(** [n < 0] *)
Definition ltZero (n : num) : bool :=
  match n with
  | NaN => false
  | Inf negative => negative
  | Fin q => Qnum q <? 0
  end.

Definition isZero (n : num) : bool :=
  match n with Fin q => Qnum q =? 0 | _ => false end.

(** [a === b] on numbers *)
Definition eqb (a b : num) : bool :=
  match a, b with
  | Fin p, Fin q => Qeq_bool p q
  | Inf s, Inf t => Bool.eqb s t
  | _, _ => false
  end.

(** [SameValueZero], the equality of [Set.prototype.has]: as [===] but NaN
    is equal to itself. *)
Definition sameValueZero (a b : num) : bool :=
  match a, b with
  | NaN, NaN => true
  | _, _ => eqb a b
  end.

(** [a * b] *)
Definition mul (a b : num) : num :=
  match a, b with
  | NaN, _ | _, NaN => NaN
  | Fin p, Fin q => Fin (Qmult p q)
  | Inf s, Inf t => Inf (xorb s t)
  | Inf s, Fin q => if isZero (Fin q) then NaN else Inf (xorb s (ltZero (Fin q)))
  | Fin p, Inf t => if isZero (Fin p) then NaN else Inf (xorb (ltZero (Fin p)) t)
  end.

(** [a + b] *)
Definition add (a b : num) : num :=
  match a, b with
  | NaN, _ | _, NaN => NaN
  | Fin p, Fin q => Fin (Qplus p q)
  | Inf s, Inf t => if Bool.eqb s t then Inf s else NaN
  | Inf s, Fin _ => Inf s
  | Fin _, Inf t => Inf t
  end.

(** [n || 0] on a number: NaN and zero are falsy. *)
Definition orZero (n : num) : num :=
  match n with
  | NaN => ofZ 0
  | Fin q => if Qnum q =? 0 then ofZ 0 else n
  | Inf _ => n
  end.

(** [z || 0] on an integer. *)
Definition orZeroZ (z : Z) : Z := if z =? 0 then 0 else z.

(** The values that the fields of a request body are taken over: absent,
    [null], an integer number (of magnitude below 10^21, so that its
    [String] is its decimal expansion) or a string. Booleans, fractional
    numbers, arrays and objects in the place of a field are left out. *)
Inductive value :=
| Undefined
| Null
| Num (z : Z)
| Str (s : string).

(** Truthiness: [if (v)], [!v], [v ? a : b]. *)
Definition truthy (v : value) : bool :=
  match v with
  | Undefined | Null => false
  | Num z => negb (z =? 0)
  | Str s => negb (s =? "")%string
  end.

(** [v != null] *)
Definition notNullish (v : value) : bool :=
  match v with Undefined | Null => false | _ => true end.

(** [v !== ''] *)
Definition notEmptyStr (v : value) : bool :=
  match v with Str "" => false | _ => true end.

(** [z.toString()] of an integer. *)
Definition decimal (z : Z) : string := NilZero.string_of_int (Z.to_int z).

(** [String(v)] *)
Definition String (v : value) : string :=
  match v with
  | Undefined => "undefined"
  | Null => "null"
  | Num z => decimal z
  | Str s => s
  end.

(** [s.slice(-n)]: the last [n] characters. *)
Definition sliceLast (n : nat) (s : string) : string :=
  substring (String.length s - n) n s.

(** [s.padStart(n, c)] *)
Definition padStart (n : nat) (c : ascii) (s : string) : string :=
  Nat.iter (n - String.length s) (String.String c) s.

(** White space and line terminators among the code units below 256:
    TAB, LF, VT, FF, CR, SP and NBSP. *)
Definition isWhiteSpace (c : ascii) : bool :=
  let n := nat_of_ascii c in
  ((9 <=? n) && (n <=? 13) || (n =? 32) || (n =? 160))%nat.

Fixpoint trimStart (s : string) : string :=
  match s with
  | String.String c r => if isWhiteSpace c then trimStart r else s
  | EmptyString => EmptyString
  end.

Fixpoint trimEnd (s : string) : string :=
  match s with
  | EmptyString => EmptyString
  | String.String c r =>
      match trimEnd r with
      | EmptyString =>
          if isWhiteSpace c then EmptyString else String.String c EmptyString
      | r' => String.String c r'
      end
  end.

(** [s.trim()] *)
Definition trim (s : string) : string := trimEnd (trimStart s).

(** The value of a digit in radix 10, 16, 8 or 2. *)
Definition digitValue (radix : Z) (c : ascii) : option Z :=
  let n := Z.of_nat (nat_of_ascii c) in
  let v :=
    if (48 <=? n) && (n <=? 57) then Some (n - 48)
    else if (97 <=? n) && (n <=? 102) then Some (n - 87)
    else if (65 <=? n) && (n <=? 70) then Some (n - 55)
    else None in
  match v with
  | Some d => if d <? radix then Some d else None
  | None => None
  end.

(** The longest prefix of digits of [s]: its value continuing from [acc],
    the number of digits read and the rest of the string. *)
Fixpoint readDigits (radix : Z) (s : string) (acc : Z) (count : nat)
  : Z * nat * string :=
  match s with
  | String.String c r =>
      match digitValue radix c with
      | Some d => readDigits radix r (acc * radix + d) (S count)
      | None => (acc, count, s)
      end
  | EmptyString => (acc, count, s)
  end.

(** An optional sign: [true] when it is a minus, and the rest. *)
Definition readSign (s : string) : bool * string :=
  match s with
  | String.String "-" r => (true, r)
  | String.String "+" r => (false, r)
  | _ => (false, s)
  end.

(** [parseInt(s, 10)] on a string: leading white space, an optional sign
    and the longest prefix of decimal digits; [None] is NaN. *)
Definition parseIntStr (s : string) : option Z :=
  let (negative, r) := readSign (trimStart s) in
  match readDigits 10 r 0 0 with
  | (_, O, _) => None
  | (v, _, _) => Some (if negative then - v else v)
  end.

(** [parseInt(v, 10)]: the argument is first converted with [String]. *)
Definition parseInt (v : value) : option Z := parseIntStr (String v).

(** m * 10^e as an exact number. *)
Definition scale10 (m e : Z) : num :=
  if 0 <=? e then Fin (inject_Z (m * 10 ^ e))
  else Fin (Qmake m (Z.to_pos (10 ^ (- e)))).

(** [ExponentPart_opt] at the end of a literal: the exponent, when the
    whole of [s] is an exponent part or empty. *)
Definition readExponent (s : string) : option Z :=
  match s with
  | EmptyString => Some 0
  | String.String c r =>
      if (c =? "e")%char || (c =? "E")%char then
        let (negative, r') := readSign r in
        match readDigits 10 r' 0 0 with
        | (_, O, _) => None
        | (v, _, EmptyString) => Some (if negative then - v else v)
        | _ => None
        end
      else None
  end.

(** [StrUnsignedDecimalLiteral] without [Infinity]: digits, an optional
    fraction and an optional exponent, with a digit on one side of the
    point at least. *)
Definition readUnsignedDecimal (s : string) : option num :=
  let '(i, ni, r) := readDigits 10 s 0 0 in
  match r with
  | String.String "." r1 =>
      let '(m, nf, r2) := readDigits 10 r1 i 0 in
      match (ni + nf)%nat, readExponent r2 with
      | O, _ => None
      | _, Some e => Some (scale10 m (e - Z.of_nat nf))
      | _, None => None
      end
  | _ =>
      match ni, readExponent r with
      | O, _ => None
      | _, Some e => Some (scale10 i e)
      | _, None => None
      end
  end.

(** [NonDecimalIntegerLiteral]: [0x], [0o] or [0b] and digits to the end. *)
Definition readNonDecimal (s : string) : option num :=
  match s with
  | String.String "0" (String.String p r) =>
      let radix :=
        if (p =? "x")%char || (p =? "X")%char then Some 16
        else if (p =? "o")%char || (p =? "O")%char then Some 8
        else if (p =? "b")%char || (p =? "B")%char then Some 2
        else None in
      match radix with
      | Some rx =>
          match readDigits rx r 0 0 with
          | (_, O, _) => None
          | (v, _, EmptyString) => Some (ofZ v)
          | _ => None
          end
      | None => None
      end
  | _ => None
  end.

Definition negate (n : num) : num :=
  match n with
  | NaN => NaN
  | Inf s => Inf (negb s)
  | Fin q => Fin (Qopp q)
  end.

(** [Number(s)] on a string ([StringToNumber]): the trimmed string is
    empty (0), a non-decimal integer literal, or a signed decimal literal
    or [Infinity]; anything else is NaN. *)
Definition stringToNumber (s : string) : num :=
  let t := trim s in
  if (t =? "")%string then ofZ 0 else
  match readNonDecimal t with
  | Some n => n
  | None =>
      let (negative, r) := readSign t in
      let u := if (r =? "Infinity")%string then Some (Inf false)
               else readUnsignedDecimal r in
      match u with
      | Some n => if negative then negate n else n
      | None => NaN
      end
  end.

(** [Number(v)] *)
Definition Number (v : value) : num :=
  match v with
  | Undefined => NaN
  | Null => ofZ 0
  | Num z => ofZ z
  | Str s => stringToNumber s
  end.

End JS.

(** ** The document store *)

Module Book.
Record t := mk {
  id : Z;
  barcode : string;
  title : string;
  author : string;
  publisher : string;
  shelf : string;
  price : JS.num;
  initial_qty : Z;
  current_qty : Z
}.

Definition set_current_qty (q : Z) (b : t) : t :=
  mk (id b) (barcode b) (title b) (author b) (publisher b) (shelf b)
     (price b) (initial_qty b) q.
End Book.

Module Seller.
Record t := mk {
  id : Z;
  name : string;
  barcode : string;
  created_at : string
}.
End Seller.

(** The [type] of a stock movement: ['in'] or ['out']. *)
Inductive direction := In_ | Out_.

(** The [note] of a stock movement: the caller's text ([note ? String(note) : '']),
    or one of the three template strings of the source, which are the sale
    to a seller (with [seller.name]), the quick sale from the home screen to
    a seller (with [seller.name]) and the initial import. *)
Inductive noteText :=
| NoteGiven (text : string)
| NoteSaleToSeller (sellerName : string)
| NoteQuickSaleToSeller (sellerName : string)
| NoteInitialImport.

Module Movement.
Record t := mk {
  id : Z;
  type : direction;
  bookBarcode : string;
  qty : Z;
  note : noteText;
  date : string
}.
End Movement.

Module Sale.
Record t := mk {
  id : Z;
  bookBarcode : string;
  sellerBarcode : string;
  qty : Z;
  total : JS.num;
  date : string
}.
End Sale.

Record DB := mkDB {
  books : list Book.t;
  sellers : list Seller.t;
  stockMovements : list Movement.t;
  sales : list Sale.t
}.

(** [{ books: [], sellers: [], stockMovements: [], sales: [] }] *)
Definition empty : DB := mkDB [] [] [] [].

(** ** Arrays and references into them *)

Section Arrays.
Context {A : Type}.

(** [arr.find(p)] as a reference: the index of the first element that
    satisfies [p], with the element. *)
Fixpoint findRef (p : A -> bool) (arr : list A) : option (nat * A) :=
  match arr with
  | [] => None
  | x :: rest =>
      if p x then Some (O, x)
      else match findRef p rest with
           | Some (i, y) => Some (S i, y)
           | None => None
           end
  end.

(** A write through a reference: the object at index [ref] becomes [f] of
    itself. *)
Fixpoint modifyAt (ref : nat) (f : A -> A) (arr : list A) : list A :=
  match arr, ref with
  | [], _ => []
  | x :: rest, O => f x :: rest
  | x :: rest, S r => x :: modifyAt r f rest
  end.

(** [arr.push(x)] *)
Definition push (arr : list A) (x : A) : list A := arr ++ [x].

(** [arr.length ? Math.max(...arr.map(x => x.id || 0)) + 1 : 1] *)
Definition nextId (id : A -> Z) (arr : list A) : Z :=
  match map (fun x => JS.orZeroZ (id x)) arr with
  | [] => 1
  | x :: rest => fold_left Z.max rest x + 1
  end.

End Arrays.

(** ** Responses *)

(** The failures of the handlers, one per error message of the source. *)
Inductive error :=
| MissingTitle            (* 400, book title missing *)
| InvalidPrice            (* 400, price not valid *)
| InvalidInitialQty       (* 400, initial quantity not valid *)
| BookToUpdateNotFound    (* 404, book to update not found *)
| BarcodeTaken            (* 400, a book with this barcode exists already *)
| NoBooksToDelete         (* 400, no books received for deletion *)
| MissingSellerName       (* 400 *)
| MissingSellerBarcode    (* 400 *)
| SellerBarcodeTaken      (* 400 *)
| InvalidStockIn          (* 400, barcode or quantity not valid *)
| BookNotFound            (* 404 *)
| InvalidSale             (* 400, sale data not valid *)
| SellerNotFound          (* 404 *)
| InsufficientStock       (* 400, not enough stock for the sale *)
| QuickMissingSeller      (* 400, seller barcode missing *)
| QuickNoItems            (* 400, no items in the transaction *)
| QuickInvalidRow (row : Z)               (* 400, row i+1 not valid (barcode/quantity) *)
| QuickBookNotFound (barcode : string)    (* 404, book with this barcode not found *)
| QuickInsufficientStock (title : string) (* 400, not enough stock for the book *)
| InvalidRows.            (* 400, input format not valid (rows) *)

(** [res.status(...)] *)
Definition status (e : error) : Z :=
  match e with
  | BookToUpdateNotFound | BookNotFound | SellerNotFound
  | QuickBookNotFound _ => 404
  | _ => 400
  end.

Inductive response (A : Type) :=
| Failure (e : error)
| Success (body : A).
Arguments Failure {A} e.
Arguments Success {A} body.

Definition isSuccess {A} (r : response A) : bool :=
  match r with Success _ => true | Failure _ => false end.

(** ** Request fields *)

(** [v ? String(v) : ''] *)
Definition stringOrEmpty (v : JS.value) : string :=
  if JS.truthy v then JS.String v else "".

(** [v ? String(v).trim() : ''] *)
Definition trimmedOrEmpty (v : JS.value) : string :=
  if JS.truthy v then JS.trim (JS.String v) else "".

(** [v != null && v !== '' ? Number(v) : 0] *)
Definition numberOrZero (v : JS.value) : JS.num :=
  if JS.notNullish v && JS.notEmptyStr v then JS.Number v else JS.ofZ 0.

(** [v != null && v !== '' ? parseInt(v, 10) : 0]; [None] is NaN. *)
Definition parseIntOrZero (v : JS.value) : option Z :=
  if JS.notNullish v && JS.notEmptyStr v then JS.parseInt v else Some 0.

(** [books.some(b => b.barcode === barcode)] *)
Definition barcodeExists (barcode : string) (books : list Book.t) : bool :=
  existsb (fun b => (Book.barcode b =? barcode)%string) books.

(** [books.find(b => b.barcode === barcode)] *)
Definition findByBarcode (barcode : string) (books : list Book.t)
  : option (nat * Book.t) :=
  findRef (fun b => (Book.barcode b =? barcode)%string) books.

(** [sellers.find(s => s.barcode === barcode)] *)
Definition findSeller (barcode : string) (sellers : list Seller.t)
  : option (nat * Seller.t) :=
  findRef (fun s => (Seller.barcode s =? barcode)%string) sellers.

(** ** Books *)

(** The body of [POST /api/books]. *)
Module BookReq.
Record t := mk {
  id : JS.value;
  barcode : JS.value;
  title : JS.value;
  author : JS.value;
  publisher : JS.value;
  shelf : JS.value;
  price : JS.value;
  initialQty : JS.value
}.
End BookReq.

(** One turn of the loop that generates a barcode, from the reading of
    [Date.now()] and the value of [Math.floor(Math.random() * 1000)]. *)
Definition newCode (now random : Z) : string :=
  "B" ++ JS.sliceLast 8 (JS.decimal now)
      ++ JS.padStart 3 "0" (JS.decimal random).

(** [do { newCode = ... } while (books.some(b => b.barcode === newCode))]
    over the successive readings of the clock and of the random generator;
    [None] when every reading given collides, the loop being still running. *)
Fixpoint generateCode (draws : list (Z * Z)) (books : list Book.t)
  : option string :=
  match draws with
  | [] => None
  | (now, random) :: later =>
      let code := newCode now random in
      if barcodeExists code books then generateCode later books
      else Some code
  end.

(** The writes of the update branch through [existing]. *)
Definition updateFields (title author publisher shelf : string)
  (price : JS.num) (barcode : string) (existing : Book.t) : Book.t :=
  Book.mk (Book.id existing) barcode title author publisher shelf price
          (Book.initial_qty existing) (Book.current_qty existing).

(** [app.post('/api/books', ...)]: create a book, or update the book of the
    given [id]. [None] only when [generateCode] has not finished. *)
Definition post_api_books (draws : list (Z * Z)) (db : DB) (body : BookReq.t)
  : option (response Book.t * DB) :=
  let books := books db in
  if negb (JS.truthy (BookReq.title body))
     || (JS.trim (JS.String (BookReq.title body)) =? "")%string
  then Some (Failure MissingTitle, db) else
  let title := JS.trim (JS.String (BookReq.title body)) in
  let author := stringOrEmpty (BookReq.author body) in
  let publisher := stringOrEmpty (BookReq.publisher body) in
  let shelf := stringOrEmpty (BookReq.shelf body) in
  let price := numberOrZero (BookReq.price body) in
  if JS.isNaN price || JS.ltZero price
  then Some (Failure InvalidPrice, db) else
  match parseIntOrZero (BookReq.initialQty body) with
  | None => Some (Failure InvalidInitialQty, db)
  | Some initialQty =>
  if initialQty <? 0 then Some (Failure InvalidInitialQty, db) else
  let barcode := trimmedOrEmpty (BookReq.barcode body) in
  if JS.truthy (BookReq.id body) then
    let id := JS.Number (BookReq.id body) in
    match findRef (fun b => JS.eqb (JS.ofZ (Book.id b)) id) books with
    | None => Some (Failure BookToUpdateNotFound, db)
    | Some (ref, existing) =>
        if negb (barcode =? "")%string
           && negb (barcode =? Book.barcode existing)%string
           && barcodeExists barcode books
        then Some (Failure BarcodeTaken, db) else
        let barcode :=
          if (barcode =? "")%string then Book.barcode existing else barcode in
        let update := updateFields title author publisher shelf price barcode in
        Some (Success (update existing),
              mkDB (modifyAt ref update books)
                   (sellers db) (stockMovements db) (sales db))
    end
  else
    if negb (barcode =? "")%string && barcodeExists barcode books
    then Some (Failure BarcodeTaken, db) else
    match (if (barcode =? "")%string then generateCode draws books
           else Some barcode) with
    | None => None
    | Some barcode =>
        let newBook :=
          Book.mk (nextId Book.id books) barcode title author publisher shelf
                  price initialQty initialQty in
        Some (Success newBook,
              mkDB (push books newBook)
                   (sellers db) (stockMovements db) (sales db))
    end
  end.

(** [idSet.has(n)]: the set [new Set(...)] is the list of its elements,
    membership being [SameValueZero]. *)
Definition setHas (idSet : list JS.num) (n : JS.num) : bool :=
  existsb (fun m => JS.sameValueZero m n) idSet.

(** [app.post('/api/books/delete', ...)]; the body's [ids] is [None] when
    it is not an array. *)
Definition post_api_books_delete (db : DB) (ids : option (list JS.value))
  : response Z * DB :=
  match ids with
  | None | Some [] => (Failure NoBooksToDelete, db)
  | Some ids =>
      let before := Z.of_nat (List.length (books db)) in
      let idSet := map JS.Number ids in
      let books :=
        filter (fun b => negb (setHas idSet (JS.ofZ (Book.id b)))) (books db) in
      let deletedCount := before - Z.of_nat (List.length books) in
      (Success deletedCount,
       mkDB books (sellers db) (stockMovements db) (sales db))
  end.

(** ** Sellers *)

(** [app.post('/api/sellers', ...)], at the time [now]. *)
Definition post_api_sellers (now : string) (db : DB) (name barcode : JS.value)
  : response Seller.t * DB :=
  let sellers := sellers db in
  let name := trimmedOrEmpty name in
  let barcode := trimmedOrEmpty barcode in
  if (name =? "")%string then (Failure MissingSellerName, db) else
  if (barcode =? "")%string then (Failure MissingSellerBarcode, db) else
  if existsb (fun s => (Seller.barcode s =? barcode)%string) sellers
  then (Failure SellerBarcodeTaken, db) else
  let seller := Seller.mk (nextId Seller.id sellers) name barcode now in
  (Success seller,
   mkDB (books db) (push sellers seller) (stockMovements db) (sales db)).

(** ** Stock movements *)

(** [app.post('/api/stock/in', ...)], at the time [now]. *)
Definition post_api_stock_in (now : string) (db : DB)
  (barcode qty note : JS.value) : response Book.t * DB :=
  let barcode := trimmedOrEmpty barcode in
  match parseIntOrZero qty with
  | None => (Failure InvalidStockIn, db)
  | Some qty =>
  if (barcode =? "")%string || (qty <=? 0) then (Failure InvalidStockIn, db) else
  match findByBarcode barcode (books db) with
  | None => (Failure BookNotFound, db)
  | Some (ref, book) =>
      let restock b :=
        Book.set_current_qty (JS.orZeroZ (Book.current_qty b) + qty) b in
      let movements := stockMovements db in
      let movement :=
        Movement.mk (nextId Movement.id movements) In_ barcode qty
                    (NoteGiven (stringOrEmpty note)) now in
      (Success (restock book),
       mkDB (modifyAt ref restock (books db)) (sellers db)
            (push movements movement) (sales db))
  end
  end.

(** ** Sales *)

(** The body of the answer of a single sale. *)
Record saleReceipt := mkReceipt {
  bookTitle : string;
  sellerName : string;
  soldQty : Z;
  total : JS.num
}.

(** [app.post('/api/stock/sale', ...)], at the time [now]. *)
Definition post_api_stock_sale (now : string) (db : DB)
  (bookBarcode sellerBarcode qty : JS.value) : response saleReceipt * DB :=
  let bookBarcode := trimmedOrEmpty bookBarcode in
  let sellerBarcode := trimmedOrEmpty sellerBarcode in
  match parseIntOrZero qty with
  | None => (Failure InvalidSale, db)
  | Some qty =>
  if (bookBarcode =? "")%string || (sellerBarcode =? "")%string || (qty <=? 0)
  then (Failure InvalidSale, db) else
  match findByBarcode bookBarcode (books db) with
  | None => (Failure BookNotFound, db)
  | Some (ref, book) =>
  match findSeller sellerBarcode (sellers db) with
  | None => (Failure SellerNotFound, db)
  | Some (_, seller) =>
      let currentQty := JS.orZeroZ (Book.current_qty book) in
      if currentQty <? qty then (Failure InsufficientStock, db) else
      let price := JS.orZero (Book.price book) in
      let total := JS.mul price (JS.ofZ qty) in
      let movements := stockMovements db in
      let movement :=
        Movement.mk (nextId Movement.id movements) Out_ bookBarcode qty
                    (NoteSaleToSeller (Seller.name seller)) now in
      let sales := sales db in
      let sale :=
        Sale.mk (nextId Sale.id sales) bookBarcode sellerBarcode qty total now in
      (Success (mkReceipt (Book.title book) (Seller.name seller) qty total),
       mkDB (modifyAt ref (Book.set_current_qty (currentQty - qty)) (books db))
            (sellers db) (push movements movement) (push sales sale))
  end
  end
  end.

(** An element of [items] in the body of a quick sale; [items[i] || {}]
    makes a null element the item without fields. *)
Module Item.
Record t := mk {
  barcode : JS.value;
  qty : JS.value
}.
End Item.

(** An element of [normalizedItems]: [{ book, barcode, qty }], where [book]
    is a reference into [books]. *)
Module Normalized.
Record t := mk {
  book : nat;
  barcode : string;
  qty : Z
}.
End Normalized.

(** The loop [for (let i = 0; i < items.length; i++)] that validates the
    items and fills [normalizedItems], from the index [i] on; it returns
    at the first item that fails. *)
Fixpoint normalizeItems (books : list Book.t) (items : list Item.t) (i : Z)
  (normalizedItems : list Normalized.t) : error + list Normalized.t :=
  match items with
  | [] => inr normalizedItems
  | item :: later =>
      (* (item.barcode || '').toString().trim() *)
      let barcode := trimmedOrEmpty (Item.barcode item) in
      match parseIntOrZero (Item.qty item) with
      | None => inl (QuickInvalidRow (i + 1))
      | Some qty =>
      if (barcode =? "")%string || (qty <=? 0)
      then inl (QuickInvalidRow (i + 1)) else
      match findByBarcode barcode books with
      | None => inl (QuickBookNotFound barcode)
      | Some (ref, book) =>
          let currentQty := JS.orZeroZ (Book.current_qty book) in
          if currentQty <? qty
          then inl (QuickInsufficientStock (Book.title book)) else
          normalizeItems books later (i + 1)
            (push normalizedItems (Normalized.mk ref barcode qty))
      end
      end
  end.

(** The variables that the [forEach] over [normalizedItems] updates. *)
Module Quick.
Record t := mk {
  books : list Book.t;
  movements : list Movement.t;
  sales : list Sale.t;
  nextMoveId : Z;
  nextSaleId : Z;
  totalAmount : JS.num;
  totalQty : Z
}.
End Quick.

(** The body of [normalizedItems.forEach(({ book, barcode, qty }) => ...)]. *)
Definition applyItem (sellerName sellerCode now : string) (st : Quick.t)
  (item : Normalized.t) : Quick.t :=
  match nth_error (Quick.books st) (Normalized.book item) with
  | None => st (* a reference always points into the array *)
  | Some book =>
      let qty := Normalized.qty item in
      let barcode := Normalized.barcode item in
      let price := JS.orZero (Book.price book) in
      let rowTotal := JS.mul price (JS.ofZ qty) in
      let sell b :=
        Book.set_current_qty (JS.orZeroZ (Book.current_qty b) - qty) b in
      Quick.mk
        (modifyAt (Normalized.book item) sell (Quick.books st))
        (push (Quick.movements st)
           (Movement.mk (Quick.nextMoveId st) Out_ barcode qty
                        (NoteQuickSaleToSeller sellerName) now))
        (push (Quick.sales st)
           (Sale.mk (Quick.nextSaleId st) barcode sellerCode qty rowTotal now))
        (Quick.nextMoveId st + 1)
        (Quick.nextSaleId st + 1)
        (JS.add (Quick.totalAmount st) rowTotal)
        (Quick.totalQty st + qty)
  end.

(** The body of the answer of a quick sale. *)
Record quickReceipt := mkQuickReceipt {
  totalAmount : JS.num;
  totalQty : Z;
  itemsCount : Z
}.

(** [app.post('/api/sales/quick', ...)], at the time [now]; the body's
    [items] is [None] when it is not an array. *)
Definition post_api_sales_quick (now : string) (db : DB)
  (sellerBarcode : JS.value) (items : option (list Item.t))
  : response quickReceipt * DB :=
  let sellerCode := trimmedOrEmpty sellerBarcode in
  if (sellerCode =? "")%string then (Failure QuickMissingSeller, db) else
  match items with
  | None | Some [] => (Failure QuickNoItems, db)
  | Some items =>
  match findSeller sellerCode (sellers db) with
  | None => (Failure SellerNotFound, db)
  | Some (_, seller) =>
  match normalizeItems (books db) items 0 [] with
  | inl e => (Failure e, db)
  | inr normalizedItems =>
      let movements := stockMovements db in
      let sales := sales db in
      let start :=
        Quick.mk (books db) movements sales
                 (nextId Movement.id movements) (nextId Sale.id sales)
                 (JS.ofZ 0) 0 in
      let st :=
        fold_left (applyItem (Seller.name seller) sellerCode now)
                  normalizedItems start in
      (Success (mkQuickReceipt (Quick.totalAmount st) (Quick.totalQty st)
                               (Z.of_nat (List.length normalizedItems))),
       mkDB (Quick.books st) (sellers db) (Quick.movements st) (Quick.sales st))
  end
  end
  end.

(** ** Import of books from rows *)

(** An element of [rows] that is an object; a falsy element is [None]. *)
Module Row.
Record t := mk {
  barcode : JS.value;
  title : JS.value;
  author : JS.value;
  publisher : JS.value;
  shelf : JS.value;
  price : JS.value;
  initialQty : JS.value
}.
End Row.

(** The messages pushed on [errors], each after the number [index + 1]
    of its row. *)
Inductive rowError :=
| RowMissingTitle
| RowMissingBarcode
| RowInvalidPrice
| RowInvalidInitialQty.

(** The variables that the [forEach] over [rows] updates. *)
Module ImportState.
Record t := mk {
  books : list Book.t;
  movements : list Movement.t;
  nextBookId : Z;
  nextMoveId : Z;
  insertedCount : Z;
  skippedExisting : Z;
  errors : list (Z * rowError)
}.

Definition pushError (st : t) (row : Z) (e : rowError) : t :=
  mk (books st) (movements st) (nextBookId st) (nextMoveId st)
     (insertedCount st) (skippedExisting st) (push (errors st) (row, e)).
End ImportState.

(** The body of [rows.forEach((row, index) => ...)]; [clock index] is the
    time read while the row is handled. *)
Definition importRow (clock : Z -> string) (st : ImportState.t)
  (row : option Row.t) (index : Z) : ImportState.t :=
  match row with
  | None => st
  | Some row =>
  let title := trimmedOrEmpty (Row.title row) in
  if (title =? "")%string
  then ImportState.pushError st (index + 1) RowMissingTitle else
  let barcode := trimmedOrEmpty (Row.barcode row) in
  if (barcode =? "")%string
  then ImportState.pushError st (index + 1) RowMissingBarcode else
  if barcodeExists barcode (ImportState.books st)
  then ImportState.mk (ImportState.books st) (ImportState.movements st)
         (ImportState.nextBookId st) (ImportState.nextMoveId st)
         (ImportState.insertedCount st) (ImportState.skippedExisting st + 1)
         (ImportState.errors st) else
  let author := stringOrEmpty (Row.author row) in
  let publisher := stringOrEmpty (Row.publisher row) in
  let shelf := stringOrEmpty (Row.shelf row) in
  let price := numberOrZero (Row.price row) in
  if JS.isNaN price || JS.ltZero price
  then ImportState.pushError st (index + 1) RowInvalidPrice else
  match parseIntOrZero (Row.initialQty row) with
  | None => ImportState.pushError st (index + 1) RowInvalidInitialQty
  | Some initialQty =>
  if initialQty <? 0
  then ImportState.pushError st (index + 1) RowInvalidInitialQty else
  let newBook :=
    Book.mk (ImportState.nextBookId st) barcode title author publisher shelf
            price initialQty initialQty in
  let positive := 0 <? initialQty in
  ImportState.mk
    (push (ImportState.books st) newBook)
    (if positive
     then push (ImportState.movements st)
            (Movement.mk (ImportState.nextMoveId st) In_ barcode initialQty
                         NoteInitialImport (clock index))
     else ImportState.movements st)
    (ImportState.nextBookId st + 1)
    (if positive then ImportState.nextMoveId st + 1 else ImportState.nextMoveId st)
    (ImportState.insertedCount st + 1)
    (ImportState.skippedExisting st)
    (ImportState.errors st)
  end
  end.

(** [rows.forEach(...)] from the index [index] on. *)
Fixpoint forEachRow (clock : Z -> string) (rows : list (option Row.t))
  (index : Z) (st : ImportState.t) : ImportState.t :=
  match rows with
  | [] => st
  | row :: later =>
      forEachRow clock later (index + 1) (importRow clock st row index)
  end.

(** The body of the answer of an import. *)
Record importReport := mkReport {
  insertedCount : Z;
  skippedExisting : Z;
  errors : list (Z * rowError)
}.

(** [app.post('/api/import/books-tsv', ...)]; the body's [rows] is [None]
    when it is not an array. *)
Definition post_api_import_books_tsv (clock : Z -> string) (db : DB)
  (rows : option (list (option Row.t))) : response importReport * DB :=
  match rows with
  | None => (Failure InvalidRows, db)
  | Some rows =>
      let start :=
        ImportState.mk (books db) (stockMovements db)
                  (nextId Book.id (books db))
                  (nextId Movement.id (stockMovements db)) 0 0 [] in
      let st := forEachRow clock rows 0 start in
      (Success (mkReport (ImportState.insertedCount st) (ImportState.skippedExisting st)
                         (ImportState.errors st)),
       mkDB (ImportState.books st) (sellers db) (ImportState.movements st) (sales db))
  end.

(** ** Handlers that only read *)

(** [s.toLowerCase()] on code units below 256: the letters A to Z and the
    accented capitals (0xC0 to 0xDE, but the multiplication sign 0xD7) go
    to the code unit 32 above. *)
Definition lowerCaseUnit (c : ascii) : ascii :=
  let n := nat_of_ascii c in
  if ((65 <=? n) && (n <=? 90) || (192 <=? n) && (n <=? 214)
      || (216 <=? n) && (n <=? 222))%nat
  then ascii_of_nat (n + 32) else c.

Fixpoint toLowerCase (s : string) : string :=
  match s with
  | EmptyString => EmptyString
  | String.String c r => String.String (lowerCaseUnit c) (toLowerCase r)
  end.

(** [hay.startsWith(needle)] *)
Fixpoint startsWith (hay needle : string) {struct needle} : bool :=
  match needle with
  | EmptyString => true
  | String.String c needle' =>
      match hay with
      | EmptyString => false
      | String.String d hay' => (c =? d)%char && startsWith hay' needle'
      end
  end.

(** [hay.includes(needle)]: the needle starts at some position of the
    hay. *)
Fixpoint includes (hay needle : string) : bool :=
  startsWith hay needle
  || match hay with
     | EmptyString => false
     | String.String _ r => includes r needle
     end.

(** [fields.join(' ')] *)
Fixpoint joinWithSpace (fields : list string) : string :=
  match fields with
  | [] => ""
  | [field] => field
  | field :: rest => field ++ " " ++ joinWithSpace rest
  end.

(** [(req.query.q || '').toString().trim().toLowerCase()] for a query
    that is absent or a string. *)
Definition searchText (q : option string) : string :=
  toLowerCase (JS.trim (match q with Some s => s | None => "" end)).

(** The fields of a book that a search reads. *)
Definition bookFields (b : Book.t) : list string :=
  [Book.title b; Book.author b; Book.publisher b; Book.barcode b;
   Book.shelf b].

(** [app.get('/api/books/search', ...)] *)
Definition get_api_books_search (db : DB) (q : option string)
  : list Book.t :=
  let q := searchText q in
  if negb (q =? "")%string
  then filter (fun b => includes (toLowerCase (joinWithSpace (bookFields b))) q)
              (books db)
  else books db.

(** The fields of a seller that a search reads. *)
Definition sellerFields (s : Seller.t) : list string :=
  [Seller.name s; Seller.barcode s].

(** [app.get('/api/sellers/search', ...)] *)
Definition get_api_sellers_search (db : DB) (q : option string)
  : list Seller.t :=
  let q := searchText q in
  if negb (q =? "")%string
  then filter
         (fun s => includes (toLowerCase (joinWithSpace (sellerFields s))) q)
         (sellers db)
  else sellers db.

(** [app.get('/api/books/by-barcode/:barcode', ...)]; the parameter of
    the route is a string. *)
Definition get_api_books_by_barcode (db : DB) (barcode : string)
  : response Book.t :=
  match findByBarcode barcode (books db) with
  | None => Failure BookNotFound
  | Some (_, book) => Success book
  end.

(** [app.get('/api/sellers/by-barcode/:barcode', ...)] *)
Definition get_api_sellers_by_barcode (db : DB) (barcode : string)
  : response Seller.t :=
  match findSeller barcode (sellers db) with
  | None => Failure SellerNotFound
  | Some (_, seller) => Success seller
  end.

(** [app.get('/api/books', ...)] *)
Definition get_api_books (db : DB) : list Book.t := books db.

(** ** Reports *)

Definition quote : ascii := ascii_of_nat 34.
Definition tab : ascii := ascii_of_nat 9.
Definition lineFeed : ascii := ascii_of_nat 10.

(** The [replace] of [esc]: each quote of [s] becomes two quotes. *)
Fixpoint doubleQuotes (s : string) : string :=
  match s with
  | EmptyString => EmptyString
  | String.String c r =>
      if (c =? quote)%char
      then String.String quote (String.String quote (doubleQuotes r))
      else String.String c (doubleQuotes r)
  end.

(** [parts.join(sep)] for a separator of one character. *)
Fixpoint join (sep : ascii) (parts : list string) : string :=
  match parts with
  | [] => ""
  | [part] => part
  | part :: rest => part ++ String.String sep (join sep rest)
  end.

Section ToCsv.
Context {V : Type}.

(** How a value reads as text: [None] when [v == null], and [String(v)]
    otherwise. *)
Variable toText : V -> option string.

(** [esc] of [toCsv]: nothing for a null value, and otherwise the text of
    the value between quotes, its quotes doubled. *)
Definition esc (v : V) : string :=
  match toText v with
  | None => ""
  | Some s => String.String quote (doubleQuotes s ++ String.String quote "")
  end.

(** [toCsv(headers, rows)] *)
Definition toCsv (headers : list V) (rows : list (list V)) : string :=
  let headerLine := join tab (map esc headers) in
  let bodyLines := map (fun r => join tab (map esc r)) rows in
  join lineFeed (headerLine :: bodyLines).

End ToCsv.

(** The text of a value of a request body, for [toCsv]. *)
Definition valueText (v : JS.value) : option string :=
  if JS.notNullish v then Some (JS.String v) else None.

(** A cell of a report: a text, an integer or an amount. *)
Inductive cell :=
| Text (s : string)
| Count (z : Z)
| Amount (n : JS.num).

(** [id || ''] *)
Definition idCell (id : Z) : cell :=
  if id =? 0 then Text "" else Count id.

(** [(books.find(b => b.barcode === barcode) || {}).title || ''] *)
Definition titleOf (barcode : string) (bks : list Book.t) : string :=
  match findByBarcode barcode bks with
  | Some (_, book) => Book.title book
  | None => ""
  end.

(** [(sellers.find(x => x.barcode === barcode) || {}).name || ''] *)
Definition nameOf (barcode : string) (sellers : list Seller.t) : string :=
  match findSeller barcode sellers with
  | Some (_, seller) => Seller.name seller
  | None => ""
  end.

(** The row of a sale in the report of the sales. *)
Definition saleRow (db : DB) (s : Sale.t) : list cell :=
  [idCell (Sale.id s); Text (Sale.date s); Text (Sale.bookBarcode s);
   Text (titleOf (Sale.bookBarcode s) (books db));
   Text (Sale.sellerBarcode s);
   Text (nameOf (Sale.sellerBarcode s) (sellers db));
   Count (JS.orZeroZ (Sale.qty s)); Amount (JS.orZero (Sale.total s))].

(** The [rows] of [app.get('/api/reports/sales-csv', ...)]. *)
Definition sales_csv_rows (db : DB) : list (list cell) :=
  map (saleRow db) (sales db).

(** ** The server as a transition system *)

(** A request with what it reads from its environment (clock, random
    generator). *)
Inductive request :=
| PostBooks (draws : list (Z * Z)) (body : BookReq.t)
| PostBooksDelete (ids : option (list JS.value))
| PostSellers (now : string) (name barcode : JS.value)
| PostStockIn (now : string) (barcode qty note : JS.value)
| PostStockSale (now : string) (bookBarcode sellerBarcode qty : JS.value)
| PostSalesQuick (now : string) (sellerBarcode : JS.value)
                 (items : option (list Item.t))
| PostImportBooksTsv (clock : Z -> string) (rows : option (list (option Row.t))).

(** Whether the request was answered with success, and the document on
    disk after it. *)
Definition handle (db : DB) (r : request) : option (bool * DB) :=
  match r with
  | PostBooks draws body =>
      match post_api_books draws db body with
      | Some (res, db') => Some (isSuccess res, db')
      | None => None
      end
  | PostBooksDelete ids =>
      let (res, db') := post_api_books_delete db ids in Some (isSuccess res, db')
  | PostSellers now name barcode =>
      let (res, db') := post_api_sellers now db name barcode in
      Some (isSuccess res, db')
  | PostStockIn now barcode qty note =>
      let (res, db') := post_api_stock_in now db barcode qty note in
      Some (isSuccess res, db')
  | PostStockSale now bookBarcode sellerBarcode qty =>
      let (res, db') := post_api_stock_sale now db bookBarcode sellerBarcode qty in
      Some (isSuccess res, db')
  | PostSalesQuick now sellerBarcode items =>
      let (res, db') := post_api_sales_quick now db sellerBarcode items in
      Some (isSuccess res, db')
  | PostImportBooksTsv clock rows =>
      let (res, db') := post_api_import_books_tsv clock db rows in
      Some (isSuccess res, db')
  end.

(** ** A small shop, for the examples *)

Module Shop.
Definition bookA : Book.t := Book.mk 1 "A" "Alef" "" "" "" (JS.ofZ 10) 5 5.
Definition bookB : Book.t := Book.mk 2 "B" "Bet" "" "" "" (JS.ofZ 7) 5 5.
Definition dan : Seller.t := Seller.mk 1 "Dan" "S1" "2024-01-01T08:00:00.000Z".

(** Two books with five copies each, one seller, no history. *)
Definition db : DB := mkDB [bookA; bookB] [dan] [] [].

Definition noon : string := "2024-01-01T12:00:00.000Z".

(** A body of [POST /api/books] with the given identifier, barcode, title
    and initial quantity and nothing else. *)
Definition bookBody (id barcode title initialQty : JS.value) : BookReq.t :=
  BookReq.mk id barcode title JS.Undefined JS.Undefined JS.Undefined
             JS.Undefined initialQty.

(** A row of an import with the given barcode, title and initial quantity
    and nothing else. *)
Definition row (barcode title initialQty : JS.value) : option Row.t :=
  Some (Row.mk barcode title JS.Undefined JS.Undefined JS.Undefined
               JS.Undefined initialQty).

Definition clock (index : Z) : string := noon.

(** The shop after three more copies of the first book came in. *)
Definition restockedA : Book.t := Book.set_current_qty 8 bookA.
Definition arrival : Movement.t :=
  Movement.mk 1 In_ "A" 3 (NoteGiven "") "2024-01-01T09:00:00.000Z".
Definition dbRestocked : DB := mkDB [restockedA; bookB] [dan] [arrival] [].

(** The same shop when the first book is sold out. *)
Definition soldOutA : Book.t := Book.set_current_qty 0 bookA.
Definition dbSoldOut : DB := mkDB [soldOutA; bookB] [dan] [] [].
End Shop.

(** ** Vocabulary of the properties *)

(** An item of a quick sale fails its validation against the books: its
    trimmed barcode is empty or matches no book, [parseInt] finds no
    leading integer in its quantity, or the leading integer is not
    positive or exceeds the current quantity of its book. *)
Definition itemFails (books : list Book.t) (item : Item.t) : Prop :=
  let barcode := trimmedOrEmpty (Item.barcode item) in
  barcode = ""
  \/ findByBarcode barcode books = None
  \/ parseIntOrZero (Item.qty item) = None
  \/ exists qty, parseIntOrZero (Item.qty item) = Some qty /\
       (qty <= 0 \/
        exists ref book, findByBarcode barcode books = Some (ref, book) /\
                         Book.current_qty book < qty).

(** An identifier occurs in the list of a deletion request when an element
    of the list, converted by [Number] as [idSet] is built, equals it. *)
Definition listed (id : Z) (ids : list JS.value) : bool :=
  existsb (fun v => JS.eqb (JS.Number v) (JS.ofZ id)) ids.

(** How a deletion request gives an identifier: as a number, or as the
    text of its decimal expansion. *)
Inductive givenId :=
| AsNumber (id : Z)
| AsText (id : Z).

Definition idOf (g : givenId) : Z :=
  match g with AsNumber id | AsText id => id end.

(** The element of [ids] that gives the identifier. *)
Definition idValue (g : givenId) : JS.value :=
  match g with
  | AsNumber id => JS.Num id
  | AsText id => JS.Str (JS.decimal id)
  end.

(** The identifier is one of those given. *)
Definition occurs (id : Z) (given : list givenId) : bool :=
  existsb (fun g => idOf g =? id) given.

(** The conditions under which [POST /api/books] refuses a body, in the
    order of its checks. *)
Definition titleMissing (title : JS.value) : Prop :=
  JS.truthy title = false \/ JS.trim (JS.String title) = "".

Definition priceRefused (price : JS.value) : Prop :=
  JS.isNaN (numberOrZero price) = true \/ JS.ltZero (numberOrZero price) = true.

Definition initialQtyRefused (initialQty : JS.value) : Prop :=
  parseIntOrZero initialQty = None \/
  exists q, parseIntOrZero initialQty = Some q /\ q < 0.

Definition barcodeTaken (barcode : JS.value) (books : list Book.t) : Prop :=
  trimmedOrEmpty barcode <> "" /\
  barcodeExists (trimmedOrEmpty barcode) books = true.

(** The book that an update looks for: [books.find(b => b.id === id)]. *)
Definition findById (id : JS.value) (books : list Book.t)
  : option (nat * Book.t) :=
  findRef (fun b => JS.eqb (JS.ofZ (Book.id b)) (JS.Number id)) books.

(** The state in which the [forEach] of an import starts. *)
Definition importStart (db : DB) : ImportState.t :=
  ImportState.mk (books db) (stockMovements db)
                 (nextId Book.id (books db))
                 (nextId Movement.id (stockMovements db)) 0 0 [].

(** The state of an import after its first [n] rows. *)
Definition importAfter (clock : Z -> string) (db : DB)
  (rows : list (option Row.t)) (n : nat) : ImportState.t :=
  forEachRow clock (firstn n rows) 0 (importStart db).

(** The body of [POST /api/books] that creates a book from the fields of
    a row. *)
Definition bodyOfRow (row : Row.t) : BookReq.t :=
  BookReq.mk JS.Undefined (Row.barcode row) (Row.title row) (Row.author row)
             (Row.publisher row) (Row.shelf row) (Row.price row)
             (Row.initialQty row).

(** The row error that carries the message of a failure of
    [POST /api/books]: the two handlers share the messages for a missing
    title, an invalid price and an invalid initial quantity. *)
Definition rowErrorOf (e : error) : option rowError :=
  match e with
  | MissingTitle => Some RowMissingTitle
  | InvalidPrice => Some RowInvalidPrice
  | InvalidInitialQty => Some RowInvalidInitialQty
  | _ => None
  end.

(** ** The ledger equation *)

Definition sameDirection (a b : direction) : bool :=
  match a, b with
  | In_, In_ | Out_, Out_ => true
  | _, _ => false
  end.

(** The sum of [qty] over the movements of the type [d] that reference
    the barcode [code]. *)
Definition sumQty (d : direction) (code : string)
  (movements : list Movement.t) : Z :=
  fold_right Z.add 0
    (map Movement.qty
       (filter (fun m => sameDirection (Movement.type m) d
                         && (Movement.bookBarcode m =? code)%string)
               movements)).

(** [current_qty == initial_qty + sum of 'in' - sum of 'out'] for a book. *)
Definition ledgerEquation (movements : list Movement.t) (b : Book.t) : Prop :=
  Book.current_qty b
  = Book.initial_qty b + sumQty In_ (Book.barcode b) movements
    - sumQty Out_ (Book.barcode b) movements.

Definition ledgerHolds (db : DB) : Prop :=
  Forall (ledgerEquation (stockMovements db)) (books db).

Definition uniqueBarcodes (db : DB) : Prop :=
  NoDup (map Book.barcode (books db)).

(** A movement references the barcode. *)
Definition referenced (code : string) (movements : list Movement.t) : Prop :=
  exists m, In m movements /\ Movement.bookBarcode m = code.

(** The integers that the numbers of the code represent exactly, and on
    which its sums and differences are exact: from
    [Number.MIN_SAFE_INTEGER] to [Number.MAX_SAFE_INTEGER]. *)
Definition safeInteger (z : Z) : Prop :=
  - 9007199254740991 <= z <= 9007199254740991.

(** The quantities of the books and of the movements are safe integers. *)
Definition safeQuantities (db : DB) : Prop :=
  Forall (fun b => safeInteger (Book.initial_qty b) /\
                   safeInteger (Book.current_qty b)) (books db) /\
  Forall (fun m => safeInteger (Movement.qty m)) (stockMovements db).

(** No other book of the array has the barcode of the book [b] at [i]. *)
Definition aloneAt (bks : list Book.t) (i : nat) (b : Book.t) : Prop :=
  forall j, nth_error (map Book.barcode bks) j = Some (Book.barcode b) -> j = i.

(** The book [b'] of the document after the request is what the request
    made of the book [b] that was at [i]: the book at [i], every request
    but the deletion leaving the books at their places; and [b] itself
    when a deletion keeps it, a deletion writing to no book. *)
Definition continues (r : request) (db' : DB) (i : nat) (b b' : Book.t)
  : Prop :=
  match r with
  | PostBooksDelete _ => In b' (books db') /\ b' = b
  | _ => nth_error (books db') i = Some b'
  end.

(** The quantity that a request records as come in for a book that it
    inserts: the initial quantity of the book for an import, which pushes
    an ['in'] movement when this quantity is positive, and nothing for a
    creation. *)
Definition recordedIn (r : request) (b : Book.t) : Z :=
  match r with
  | PostImportBooksTsv _ _ => Book.initial_qty b
  | _ => 0
  end.

(** A book that a request inserted: no book had its barcode, its current
    quantity is its initial quantity, and the movements of its barcode are
    those loaded and what the request recorded as come in for it. *)
Definition insertedBook (recorded : Book.t -> Z) (db db' : DB) (b' : Book.t)
  : Prop :=
  ~ In (Book.barcode b') (map Book.barcode (books db)) /\
  Book.current_qty b' = Book.initial_qty b' /\
  sumQty In_ (Book.barcode b') (stockMovements db')
  = sumQty In_ (Book.barcode b') (stockMovements db) + recorded b' /\
  sumQty Out_ (Book.barcode b') (stockMovements db')
  = sumQty Out_ (Book.barcode b') (stockMovements db).

(** No book has a negative current quantity. *)
Definition nonNegative (db : DB) : Prop :=
  Forall (fun b => 0 <= Book.current_qty b) (books db).

(** ** Invariants used in the proofs *)

(** The counters of an import are the identifiers that [nextId] gives for
    the arrays as they are. *)
Definition countersAgree (st : ImportState.t) : Prop :=
  ImportState.nextBookId st = nextId Book.id (ImportState.books st) /\
  ImportState.nextMoveId st = nextId Movement.id (ImportState.movements st).

(** The quantity that a movement adds to its book. *)
Definition signedQty (m : Movement.t) : Z :=
  match Movement.type m with
  | In_ => Movement.qty m
  | Out_ => - Movement.qty m
  end.

(** A normalized item refers to a book of its barcode. *)
Definition validRef (codes : list string) (item : Normalized.t) : Prop :=
  nth_error codes (Normalized.book item) = Some (Normalized.barcode item).

(** What the rows of an import add to the books and movements it started
    from: books of new barcodes whose current quantity is their initial
    quantity, and movements that reference these books. *)
Definition importAdds (books0 : list Book.t) (movements0 : list Movement.t)
  (st : ImportState.t) : Prop :=
  exists news newMovements,
    ImportState.books st = (books0 ++ news)%list /\
    ImportState.movements st = (movements0 ++ newMovements)%list /\
    NoDup (map Book.barcode (ImportState.books st)) /\
    Forall (fun b => Book.current_qty b = Book.initial_qty b) news /\
    Forall (fun m => In (Movement.bookBarcode m) (map Book.barcode news))
           newMovements.

(** What a request keeps of the books [bks] in the books [old] that it
    leaves at their places. *)
Definition keptBook (bks : list Book.t) (ms ms' : list Movement.t)
  (old : list Book.t) : Prop :=
  forall i b,
    nth_error bks i = Some b -> aloneAt bks i b -> ledgerEquation ms b ->
    exists b',
      nth_error old i = Some b' /\
      Book.initial_qty b' = Book.initial_qty b /\
      (Book.barcode b' = Book.barcode b -> ledgerEquation ms' b').

(** The books after a request are the books before it at their places,
    followed by the books that the request inserted. *)
Definition accounted (recorded : Book.t -> Z) (db db' : DB) : Prop :=
  exists old inserted,
    books db' = (old ++ inserted)%list /\
    List.length old = List.length (books db) /\
    Forall (insertedBook recorded db db') inserted /\
    keptBook (books db) (stockMovements db) (stockMovements db') old.

(** What the [forEach] of a quick sale keeps, item after item. *)
Definition tracked (bks : list Book.t) (ms : list Movement.t) (st : Quick.t)
  : Prop :=
  map Book.barcode (Quick.books st) = map Book.barcode bks /\
  forall i b,
    nth_error bks i = Some b -> aloneAt bks i b -> ledgerEquation ms b ->
    exists b',
      nth_error (Quick.books st) i = Some b' /\
      Book.initial_qty b' = Book.initial_qty b /\
      Book.barcode b' = Book.barcode b /\
      ledgerEquation (Quick.movements st) b'.

(** The value of the digits of [d] after the value [acc] of the digits
    read before them. *)
Fixpoint digitsValue (d : Decimal.uint) (acc : Z) : Z :=
  match d with
  | Decimal.Nil => acc
  | Decimal.D0 l => digitsValue l (acc * 10 + 0)
  | Decimal.D1 l => digitsValue l (acc * 10 + 1)
  | Decimal.D2 l => digitsValue l (acc * 10 + 2)
  | Decimal.D3 l => digitsValue l (acc * 10 + 3)
  | Decimal.D4 l => digitsValue l (acc * 10 + 4)
  | Decimal.D5 l => digitsValue l (acc * 10 + 5)
  | Decimal.D6 l => digitsValue l (acc * 10 + 6)
  | Decimal.D7 l => digitsValue l (acc * 10 + 7)
  | Decimal.D8 l => digitsValue l (acc * 10 + 8)
  | Decimal.D9 l => digitsValue l (acc * 10 + 9)
  end.

(** The items that the validation of a quick sale lets through: each
    refers to a book of its barcode that has the quantity asked. *)
Definition checkedItem (bks : list Book.t) (item : Normalized.t) : Prop :=
  exists b, nth_error bks (Normalized.book item) = Some b /\
            Book.barcode b = Normalized.barcode item /\
            Normalized.qty item <= Book.current_qty b.

(** ** Invariants of the collections *)

(** No two sellers share a barcode. *)
Definition uniqueSellerBarcodes (db : DB) : Prop :=
  NoDup (map Seller.barcode (sellers db)).

(** In each collection no two records share an identifier. *)
Definition uniqueIds (db : DB) : Prop :=
  NoDup (map Book.id (books db)) /\
  NoDup (map Seller.id (sellers db)) /\
  NoDup (map Movement.id (stockMovements db)) /\
  NoDup (map Sale.id (sales db)).

(** The counters of a quick sale are the identifiers that [nextId] gives
    for its arrays, in which no identifier is repeated. *)
Definition quickIdsFresh (st : Quick.t) : Prop :=
  NoDup (map Movement.id (Quick.movements st)) /\
  NoDup (map Sale.id (Quick.sales st)) /\
  Quick.nextMoveId st = nextId Movement.id (Quick.movements st) /\
  Quick.nextSaleId st = nextId Sale.id (Quick.sales st).

(** The same for the arrays and the counters of an import. *)
Definition importIdsFresh (st : ImportState.t) : Prop :=
  NoDup (map Book.id (ImportState.books st)) /\
  NoDup (map Movement.id (ImportState.movements st)) /\
  ImportState.nextBookId st = nextId Book.id (ImportState.books st) /\
  ImportState.nextMoveId st = nextId Movement.id (ImportState.movements st).

(** The number of falsy elements of [rows], which an import passes over. *)
Definition ignoredRows (rows : list (option Row.t)) : nat :=
  List.length (filter (fun row => match row with None => true | Some _ => false end)
                      rows).

(** The barcode and the quantity of the movement that an import pushes for
    a book of positive initial quantity. *)
Definition initialStock (bs : list Book.t) : list (string * Z) :=
  map (fun b => (Book.barcode b, Book.initial_qty b))
      (filter (fun b => 0 <? Book.initial_qty b) bs).

(** What the rows of an import append to the books and movements it
    started from: books of barcodes that are new and pairwise distinct,
    whose current quantity is their initial quantity, and for each of
    positive initial quantity one ['in'] movement of it. *)
Definition importAppends (books0 : list Book.t) (movements0 : list Movement.t)
  (st : ImportState.t) : Prop :=
  exists news newMovements,
    ImportState.books st = (books0 ++ news)%list /\
    ImportState.movements st = (movements0 ++ newMovements)%list /\
    NoDup (map Book.barcode news) /\
    Forall (fun b => ~ In (Book.barcode b) (map Book.barcode books0) /\
                     Book.current_qty b = Book.initial_qty b /\
                     0 <= Book.initial_qty b) news /\
    map (fun m => (Movement.bookBarcode m, Movement.qty m)) newMovements
    = initialStock news /\
    Forall (fun m => Movement.type m = In_) newMovements.

(** A movement without its note. *)
Definition withoutNote (m : Movement.t)
  : Z * direction * string * Z * string :=
  (Movement.id m, Movement.type m, Movement.bookBarcode m, Movement.qty m,
   Movement.date m).

(** A row that an import cannot insert while the books include [bks]: a
    falsy row, a row without title or without barcode, a row whose barcode
    a book has, or a row of invalid price or initial quantity. *)
Definition settledRow (bks : list Book.t) (row : option Row.t) : Prop :=
  match row with
  | None => True
  | Some r =>
      trimmedOrEmpty (Row.title r) = ""
      \/ trimmedOrEmpty (Row.barcode r) = ""
      \/ barcodeExists (trimmedOrEmpty (Row.barcode r)) bks = true
      \/ JS.isNaN (numberOrZero (Row.price r))
          || JS.ltZero (numberOrZero (Row.price r)) = true
      \/ parseIntOrZero (Row.initialQty r) = None
      \/ exists q, parseIntOrZero (Row.initialQty r) = Some q /\ q < 0
  end.

(** ** A reader of the text of a report *)

(** Where the reader is in a field: before it, inside its quotes, or
    after a quote that closes the field or starts a doubled quote. *)
Inductive reading :=
| AtStart
| InQuotes (content : string)
| AfterQuote (content : string).

(** The records read, the fields read of the current record, and the
    current field. A field without quotes is empty and reads as [None]. *)
Record reader := mkReader {
  readRecords : list (list (option string));
  readFields : list (option string);
  current : reading
}.

Definition endField (st : reader) (field : option string) : reader :=
  mkReader (readRecords st) (readFields st ++ [field])%list AtStart.

Definition endRecord (st : reader) (field : option string) : reader :=
  mkReader (readRecords st ++ [readFields st ++ [field]])%list [] AtStart.

Definition readChar (st : reader) (c : ascii) : option reader :=
  match current st with
  | AtStart =>
      if (c =? quote)%char
      then Some (mkReader (readRecords st) (readFields st) (InQuotes ""))
      else if (c =? tab)%char then Some (endField st None)
      else if (c =? lineFeed)%char then Some (endRecord st None)
      else None
  | InQuotes content =>
      if (c =? quote)%char
      then Some (mkReader (readRecords st) (readFields st) (AfterQuote content))
      else Some (mkReader (readRecords st) (readFields st)
                   (InQuotes (content ++ String.String c "")))
  | AfterQuote content =>
      if (c =? quote)%char
      then Some (mkReader (readRecords st) (readFields st)
                   (InQuotes (content ++ String.String quote "")))
      else if (c =? tab)%char then Some (endField st (Some content))
      else if (c =? lineFeed)%char then Some (endRecord st (Some content))
      else None
  end.

Fixpoint readChars (st : reader) (s : string) : option reader :=
  match s with
  | EmptyString => Some st
  | String.String c r =>
      match readChar st c with
      | Some st' => readChars st' r
      | None => None
      end
  end.

(** At the end of the text the current field ends the last record; the
    text may not end inside quotes. *)
Definition finishReading (st : reader)
  : option (list (list (option string))) :=
  match current st with
  | AtStart => Some (readRecords (endRecord st None))
  | AfterQuote content => Some (readRecords (endRecord st (Some content)))
  | InQuotes _ => None
  end.

Definition readFrom (st : reader) (s : string)
  : option (list (list (option string))) :=
  match readChars st s with
  | Some st' => finishReading st'
  | None => None
  end.

(** The records of a text: fields end at the tabs and records at the line
    feeds that are outside quotes, and a doubled quote inside quotes is a
    quote; [None] when the text is not of this form. *)
Definition readTsv (s : string) : option (list (list (option string))) :=
  readFrom (mkReader [] [] AtStart) s.

(** The reading after a cell of the text [t]. *)
Definition afterCell (t : option string) : reading :=
  match t with
  | None => AtStart
  | Some s => AfterQuote s
  end.

(** * Properties *)

(** ** Arrays, references and identifiers *)

Lemma orZeroZ_id (z : Z) : JS.orZeroZ z = z.
Proof.
  unfold JS.orZeroZ. destruct (Z.eqb_spec z 0); congruence.
Qed.

Section ArrayFacts.
Context {A : Type}.
Implicit Types (p : A -> bool) (f : A -> A) (arr : list A).

Lemma findRef_Some p arr i x :
  findRef p arr = Some (i, x) ->
  nth_error arr i = Some x /\ p x = true /\
  forall j y, (j < i)%nat -> nth_error arr j = Some y -> p y = false.
Proof.
  revert i. induction arr as [|a arr IH]; intros i; simpl; [discriminate|].
  destruct (p a) eqn:Hp.
  - intros [= <- <-]. repeat split; auto. intros j y Hj; inversion Hj.
  - destruct (findRef p arr) as [[k y]|]; [|discriminate].
    intros [= <- <-]. destruct (IH k eq_refl) as (Hn & Hx & Hlt).
    repeat split; auto.
    intros [|j] z Hj; simpl.
    + intros [= <-]; exact Hp.
    + apply Hlt. lia.
Qed.

Lemma findRef_None p arr : findRef p arr = None <-> existsb p arr = false.
Proof.
  induction arr as [|a arr IH]; simpl; [tauto|].
  destruct (p a); simpl.
  - split; discriminate.
  - destruct (findRef p arr) as [[k y]|]; rewrite <- IH; split; congruence.
Qed.

Lemma nth_error_modifyAt_same ref f arr x :
  nth_error arr ref = Some x ->
  nth_error (modifyAt ref f arr) ref = Some (f x).
Proof.
  revert ref; induction arr as [|a arr IH]; intros [|r]; simpl; intros H;
    try discriminate H.
  - congruence.
  - now apply IH.
Qed.

Lemma nth_error_modifyAt_other ref f arr j :
  j <> ref -> nth_error (modifyAt ref f arr) j = nth_error arr j.
Proof.
  revert ref j; induction arr as [|a arr IH]; intros [|r] [|j] H; simpl;
    auto; try congruence.
Qed.

Lemma map_modifyAt {B} (g : A -> B) ref f arr :
  (forall x, nth_error arr ref = Some x -> g (f x) = g x) ->
  map g (modifyAt ref f arr) = map g arr.
Proof.
  revert ref; induction arr as [|a arr IH]; intros [|r] H; simpl; auto.
  - rewrite H; auto.
  - rewrite IH; auto.
Qed.

(** [Math.max] of a non-empty list is one of its elements and bounds all
    of them. *)
Lemma fold_left_max_spec (rest : list Z) (x : Z) :
  let m := fold_left Z.max rest x in
  In m (x :: rest) /\ forall y, In y (x :: rest) -> y <= m.
Proof.
  revert x; induction rest as [|a rest IH]; intros x; simpl.
  - split; [auto|]. intros y [<-|[]]; lia.
  - destruct (IH (Z.max x a)) as [Hin Hle]. simpl in Hin, Hle. split.
    + destruct Hin as [E|Hin]; [|auto].
      rewrite <- E. destruct (Z.max_spec x a) as [[_ ->]|[_ ->]]; auto.
    + intros y [<-|[<-|Hy]].
      * specialize (Hle (Z.max x a) (or_introl eq_refl)). lia.
      * specialize (Hle (Z.max x a) (or_introl eq_refl)). lia.
      * apply Hle; auto.
Qed.

End ArrayFacts.

(** C9. The identifier allocated for a collection is 1 when the collection
    is empty, and otherwise one more than the greatest identifier present:
    it is one more than the identifier of some element and greater than
    the identifier of every element. It is a function of the collection as
    it is loaded, so it does not depend on elements deleted earlier. *)
Theorem nextId_is_max_plus_one {A : Type} (id : A -> Z) (arr : list A) :
  (arr = [] -> nextId id arr = 1) /\
  (arr <> [] ->
     (exists x, In x arr /\ nextId id arr = id x + 1) /\
     (forall x, In x arr -> id x < nextId id arr)).
Proof.
  split.
  - intros ->. reflexivity.
  - intros Hne. unfold nextId.
    destruct arr as [|a arr]; [congruence|]. simpl.
    destruct (fold_left_max_spec (map (fun x => JS.orZeroZ (id x)) arr)
                (JS.orZeroZ (id a))) as [Hin Hle].
    change (In (fold_left Z.max (map (fun x => JS.orZeroZ (id x)) arr)
                  (JS.orZeroZ (id a)))
               (map (fun x => JS.orZeroZ (id x)) (a :: arr))) in Hin.
    split.
    + apply in_map_iff in Hin. destruct Hin as (x & Hx & Hin).
      exists x. split; [exact Hin|]. rewrite <- Hx, orZeroZ_id. reflexivity.
    + intros x Hx.
      assert (JS.orZeroZ (id x) <= fold_left Z.max
                (map (fun x => JS.orZeroZ (id x)) arr) (JS.orZeroZ (id a))).
      { apply Hle. apply (in_map (fun x => JS.orZeroZ (id x)) (a :: arr)).
        exact Hx. }
      rewrite orZeroZ_id in H. lia.
Qed.

Lemma nextId_is_max_plus_one_witness :
  (exists x, In x (books Shop.db) /\
             nextId Book.id (books Shop.db) = Book.id x + 1) /\
  (forall x, In x (books Shop.db) -> Book.id x < nextId Book.id (books Shop.db)).
Proof.
  apply (nextId_is_max_plus_one Book.id (books Shop.db)). discriminate.
Defined.

(** The identifier allocated is greater than every identifier present,
    and it follows one of them when the array is not empty. *)
Lemma nextId_above {A : Type} (id : A -> Z) (arr : list A) (x : A) :
  In x arr -> id x < nextId id arr.
Proof.
  intros Hx. unfold nextId. destruct arr as [|a arr]; [inversion Hx|].
  cbn [map].
  destruct (fold_left_max_spec (map (fun y => JS.orZeroZ (id y)) arr)
              (JS.orZeroZ (id a))) as [_ Hle].
  assert (H : JS.orZeroZ (id x)
              <= fold_left Z.max (map (fun y => JS.orZeroZ (id y)) arr)
                   (JS.orZeroZ (id a))).
  { apply Hle. apply (in_map (fun y => JS.orZeroZ (id y)) (a :: arr)).
    exact Hx. }
  rewrite orZeroZ_id in H. lia.
Qed.

Lemma nextId_attained {A : Type} (id : A -> Z) (a : A) (arr : list A) :
  exists x, In x (a :: arr) /\ nextId id (a :: arr) = id x + 1.
Proof.
  unfold nextId. cbn [map].
  destruct (fold_left_max_spec (map (fun y => JS.orZeroZ (id y)) arr)
              (JS.orZeroZ (id a))) as [Hin _].
  change (In (fold_left Z.max (map (fun y => JS.orZeroZ (id y)) arr)
                (JS.orZeroZ (id a)))
             (map (fun y => JS.orZeroZ (id y)) (a :: arr))) in Hin.
  apply in_map_iff in Hin. destruct Hin as (x & Hx & Hin).
  exists x. split; [exact Hin|]. rewrite <- Hx, orZeroZ_id. reflexivity.
Qed.

(** The identifier given to a pushed element makes the next one its
    successor: the counters [nextMoveId++], [nextSaleId++] and
    [nextBookId++] agree with recomputing [nextId] after each push. *)
Lemma nextId_push {A : Type} (id : A -> Z) (arr : list A) (x : A) :
  id x = nextId id arr -> nextId id (push arr x) = id x + 1.
Proof.
  intros Hx. unfold push.
  assert (Hlt : id x < nextId id (arr ++ [x])).
  { apply nextId_above, in_app_iff. right. now left. }
  destruct (arr ++ [x])%list as [|a rest] eqn:E; [now destruct arr|].
  destruct (nextId_attained id a rest) as (y & Hy & Hmax).
  rewrite <- E in Hy. apply in_app_iff in Hy.
  destruct Hy as [Hy|[<-|[]]]; [|exact Hmax].
  pose proof (nextId_above id arr y Hy). lia.
Qed.

(** ** Deletion of books *)

Lemma setHas_listed (ids : list JS.value) (id : Z) :
  setHas (map JS.Number ids) (JS.ofZ id) = listed id ids.
Proof.
  unfold setHas, listed. induction ids as [|v ids IH]; simpl; [reflexivity|].
  rewrite IH. f_equal. now destruct (JS.Number v).
Qed.

Lemma filter_ext_eq {A} (f g : A -> bool) (l : list A) :
  (forall x, f x = g x) -> filter f l = filter g l.
Proof.
  intros H. induction l as [|a l IH]; simpl; [reflexivity|].
  rewrite H, IH. reflexivity.
Qed.

Lemma length_filter_negb {A} (f : A -> bool) (l : list A) :
  Z.of_nat (List.length l)
  - Z.of_nat (List.length (filter (fun x => negb (f x)) l))
  = Z.of_nat (List.length (filter f l)).
Proof.
  induction l as [|a l IH]; [reflexivity|].
  cbn [filter]. destruct (f a); cbn [negb List.length];
    rewrite ?Nat2Z.inj_succ; lia.
Qed.

(** C10. A deletion request whose [ids] is not an array, or is the empty
    array, is answered with the failure of status 400 and changes nothing;
    a deletion request succeeds exactly when [ids] is a non-empty array. *)
Theorem delete_rejects_empty_list (db : DB) :
  post_api_books_delete db None = (Failure NoBooksToDelete, db) /\
  post_api_books_delete db (Some []) = (Failure NoBooksToDelete, db) /\
  status NoBooksToDelete = 400 /\
  forall ids,
    isSuccess (fst (post_api_books_delete db ids)) = true <->
    exists v rest, ids = Some (v :: rest).
Proof.
  repeat split; try reflexivity.
  - destruct ids as [[|v rest]|]; simpl; try discriminate. eauto.
  - intros (v & rest & ->). reflexivity.
Qed.

(** *** Identifiers given as numbers and as texts *)

(** Reading the digits that [toString] wrote gives their value. *)
Lemma readDigits_of_uint (d : Decimal.uint) (acc : Z) (count : nat) :
  JS.readDigits 10 (NilEmpty.string_of_uint d) acc count
  = (digitsValue d acc, (count + Decimal.nb_digits d)%nat, "").
Proof.
  revert acc count. induction d; intros acc count;
    cbn [NilEmpty.string_of_uint JS.readDigits digitsValue Decimal.nb_digits];
    rewrite ?Nat.add_0_r; try reflexivity.
  all: match goal with
       | |- context [JS.digitValue 10 ?c] =>
           let v := eval vm_compute in (JS.digitValue 10 c) in
           change (JS.digitValue 10 c) with v
       end; cbv iota; rewrite IHd; f_equal; f_equal; lia.
Qed.

Lemma digitsValue_pos (d : Decimal.uint) (p : positive) :
  digitsValue d (Z.pos p) = Z.pos (Pos.of_uint_acc d p).
Proof.
  revert p. induction d; intros p; cbn [digitsValue Pos.of_uint_acc];
    try reflexivity;
    match goal with
    | |- digitsValue _ ?a = Z.pos (Pos.of_uint_acc _ ?q) =>
        replace a with (Z.pos q) by lia
    end; apply IHd.
Qed.

Lemma digitsValue_of_uint (d : Decimal.uint) :
  digitsValue d 0 = Z.of_N (Pos.of_uint d).
Proof.
  induction d; cbn [digitsValue Pos.of_uint]; try reflexivity;
    try (cbn [Z.mul Z.add]; cbn [Z.of_N]; apply digitsValue_pos).
  exact IHd.
Qed.

Lemma digitsValue_to_uint (p : positive) :
  digitsValue (Pos.to_uint p) 0 = Z.pos p.
Proof.
  now rewrite digitsValue_of_uint, DecimalPos.Unsigned.of_to.
Qed.

Lemma trimEnd_id (s : string) :
  (forall c, In c (list_ascii_of_string s) -> JS.isWhiteSpace c = false) ->
  JS.trimEnd s = s.
Proof.
  induction s as [|c r IH]; intros H; [reflexivity|].
  cbn [JS.trimEnd]. rewrite IH by (intros x Hx; apply H; now right).
  destruct r; [|reflexivity]. now rewrite (H c (or_introl eq_refl)).
Qed.

Lemma digits_no_space (d : Decimal.uint) c :
  In c (list_ascii_of_string (NilEmpty.string_of_uint d)) ->
  JS.isWhiteSpace c = false.
Proof.
  induction d; cbn [NilEmpty.string_of_uint list_ascii_of_string In];
    try tauto; intros [<-|H]; auto.
Qed.

Lemma trim_digits (d : Decimal.uint) :
  JS.trim (NilEmpty.string_of_uint d) = NilEmpty.string_of_uint d.
Proof.
  unfold JS.trim.
  assert (E : JS.trimStart (NilEmpty.string_of_uint d)
              = NilEmpty.string_of_uint d) by (destruct d; reflexivity).
  rewrite E. apply trimEnd_id, digits_no_space.
Qed.

Lemma readUnsignedDecimal_digits (d : Decimal.uint) :
  d <> Decimal.Nil ->
  JS.readUnsignedDecimal (NilEmpty.string_of_uint d)
  = Some (JS.Fin (inject_Z (digitsValue d 0 * 10 ^ 0))).
Proof.
  intros Hd. unfold JS.readUnsignedDecimal.
  rewrite readDigits_of_uint. cbn [Nat.add JS.readExponent].
  destruct (Decimal.nb_digits d) eqn:En;
    [destruct d; discriminate En || congruence|].
  reflexivity.
Qed.

(** [Number] of the decimal text of an integer is this integer. *)
Lemma Number_decimal (z : Z) :
  JS.eqb (JS.Number (JS.Str (JS.decimal z))) (JS.ofZ z) = true.
Proof.
  unfold JS.decimal, JS.Number. destruct z as [|p|p]; [reflexivity| |];
    cbn [Z.to_int NilZero.string_of_int];
    assert (Hd := DecimalPos.Unsigned.to_uint_nonnil p);
    replace (NilZero.string_of_uint (Pos.to_uint p))
      with (NilEmpty.string_of_uint (Pos.to_uint p))
      by (destruct (Pos.to_uint p); [congruence|reflexivity..]);
    pose proof (readUnsignedDecimal_digits _ Hd) as Hr;
    rewrite digitsValue_to_uint in Hr;
    pose proof (trim_digits (Pos.to_uint p)) as Ht;
    set (s := NilEmpty.string_of_uint (Pos.to_uint p)) in *.
  - unfold JS.stringToNumber. rewrite Ht.
    assert (E1 : (s =? "")%string = false)
      by (subst s; destruct (Pos.to_uint p); [congruence|reflexivity..]).
    assert (E2 : JS.readNonDecimal s = None)
      by (subst s; destruct (Pos.to_uint p) as [|d|d|d|d|d|d|d|d|d|d];
          try reflexivity; destruct d; reflexivity).
    assert (E3 : JS.readSign s = (false, s))
      by (subst s; destruct (Pos.to_uint p); reflexivity).
    assert (E4 : (s =? "Infinity")%string = false)
      by (subst s; destruct (Pos.to_uint p); reflexivity).
    rewrite E1, E2, E3, E4, Hr. apply Qeq_bool_iff. unfold Qeq. cbn. lia.
  - unfold JS.stringToNumber.
    assert (Ht' : JS.trim (String "-" s) = String "-" s).
    { unfold JS.trim. cbn [JS.trimStart].
      change (JS.isWhiteSpace "-") with false. cbv iota. apply trimEnd_id. intros c [<-|H]; [reflexivity|].
      subst s. eapply digits_no_space; eauto. }
    rewrite Ht'. cbn [String.eqb Ascii.eqb].
    change (JS.readNonDecimal (String "-" s)) with (@None JS.num).
    cbn [JS.readSign].
    assert (E4 : (s =? "Infinity")%string = false)
      by (subst s; destruct (Pos.to_uint p); reflexivity).
    rewrite E4, Hr. apply Qeq_bool_iff. unfold Qeq. cbn. lia.
Qed.

Lemma eqb_ofZ (a b : Z) : JS.eqb (JS.ofZ a) (JS.ofZ b) = (a =? b).
Proof.
  unfold JS.eqb, JS.ofZ. destruct (Z.eqb_spec a b) as [->|Hne].
  - apply Qeq_bool_iff. reflexivity.
  - destruct (Qeq_bool _ _) eqn:E; [|reflexivity].
    apply Qeq_bool_iff in E. unfold Qeq in E. cbn in E. lia.
Qed.

(** [idSet.has(b.id)] for an identifier given as a number or as a text. *)
Lemma Number_idValue (g : givenId) (id : Z) :
  JS.sameValueZero (JS.Number (idValue g)) (JS.ofZ id) = (idOf g =? id).
Proof.
  destruct g as [z|z]; cbn [idValue idOf].
  - cbn [JS.Number]. unfold JS.sameValueZero, JS.ofZ at 1.
    apply eqb_ofZ.
  - pose proof (Number_decimal z) as H.
    destruct (JS.Number (JS.Str (JS.decimal z))) as [|s|q]; try discriminate H.
    unfold JS.sameValueZero, JS.eqb, JS.ofZ in *.
    apply Qeq_bool_iff in H.
    destruct (Z.eqb_spec z id) as [->|Hne].
    + now apply Qeq_bool_iff.
    + destruct (Qeq_bool _ _) eqn:E; [|reflexivity].
      apply Qeq_bool_iff in E. rewrite H in E.
      unfold Qeq in E. cbn in E. lia.
Qed.

Lemma setHas_occurs (given : list givenId) (id : Z) :
  setHas (map JS.Number (map idValue given)) (JS.ofZ id) = occurs id given.
Proof.
  unfold setHas, occurs. induction given as [|g given IH]; [reflexivity|].
  cbn [map existsb]. now rewrite IH, Number_idValue.
Qed.

Lemma occurs_In (id : Z) (given : list givenId) :
  occurs id given = true <-> In id (map idOf given).
Proof.
  unfold occurs. rewrite existsb_exists, in_map_iff.
  split; intros (g & H1 & H2); exists g.
  - apply Z.eqb_eq in H2. tauto.
  - split; [tauto|]. apply Z.eqb_eq. tauto.
Qed.

Lemma books_delete_effect (db : DB) (v : JS.value) (rest : list JS.value) :
  let kept :=
    filter (fun b => negb (setHas (map JS.Number (v :: rest))
                             (JS.ofZ (Book.id b)))) (books db) in
  post_api_books_delete db (Some (v :: rest))
  = (Success (Z.of_nat (List.length (books db))
              - Z.of_nat (List.length kept)),
     mkDB kept (sellers db) (stockMovements db) (sales db)).
Proof. reflexivity. Qed.

(** C8. A deletion request with a non-empty list of identifiers, each
    given as a number or as the text of its decimal expansion, succeeds;
    the books left are the books whose identifier is none of those given,
    in their order; [deletedCount] is the number of books whose identifier
    is one of those given, so 0 when none is, the document being then left
    as it is; an identifier of no book is ignored; sellers, movements and
    sales are left as they are. *)
Theorem delete_removes_listed_books (db : DB) (g : givenId)
  (rest : list givenId) :
  let given := g :: rest in
  let removed := filter (fun b => occurs (Book.id b) given) (books db) in
  exists db',
    post_api_books_delete db (Some (map idValue given))
    = (Success (Z.of_nat (List.length removed)), db') /\
    books db' = filter (fun b => negb (occurs (Book.id b) given)) (books db) /\
    (forall b, In b (books db') <->
               In b (books db) /\ ~ In (Book.id b) (map idOf given)) /\
    (forall b, In b removed <->
               In b (books db) /\ In (Book.id b) (map idOf given)) /\
    ((forall b, In b (books db) -> ~ In (Book.id b) (map idOf given)) ->
     post_api_books_delete db (Some (map idValue given)) = (Success 0, db)) /\
    sellers db' = sellers db /\
    stockMovements db' = stockMovements db /\
    sales db' = sales db.
Proof.
  intros given removed.
  set (kept := filter (fun b => negb (occurs (Book.id b) given)) (books db)).
  assert (Hkept :
    filter (fun b => negb (setHas (map JS.Number (map idValue given))
                             (JS.ofZ (Book.id b))))
           (books db) = kept).
  { apply filter_ext_eq. intros b. now rewrite setHas_occurs. }
  assert (Hres : post_api_books_delete db (Some (map idValue given))
    = (Success (Z.of_nat (List.length removed)),
       mkDB kept (sellers db) (stockMovements db) (sales db))).
  { change (map idValue given) with (idValue g :: map idValue rest).
    rewrite books_delete_effect. cbv zeta.
    change (idValue g :: map idValue rest) with (map idValue given).
    rewrite Hkept. unfold kept, removed. rewrite length_filter_negb.
    reflexivity. }
  exists (mkDB kept (sellers db) (stockMovements db) (sales db)).
  cbn [books sellers stockMovements sales].
  split; [exact Hres|]. split; [reflexivity|]. split; [|split; [|split]].
  - intros b. unfold kept. rewrite filter_In, negb_true_iff.
    rewrite <- occurs_In. destruct (occurs (Book.id b) given);
      intuition congruence.
  - intros b. unfold removed. rewrite filter_In, occurs_In. tauto.
  - intros H. rewrite Hres.
    assert (Hnone : kept = books db /\ removed = []).
    { unfold kept, removed. clear Hres Hkept. clearbody given.
      induction (books db) as [|a l IH]; [auto|].
      cbn [filter].
      assert (Ha : occurs (Book.id a) given = false).
      { destruct (occurs (Book.id a) given) eqn:E; [|reflexivity].
        apply occurs_In in E. now elim (H a (or_introl eq_refl)). }
      rewrite Ha. cbn [negb].
      destruct IH as [-> ->]; auto. intros b Hb. apply H. now right. }
    destruct Hnone as [-> ->]. now destruct db.
  - auto.
Qed.

Lemma delete_removes_listed_books_witness :
  exists db',
    post_api_books_delete Shop.db (Some [JS.Str "2"; JS.Num 9; JS.Num 1])
    = (Success 2, db') /\ books db' = [].
Proof.
  destruct (delete_removes_listed_books Shop.db (AsText 2)
              [AsNumber 9; AsNumber 1]) as (db' & Hr & Hb & _).
  exists db'. split; [exact Hr | exact Hb].
Defined.

(** ** Quick sale: validation before any write *)

Lemma normalizeItems_fails (books : list Book.t) (items : list Item.t) :
  Exists (itemFails books) items ->
  forall i normalizedItems,
    exists e, normalizeItems books items i normalizedItems = inl e.
Proof.
  induction items as [|item later IH]; intros Hex i acc.
  - inversion Hex.
  - cbn [normalizeItems].
    destruct (parseIntOrZero (Item.qty item)) as [qty|] eqn:Hq; [|eauto].
    destruct ((trimmedOrEmpty (Item.barcode item) =? "")%string || (qty <=? 0))
      eqn:Hbad; [eauto|].
    apply orb_false_iff in Hbad. destruct Hbad as [Hcode Hpos].
    apply String.eqb_neq in Hcode. apply Z.leb_gt in Hpos.
    destruct (findByBarcode (trimmedOrEmpty (Item.barcode item)) books)
      as [[ref book]|] eqn:Hfind; [|eauto].
    destruct (JS.orZeroZ (Book.current_qty book) <? qty) eqn:Hstock; [eauto|].
    rewrite orZeroZ_id in Hstock. apply Z.ltb_ge in Hstock.
    inversion Hex as [? ? Hhead|? ? Htail]; subst.
    + exfalso. unfold itemFails in Hhead. rewrite Hq, Hfind in Hhead.
      destruct Hhead as [H|[H|[H|(q & [= <-] & [H|(r & b & [= <- <-] & H)])]]];
        try congruence; lia.
    + apply IH. exact Htail.
Qed.

(** C2, amended. If an item of a quick sale fails the validation that the
    handler performs (trimmed barcode empty or of no book, quantity whose
    text has no leading integer for [parseInt] or whose leading integer is
    not positive, leading integer above the current quantity of the book),
    the request is answered with a failure and the document is the one
    loaded: no quantity is changed, no movement and no sale is appended,
    also for the items before it. *)
Theorem quick_sale_all_or_nothing (now : string) (db : DB)
  (sellerBarcode : JS.value) (items : list Item.t) :
  Exists (itemFails (books db)) items ->
  exists e,
    post_api_sales_quick now db sellerBarcode (Some items) = (Failure e, db).
Proof.
  intros Hex. unfold post_api_sales_quick.
  destruct (trimmedOrEmpty sellerBarcode =? "")%string; [eauto|].
  destruct items as [|item later]; [eauto|].
  destruct (findSeller _ _) as [[k seller]|]; [|eauto].
  destruct (normalizeItems_fails _ _ Hex 0 []) as [e ->]. eauto.
Qed.

Lemma quick_sale_all_or_nothing_witness :
  exists e,
    post_api_sales_quick Shop.noon Shop.db (JS.Str "S1")
      (Some [Item.mk (JS.Str "A") (JS.Num 2); Item.mk (JS.Str "B") (JS.Num 999)])
    = (Failure e, Shop.db).
Proof.
  apply quick_sale_all_or_nothing.
  apply Exists_cons_tl, Exists_cons_hd.
  right; right; right. exists 999. split; [reflexivity|].
  right. exists 1%nat, Shop.bookB. split; [reflexivity|].
  vm_compute. reflexivity.
Defined.

(** The claim C2 fails for quantities that are malformed but start with
    an integer. A quick sale of the quantity 2.5 of the first book and of
    the quantity 3abc of the second passes the validation, [parseInt]
    reading 2 and 3: the request succeeds, two and three copies are sold
    and recorded. *)
Lemma quick_sale_accepts_malformed_quantity :
  let items := [Item.mk (JS.Str "A") (JS.Str "2.5");
                Item.mk (JS.Str "B") (JS.Str "3abc")] in
  Forall (fun item => ~ itemFails (books Shop.db) item) items /\
  exists receipt db',
    post_api_sales_quick Shop.noon Shop.db (JS.Str "S1") (Some items)
    = (Success receipt, db') /\
    map Book.current_qty (books db') = [3; 2] /\
    map Movement.qty (stockMovements db') = [2; 3] /\
    map Sale.qty (sales db') = [2; 3] /\
    totalQty receipt = 5.
Proof.
  split.
  - repeat constructor; unfold itemFails; cbn;
      intros [H|[H|[H|(q & [= <-] & [H|(ref & b & [= <- <-] & H)])]]];
      try discriminate; cbn in H; lia.
  - eexists _, _. repeat split.
Qed.

(** C3, at the input where the code departs from it. Every quantity of
    the shop is 5; a quick sale of 3 and 3 copies of the same book passes
    the validation of each item against the quantity loaded, succeeds, and
    leaves that book with the current quantity -1. *)
Theorem quick_sale_repeated_barcode_oversells :
  let items := [Item.mk (JS.Str "A") (JS.Num 3); Item.mk (JS.Str "A") (JS.Num 3)] in
  Forall (fun b => 0 <= Book.current_qty b) (books Shop.db) /\
  exists db',
    post_api_sales_quick Shop.noon Shop.db (JS.Str "S1") (Some items)
    = (Success (mkQuickReceipt (JS.add (JS.add (JS.ofZ 0)
                                   (JS.mul (JS.ofZ 10) (JS.ofZ 3)))
                                   (JS.mul (JS.ofZ 10) (JS.ofZ 3))) 6 2), db') /\
    map Book.current_qty (books db') = [-1; 5].
Proof.
  split.
  - repeat constructor; discriminate.
  - eexists. split; reflexivity.
Qed.

(** ** Single sale at the boundary of the stock *)

(** The claim C4 fails when nothing is left: the book and the seller
    exist and the quantity asked, 0, is the current quantity of the book,
    but the request is answered with the failure for invalid sale data. *)
Lemma sale_of_all_copies_fails_when_sold_out :
  findByBarcode "A" (books Shop.dbSoldOut) = Some (0%nat, Shop.soldOutA) /\
  findSeller "S1" (sellers Shop.dbSoldOut) = Some (0%nat, Shop.dan) /\
  parseIntOrZero (JS.Num 0) = Some (Book.current_qty Shop.soldOutA) /\
  post_api_stock_sale Shop.noon Shop.dbSoldOut
    (JS.Str "A") (JS.Str "S1") (JS.Num 0)
  = (Failure InvalidSale, Shop.dbSoldOut).
Proof. repeat split. Qed.

Lemma mul_orZero (price : JS.num) (q : Z) :
  JS.isNaN price = false -> 0 < q ->
  JS.eqb (JS.mul (JS.orZero price) (JS.ofZ q)) (JS.mul price (JS.ofZ q)) = true.
Proof.
  intros Hnan Hq. destruct price as [|s|p]; [discriminate| |]; simpl.
  - destruct (Z.eqb_spec q 0); [lia|]. simpl.
    destruct (Z.ltb_spec q 0); [lia|]. now destruct s.
  - destruct (Z.eqb_spec (Qnum p) 0) as [E|E]; simpl.
    + apply Qeq_bool_iff. unfold Qeq. simpl. rewrite E. reflexivity.
    + apply Qeq_bool_iff. reflexivity.
Qed.

(** C4, amended. For a single sale whose book barcode and seller barcode
    are not empty and are those of a book and of a seller, and whose
    quantity is a positive integer: if the quantity is the current quantity
    of the book, the sale succeeds, its total is the stored price
    ([price || 0]) times the quantity and the current quantity of the book
    becomes 0, the other books being untouched; if the quantity is greater
    than the current quantity, the answer is the failure for insufficient
    stock and the document is unchanged. *)
Theorem sale_at_stock_boundary (now : string) (db : DB)
  (bookBarcode sellerBarcode qty : JS.value) (q : Z)
  (ref : nat) (book : Book.t) (i : nat) (seller : Seller.t) :
  trimmedOrEmpty bookBarcode <> "" ->
  trimmedOrEmpty sellerBarcode <> "" ->
  findByBarcode (trimmedOrEmpty bookBarcode) (books db) = Some (ref, book) ->
  findSeller (trimmedOrEmpty sellerBarcode) (sellers db) = Some (i, seller) ->
  parseIntOrZero qty = Some q ->
  0 < q ->
  (q = Book.current_qty book ->
   exists receipt db',
     post_api_stock_sale now db bookBarcode sellerBarcode qty
     = (Success receipt, db') /\
     total receipt = JS.mul (JS.orZero (Book.price book)) (JS.ofZ q) /\
     (JS.isNaN (Book.price book) = false ->
      JS.eqb (total receipt) (JS.mul (Book.price book) (JS.ofZ q)) = true) /\
     soldQty receipt = q /\
     nth_error (books db') ref = Some (Book.set_current_qty 0 book) /\
     (forall j, j <> ref -> nth_error (books db') j = nth_error (books db) j))
  /\
  (Book.current_qty book < q ->
   post_api_stock_sale now db bookBarcode sellerBarcode qty
   = (Failure InsufficientStock, db)).
Proof.
  intros Hb Hs Hbook Hseller Hqty Hpos.
  apply String.eqb_neq in Hb, Hs.
  unfold post_api_stock_sale. rewrite Hqty, Hb, Hs, Hbook, Hseller.
  destruct (Z.leb_spec q 0) as [?|_]; [lia|]. cbn [orb].
  rewrite orZeroZ_id. split.
  - intros ->. rewrite Z.ltb_irrefl, Z.sub_diag.
    destruct (findRef_Some _ _ _ _ Hbook) as (Hnth & _).
    eexists _, _. split; [reflexivity|]. cbn [total soldQty books].
    repeat split.
    + intros Hnan. now apply mul_orZero.
    + now apply nth_error_modifyAt_same.
    + intros j Hj. now apply nth_error_modifyAt_other.
  - intros Hlt. apply Z.ltb_lt in Hlt. now rewrite Hlt.
Qed.

Lemma sale_at_stock_boundary_witness :
  (exists receipt db',
     post_api_stock_sale Shop.noon Shop.db (JS.Str "A") (JS.Str " S1 ")
       (JS.Str "5") = (Success receipt, db') /\
     total receipt = JS.mul (JS.orZero (JS.ofZ 10)) (JS.ofZ 5) /\
     nth_error (books db') 0 = Some (Book.set_current_qty 0 Shop.bookA)) /\
  post_api_stock_sale Shop.noon Shop.db (JS.Str "A") (JS.Str " S1 ")
    (JS.Num 6) = (Failure InsufficientStock, Shop.db).
Proof.
  split.
  - destruct (sale_at_stock_boundary Shop.noon Shop.db (JS.Str "A")
               (JS.Str " S1 ") (JS.Str "5") 5 0%nat Shop.bookA 0%nat Shop.dan)
      as [H _]; try reflexivity; try discriminate.
    destruct H as (receipt & db' & H1 & H2 & _ & _ & H3 & _); [reflexivity|].
    exists receipt, db'. repeat split; assumption.
  - apply (sale_at_stock_boundary Shop.noon Shop.db (JS.Str "A")
             (JS.Str " S1 ") (JS.Num 6) 6 0%nat Shop.bookA 0%nat Shop.dan);
      try reflexivity; discriminate.
Defined.

(** ** Creation and update of a book *)

Section PostBooks.
Variables (draws : list (Z * Z)) (db : DB) (body : BookReq.t).

Lemma titleMissing_dec :
  (negb (JS.truthy (BookReq.title body))
   || (JS.trim (JS.String (BookReq.title body)) =? "")%string) = true
  <-> titleMissing (BookReq.title body).
Proof.
  unfold titleMissing.
  rewrite orb_true_iff, negb_true_iff, String.eqb_eq. reflexivity.
Qed.

Lemma priceRefused_dec :
  (JS.isNaN (numberOrZero (BookReq.price body))
   || JS.ltZero (numberOrZero (BookReq.price body))) = true
  <-> priceRefused (BookReq.price body).
Proof. unfold priceRefused. now rewrite orb_true_iff. Qed.

End PostBooks.

Ltac settle_rejections :=
  repeat split; intros; try reflexivity; try tauto; try congruence;
  try solve [intuition congruence];
  try match goal with
      | H : Some (Failure _, _) = Some (Failure _, _) |- _ =>
          inversion H; subst; split; reflexivity
      end.

(** The claim C5 fails on an initial quantity that is not an integer: the
    body with the title "A" and the initial quantity "2.5" is accepted,
    and the book is created with the initial quantity 2. *)
Lemma create_accepts_fractional_initial_qty :
  exists b db',
    post_api_books [(1700000012345, 7)] empty
      (Shop.bookBody JS.Undefined JS.Undefined (JS.Str "A") (JS.Str "2.5"))
    = Some (Success b, db') /\
    books db' = [b] /\
    Book.initial_qty b = 2 /\ Book.current_qty b = 2.
Proof. eexists _, _. repeat split. Qed.

(** C5, amended. [POST /api/books] without an identifier refuses the body,
    with status 400 and without changing the document, in these cases and
    in no other: the title is missing or blank; else the price converts by
    [Number] to NaN or to a negative number; else the initial quantity has
    no leading integer for [parseInt] or its leading integer is negative (a
    quantity such as "2.5" is taken for its leading integer); else the
    barcode given, trimmed, is not empty and is the barcode of a book. *)
Theorem create_book_rejections (draws : list (Z * Z)) (db : DB)
  (body : BookReq.t) :
  JS.truthy (BookReq.id body) = false ->
  let answer := post_api_books draws db body in
  let noTitle := titleMissing (BookReq.title body) in
  let badPrice := priceRefused (BookReq.price body) in
  let badQty := initialQtyRefused (BookReq.initialQty body) in
  let taken := barcodeTaken (BookReq.barcode body) (books db) in
  (noTitle -> answer = Some (Failure MissingTitle, db)) /\
  (~ noTitle -> badPrice -> answer = Some (Failure InvalidPrice, db)) /\
  (~ noTitle -> ~ badPrice -> badQty ->
   answer = Some (Failure InvalidInitialQty, db)) /\
  (~ noTitle -> ~ badPrice -> ~ badQty -> taken ->
   answer = Some (Failure BarcodeTaken, db)) /\
  (~ noTitle -> ~ badPrice -> ~ badQty -> ~ taken ->
   forall e db', answer <> Some (Failure e, db')) /\
  (forall e db', answer = Some (Failure e, db') -> db' = db /\ status e = 400).
Proof.
  intros Hid answer noTitle badPrice badQty taken.
  subst answer noTitle badPrice badQty taken.
  unfold post_api_books. rewrite Hid.
  destruct (negb (JS.truthy (BookReq.title body))
            || (JS.trim (JS.String (BookReq.title body)) =? "")%string)
    eqn:Ht.
  { apply titleMissing_dec in Ht. settle_rejections. }
  assert (Ht' : ~ titleMissing (BookReq.title body)).
  { intros H. apply titleMissing_dec in H. congruence. }
  destruct (JS.isNaN (numberOrZero (BookReq.price body))
            || JS.ltZero (numberOrZero (BookReq.price body))) eqn:Hp.
  { apply priceRefused_dec in Hp. settle_rejections. }
  assert (Hp' : ~ priceRefused (BookReq.price body)).
  { intros H. apply priceRefused_dec in H. congruence. }
  destruct (parseIntOrZero (BookReq.initialQty body)) as [q|] eqn:Hq.
  2:{ assert (initialQtyRefused (BookReq.initialQty body)) by (left; exact Hq).
      settle_rejections. }
  destruct (Z.ltb_spec q 0) as [Hneg|Hnonneg].
  { assert (initialQtyRefused (BookReq.initialQty body)) by (right; eauto).
    settle_rejections. }
  assert (Hq' : ~ initialQtyRefused (BookReq.initialQty body)).
  { intros [H|(q' & H & Hlt)]; [congruence|].
    rewrite Hq in H. injection H as <-. lia. }
  unfold barcodeTaken.
  destruct (trimmedOrEmpty (BookReq.barcode body) =? "")%string eqn:Hc;
    cbn [negb andb].
  { apply String.eqb_eq in Hc.
    destruct (generateCode draws (books db)); settle_rejections. }
  apply String.eqb_neq in Hc.
  destruct (barcodeExists (trimmedOrEmpty (BookReq.barcode body)) (books db))
    eqn:Hex; settle_rejections.
Qed.

Lemma create_book_rejections_witness :
  post_api_books [] Shop.db
    (Shop.bookBody JS.Undefined (JS.Str " A ") (JS.Str "Gimel") (JS.Str "3"))
  = Some (Failure BarcodeTaken, Shop.db).
Proof.
  apply (create_book_rejections [] Shop.db
           (Shop.bookBody JS.Undefined (JS.Str " A ") (JS.Str "Gimel") (JS.Str "3"))
           eq_refl).
  - intros [H|H]; discriminate H.
  - intros [H|H]; discriminate H.
  - intros [H|(q & H & Hq)]; [discriminate H|]. injection H as <-. lia.
  - split; [discriminate|reflexivity].
Defined.

(** C7. An update ([POST /api/books] with an identifier) always answers,
    and whatever the answer: the identifiers, the initial quantities and
    the current quantities of the books are those loaded; when the barcode
    given is absent or blank, so are the barcodes; no book other than the
    one found by the identifier is changed; the update changes nothing when
    it fails; sellers, movements and sales are those loaded. *)
Theorem update_keeps_quantities (draws : list (Z * Z)) (db : DB)
  (body : BookReq.t) :
  JS.truthy (BookReq.id body) = true ->
  exists res db',
    post_api_books draws db body = Some (res, db') /\
    map Book.id (books db') = map Book.id (books db) /\
    map Book.initial_qty (books db') = map Book.initial_qty (books db) /\
    map Book.current_qty (books db') = map Book.current_qty (books db) /\
    (trimmedOrEmpty (BookReq.barcode body) = "" ->
     map Book.barcode (books db') = map Book.barcode (books db)) /\
    (forall ref existing,
       findById (BookReq.id body) (books db) = Some (ref, existing) ->
       (forall j, j <> ref -> nth_error (books db') j = nth_error (books db) j) /\
       (isSuccess res = true ->
        exists updated,
          res = Success updated /\
          nth_error (books db') ref = Some updated /\
          Book.initial_qty updated = Book.initial_qty existing /\
          Book.current_qty updated = Book.current_qty existing)) /\
    (isSuccess res = false -> db' = db) /\
    (findById (BookReq.id body) (books db) = None -> isSuccess res = false) /\
    sellers db' = sellers db /\
    stockMovements db' = stockMovements db /\
    sales db' = sales db.
Proof.
  intros Hid. unfold post_api_books, findById. rewrite Hid.
  assert (Hsame : forall e : error,
    exists (res : response Book.t) db',
      Some (Failure e, db) = Some (res, db') /\
      map Book.id (books db') = map Book.id (books db) /\
      map Book.initial_qty (books db') = map Book.initial_qty (books db) /\
      map Book.current_qty (books db') = map Book.current_qty (books db) /\
      (trimmedOrEmpty (BookReq.barcode body) = "" ->
       map Book.barcode (books db') = map Book.barcode (books db)) /\
      (forall (ref : nat) (existing : Book.t),
         findRef (fun b => JS.eqb (JS.ofZ (Book.id b))
                             (JS.Number (BookReq.id body))) (books db)
         = Some (ref, existing) ->
         (forall j, j <> ref ->
                    nth_error (books db') j = nth_error (books db) j) /\
         (isSuccess res = true ->
          exists updated,
            res = Success updated /\
            nth_error (books db') ref = Some updated /\
            Book.initial_qty updated = Book.initial_qty existing /\
            Book.current_qty updated = Book.current_qty existing)) /\
      (isSuccess res = false -> db' = db) /\
      (findRef (fun b => JS.eqb (JS.ofZ (Book.id b))
                           (JS.Number (BookReq.id body))) (books db) = None ->
       isSuccess res = false) /\
      sellers db' = sellers db /\
      stockMovements db' = stockMovements db /\
      sales db' = sales db).
  { intros e. exists (Failure e), db. repeat split; auto; discriminate. }
  destruct (negb (JS.truthy (BookReq.title body)) || _); [apply Hsame|].
  destruct (JS.isNaN _ || JS.ltZero _); [apply Hsame|].
  destruct (parseIntOrZero (BookReq.initialQty body)) as [q|]; [|apply Hsame].
  destruct (q <? 0); [apply Hsame|].
  destruct (findRef _ (books db)) as [[ref existing]|] eqn:Hfind;
    [|apply Hsame].
  destruct (negb _ && negb _ && barcodeExists _ _); [apply Hsame|].
  destruct (findRef_Some _ _ _ _ Hfind) as (Hnth & _).
  eexists _, _. split; [reflexivity|]. cbn [books sellers stockMovements sales].
  split; [|split; [|split; [|split; [|split; [|split; [|split]]]]]].
  - apply map_modifyAt. reflexivity.
  - apply map_modifyAt. reflexivity.
  - apply map_modifyAt. reflexivity.
  - intros Hempty. apply map_modifyAt. intros x Hx.
    rewrite Hempty. cbn. congruence.
  - intros ? ? [= <- <-]. split.
    + intros j Hj. now apply nth_error_modifyAt_other.
    + intros _. eexists. split; [reflexivity|].
      split; [now apply nth_error_modifyAt_same|]. split; reflexivity.
  - discriminate.
  - discriminate.
  - auto.
Qed.

Lemma update_keeps_quantities_witness :
  exists updated db',
    post_api_books [] Shop.db
      (Shop.bookBody (JS.Str "2") JS.Undefined (JS.Str "Bet, second edition")
                     (JS.Str "99"))
    = Some (Success updated, db') /\
    map Book.current_qty (books db') = [5; 5] /\
    map Book.initial_qty (books db') = [5; 5] /\
    map Book.barcode (books db') = ["A"; "B"]%string /\
    nth_error (books db') 0 = Some Shop.bookA.
Proof.
  destruct (update_keeps_quantities [] Shop.db
    (Shop.bookBody (JS.Str "2") JS.Undefined (JS.Str "Bet, second edition")
                   (JS.Str "99")) eq_refl)
    as (res & db' & Hpost & _ & Hi & Hc & Hb & Hother & _).
  destruct (Hother 1%nat Shop.bookB eq_refl) as [Hj Hs].
  destruct res as [e|updated]; [discriminate Hpost|].
  exists updated, db'. split; [exact Hpost|].
  split; [exact Hc|]. split; [exact Hi|]. split; [exact (Hb eq_refl)|].
  apply (Hj 0%nat). discriminate.
Defined.

(** ** Import of rows *)

Lemma forEachRow_app clock (rows later : list (option Row.t)) index st :
  forEachRow clock (rows ++ later) index st
  = forEachRow clock later (index + Z.of_nat (List.length rows))
      (forEachRow clock rows index st).
Proof.
  revert index st. induction rows as [|row rows IH]; intros index st.
  - cbn. now rewrite Z.add_0_r.
  - cbn [app forEachRow List.length]. rewrite IH. f_equal. lia.
Qed.

Lemma firstn_succ {A} (l : list A) (k : nat) (x : A) :
  nth_error l k = Some x ->
  firstn (S k) l = (firstn k l ++ [x])%list /\ List.length (firstn k l) = k.
Proof.
  revert k. induction l as [|a l IH]; intros [|k] H; try discriminate H.
  - injection H as ->. split; reflexivity.
  - destruct (IH k H) as [E L]. cbn [firstn List.length app].
    rewrite <- E, L. split; reflexivity.
Qed.

Lemma importAfter_succ clock db rows k row :
  nth_error rows k = Some row ->
  importAfter clock db rows (S k)
  = importRow clock (importAfter clock db rows k) row (Z.of_nat k).
Proof.
  intros H. unfold importAfter. destruct (firstn_succ _ _ _ H) as [-> L].
  rewrite forEachRow_app, L. reflexivity.
Qed.

Lemma importRow_countersAgree clock st row index :
  countersAgree st -> countersAgree (importRow clock st row index).
Proof.
  intros [Hb Hm]. unfold importRow.
  repeat match goal with
  | |- context [if ?c then _ else _] => destruct c
  | |- context [match ?x with _ => _ end] => destruct x
  end; try (split; assumption);
  unfold countersAgree; cbn [ImportState.nextBookId ImportState.nextMoveId
    ImportState.books ImportState.movements];
  split; try assumption;
  symmetry; rewrite nextId_push; cbn; congruence.
Qed.

Lemma forEachRow_countersAgree clock rows index st :
  countersAgree st -> countersAgree (forEachRow clock rows index st).
Proof.
  revert index st. induction rows as [|row rows IH]; intros index st H.
  - exact H.
  - cbn. apply IH. now apply importRow_countersAgree.
Qed.

Lemma importAfter_countersAgree clock db rows n :
  countersAgree (importAfter clock db rows n).
Proof. apply forEachRow_countersAgree. split; reflexivity. Qed.

Lemma title_check (title : JS.value) :
  negb (JS.truthy title) || (JS.trim (JS.String title) =? "")%string
  = (trimmedOrEmpty title =? "")%string.
Proof. unfold trimmedOrEmpty. now destruct (JS.truthy title). Qed.

Lemma trimmedOrEmpty_title (title : JS.value) :
  trimmedOrEmpty title <> "" -> JS.trim (JS.String title) = trimmedOrEmpty title.
Proof. unfold trimmedOrEmpty. destruct (JS.truthy title); congruence. Qed.

(** What a row with a title and a barcode that no book has does to the
    state: it is refused or inserted as [POST /api/books] refuses or
    creates the book of its fields. *)
Lemma importRow_as_create clock st row index draws (sellers : list Seller.t)
  (sales : list Sale.t) :
  countersAgree st ->
  trimmedOrEmpty (Row.title row) <> "" ->
  trimmedOrEmpty (Row.barcode row) <> "" ->
  barcodeExists (trimmedOrEmpty (Row.barcode row)) (ImportState.books st) = false ->
  let st' := importRow clock st (Some row) index in
  match post_api_books draws
          (mkDB (ImportState.books st) sellers (ImportState.movements st) sales)
          (bodyOfRow row) with
  | Some (Failure e, _) =>
      exists re, rowErrorOf e = Some re /\
                 st' = ImportState.pushError st (index + 1) re
  | Some (Success b, db') =>
      ImportState.books st' = books db' /\
      books db' = push (ImportState.books st) b /\
      Book.barcode b = trimmedOrEmpty (Row.barcode row) /\
      ImportState.movements st'
      = (if 0 <? Book.initial_qty b
         then push (ImportState.movements st)
                (Movement.mk (nextId Movement.id (ImportState.movements st))
                   In_ (Book.barcode b) (Book.initial_qty b)
                   NoteInitialImport (clock index))
         else ImportState.movements st) /\
      ImportState.insertedCount st' = ImportState.insertedCount st + 1 /\
      ImportState.skippedExisting st' = ImportState.skippedExisting st /\
      ImportState.errors st' = ImportState.errors st
  | None => False
  end.
Proof.
  intros [Hb Hm] Ht Hc Hex st'. subst st'.
  unfold post_api_books, importRow, bodyOfRow.
  cbn [BookReq.id BookReq.title BookReq.barcode BookReq.author
       BookReq.publisher BookReq.shelf BookReq.price BookReq.initialQty
       JS.truthy books].
  rewrite title_check, (trimmedOrEmpty_title _ Ht).
  apply String.eqb_neq in Ht, Hc. rewrite Ht, Hc, Hex. cbn [negb andb].
  destruct (JS.isNaN _ || JS.ltZero _); [eexists; split; reflexivity|].
  destruct (parseIntOrZero (Row.initialQty row)) as [q|];
    [|eexists; split; reflexivity].
  destruct (q <? 0); [eexists; split; reflexivity|].
  cbn [ImportState.books ImportState.movements ImportState.insertedCount
       ImportState.skippedExisting ImportState.errors books Book.barcode
       Book.initial_qty].
  rewrite Hb, Hm. destruct (0 <? q); repeat split.
Qed.

(** The claim C6 fails on two rows. In the shop, the first row has the
    barcode of a book but no title: it is not skipped, an error is
    recorded for it. The second row has a title and no barcode, so its
    barcode is that of no book: [POST /api/books] creates the book of its
    fields, but the import records an error for it. *)
Lemma import_checks_title_and_barcode_first :
  let titled := Shop.row JS.Undefined (JS.Str "Gimel") (JS.Str "1") in
  fst (post_api_import_books_tsv Shop.clock Shop.db
         (Some [Shop.row (JS.Str "A") (JS.Str "") JS.Undefined; titled]))
  = Success (mkReport 0 0 [(1, RowMissingTitle); (2, RowMissingBarcode)]) /\
  barcodeExists "A" (books Shop.db) = true /\
  exists b db',
    post_api_books [(1700000012345, 7)] Shop.db
      (Shop.bookBody JS.Undefined JS.Undefined (JS.Str "Gimel") (JS.Str "1"))
    = Some (Success b, db').
Proof. repeat split. eexists _, _. reflexivity. Qed.

(** C6, amended. An import always succeeds and handles its rows one after
    the other, each against the books, movements and counters left by the
    rows before it, none stopping the rest. A null row changes nothing. A
    row without title is recorded as an error, and so is a row with a
    title and without barcode, each under its 1-based number. A row with a
    title whose barcode is that of a book (loaded or inserted by an
    earlier row) only adds one to [skippedExisting]. Any other row is
    refused or inserted as [POST /api/books] refuses or creates the book
    of its fields: refused, the error of the same message is recorded
    under the number of the row; inserted, the same book is pushed, one is
    added to [insertedCount], and when its initial quantity is positive
    one ['in'] movement of its barcode and quantity is pushed. *)
Theorem import_handles_rows_one_by_one (clock : Z -> string) (db : DB)
  (rows : list (option Row.t)) :
  let final := importAfter clock db rows (List.length rows) in
  post_api_import_books_tsv clock db (Some rows)
  = (Success (mkReport (ImportState.insertedCount final)
                       (ImportState.skippedExisting final)
                       (ImportState.errors final)),
     mkDB (ImportState.books final) (sellers db)
          (ImportState.movements final) (sales db)) /\
  importAfter clock db rows 0 = importStart db /\
  forall k row, nth_error rows k = Some row ->
    let st := importAfter clock db rows k in
    let st' := importAfter clock db rows (S k) in
    let number := Z.of_nat k + 1 in
    match row with
    | None => st' = st
    | Some r =>
        let title := trimmedOrEmpty (Row.title r) in
        let barcode := trimmedOrEmpty (Row.barcode r) in
        (title = "" -> st' = ImportState.pushError st number RowMissingTitle) /\
        (title <> "" -> barcode = "" ->
         st' = ImportState.pushError st number RowMissingBarcode) /\
        (title <> "" -> barcode <> "" ->
         barcodeExists barcode (ImportState.books st) = true ->
         st' = ImportState.mk (ImportState.books st) (ImportState.movements st)
                 (ImportState.nextBookId st) (ImportState.nextMoveId st)
                 (ImportState.insertedCount st)
                 (ImportState.skippedExisting st + 1) (ImportState.errors st)) /\
        (title <> "" -> barcode <> "" ->
         barcodeExists barcode (ImportState.books st) = false ->
         forall draws,
         match post_api_books draws
                 (mkDB (ImportState.books st) (sellers db)
                       (ImportState.movements st) (sales db))
                 (bodyOfRow r) with
         | Some (Failure e, _) =>
             exists re, rowErrorOf e = Some re /\
                        st' = ImportState.pushError st number re
         | Some (Success b, db') =>
             ImportState.books st' = books db' /\
             books db' = push (ImportState.books st) b /\
             Book.barcode b = barcode /\
             ImportState.movements st'
             = (if 0 <? Book.initial_qty b
                then push (ImportState.movements st)
                       (Movement.mk
                          (nextId Movement.id (ImportState.movements st))
                          In_ (Book.barcode b) (Book.initial_qty b)
                          NoteInitialImport (clock (Z.of_nat k)))
                else ImportState.movements st) /\
             ImportState.insertedCount st'
             = ImportState.insertedCount st + 1 /\
             ImportState.skippedExisting st' = ImportState.skippedExisting st /\
             ImportState.errors st' = ImportState.errors st
         | None => False
         end)
    end.
Proof.
  intros final. split; [|split].
  - unfold post_api_import_books_tsv, final, importAfter.
    now rewrite firstn_all.
  - reflexivity.
  - intros k row Hk st st' number.
    assert (Hstep : st' = importRow clock st row (Z.of_nat k))
      by now apply importAfter_succ.
    destruct row as [r|]; [|exact Hstep].
    intros title barcode. subst title barcode number.
    split; [|split; [|split]].
    + intros Ht. apply String.eqb_eq in Ht.
      rewrite Hstep. unfold importRow. now rewrite Ht.
    + intros Ht Hc. apply String.eqb_neq in Ht. apply String.eqb_eq in Hc.
      rewrite Hstep. unfold importRow. now rewrite Ht, Hc.
    + intros Ht Hc Hex. apply String.eqb_neq in Ht, Hc.
      rewrite Hstep. unfold importRow. now rewrite Ht, Hc, Hex.
    + intros Ht Hc Hex draws. rewrite Hstep.
      apply importRow_as_create; auto.
      apply importAfter_countersAgree.
Qed.

Lemma import_handles_rows_one_by_one_witness :
  let rows := [Shop.row (JS.Str "C") (JS.Str "Gimel") (JS.Str "4");
               Shop.row (JS.Str " C ") (JS.Str "Gimel again") (JS.Str "1")] in
  importAfter Shop.clock Shop.db rows 2
  = ImportState.mk
      (push (books Shop.db)
         (Book.mk 3 "C" "Gimel" "" "" "" (JS.ofZ 0) 4 4))
      [Movement.mk 1 In_ "C" 4 NoteInitialImport Shop.noon]
      4 2 1 (0 + 1) [].
Proof.
  intros rows.
  destruct (import_handles_rows_one_by_one Shop.clock Shop.db rows)
    as (_ & _ & H).
  specialize (H 1%nat _ eq_refl). cbv zeta in H.
  destruct H as (_ & _ & H & _).
  rewrite H; [reflexivity| discriminate | discriminate | reflexivity].
Defined.

(** ** The ledger equation along the requests *)

Lemma sum_app (l l' : list Z) :
  fold_right Z.add 0 (l ++ l')
  = fold_right Z.add 0 l + fold_right Z.add 0 l'.
Proof. induction l as [|a l IH]; cbn; lia. Qed.

Lemma sumQty_app d code (ms ms' : list Movement.t) :
  sumQty d code (ms ++ ms') = sumQty d code ms + sumQty d code ms'.
Proof. unfold sumQty. now rewrite filter_app, map_app, sum_app. Qed.

Lemma sumQty_unreferenced d code (ms : list Movement.t) :
  ~ referenced code ms -> sumQty d code ms = 0.
Proof.
  unfold referenced, sumQty. induction ms as [|m ms IH]; intros H.
  - reflexivity.
  - cbn [filter].
    destruct (String.eqb_spec (Movement.bookBarcode m) code) as [E|E].
    + exfalso. apply H. exists m. split; [now left|exact E].
    + rewrite andb_false_r. apply IH.
      intros (m' & Hin & E'). apply H. exists m'. split; [now right|exact E'].
Qed.

Lemma net_push code (ms : list Movement.t) (m : Movement.t) :
  sumQty In_ code (push ms m) - sumQty Out_ code (push ms m)
  = sumQty In_ code ms - sumQty Out_ code ms
    + (if (Movement.bookBarcode m =? code)%string then signedQty m else 0).
Proof.
  unfold push. rewrite !sumQty_app. unfold sumQty at 2 4, signedQty.
  cbn [filter].
  destruct (Movement.bookBarcode m =? code)%string, (Movement.type m);
    cbn; lia.
Qed.

Lemma ledgerEquation_push_other ms m b :
  Movement.bookBarcode m <> Book.barcode b ->
  ledgerEquation ms b -> ledgerEquation (push ms m) b.
Proof.
  unfold ledgerEquation. intros Hne H. apply String.eqb_neq in Hne.
  pose proof (net_push (Book.barcode b) ms m) as N. rewrite Hne in N. lia.
Qed.

Lemma findByBarcode_Some barcode bks ref book :
  findByBarcode barcode bks = Some (ref, book) ->
  nth_error bks ref = Some book /\ Book.barcode book = barcode.
Proof.
  intros H. destruct (findRef_Some _ _ _ _ H) as (Hn & Hp & _).
  split; [exact Hn|]. now apply String.eqb_eq.
Qed.

Lemma barcodeExists_false barcode bks :
  barcodeExists barcode bks = false <-> ~ In barcode (map Book.barcode bks).
Proof.
  unfold barcodeExists. induction bks as [|b bks IH]; cbn; [tauto|].
  rewrite orb_false_iff, IH, String.eqb_neq. tauto.
Qed.

Lemma normalizeItems_validRef bks items i acc normalizedItems :
  normalizeItems bks items i acc = inr normalizedItems ->
  Forall (validRef (map Book.barcode bks)) acc ->
  Forall (validRef (map Book.barcode bks)) normalizedItems.
Proof.
  revert i acc. induction items as [|item later IH]; intros i acc.
  - cbn. intros [= <-]. auto.
  - cbn [normalizeItems].
    destruct (parseIntOrZero _) as [q|]; [|discriminate].
    destruct (_ || _); [discriminate|].
    destruct (findByBarcode _ _) as [[ref book]|] eqn:Hf; [|discriminate].
    destruct (_ <? _); [discriminate|].
    intros H Hacc. apply (IH _ _ H). unfold push.
    apply Forall_app. split; [exact Hacc|]. constructor; [|constructor].
    apply findByBarcode_Some in Hf. destruct Hf as [Hn Hb].
    unfold validRef. cbn. rewrite nth_error_map, Hn. cbn. now rewrite Hb.
Qed.

(** Filtering the books keeps their barcodes unique. *)
Lemma filter_keeps_barcodes_unique (keep : Book.t -> bool)
  (bks : list Book.t) :
  NoDup (map Book.barcode bks) ->
  NoDup (map Book.barcode (filter keep bks)).
Proof.
  intros Hu. induction bks as [|b bks IH]; [constructor|].
  cbn [map] in Hu. apply NoDup_cons_iff in Hu. destruct Hu as [Hb Hu].
  cbn [filter]. destruct (keep b); [|now apply IH].
  cbn [map]. constructor; [|now apply IH].
  intros Hin. apply Hb. apply in_map_iff in Hin.
  destruct Hin as (x & Hx & Hin). apply filter_In in Hin.
  apply in_map_iff. exists x. tauto.
Qed.

Lemma NoDup_snoc {A} (l : list A) (x : A) :
  NoDup l -> ~ In x l -> NoDup (l ++ [x]).
Proof.
  intros Hl Hx. apply NoDup_app; auto.
  - constructor; [intros []|constructor].
  - intros a Ha [<-|[]]. contradiction.
Qed.

Lemma generateCode_fresh draws bks code :
  generateCode draws bks = Some code -> barcodeExists code bks = false.
Proof.
  induction draws as [|[now random] later IH]; [discriminate|].
  cbn [generateCode].
  destruct (barcodeExists (newCode now random) bks) eqn:E; [exact IH|].
  now intros [= <-].
Qed.

Lemma importRow_adds clock books0 movements0 st row index :
  importAdds books0 movements0 st ->
  importAdds books0 movements0 (importRow clock st row index).
Proof.
  intros Hadds. unfold importRow.
  destruct row as [row|]; [|exact Hadds].
  destruct (_ =? "")%string; [exact Hadds|].
  destruct (_ =? "")%string; [exact Hadds|].
  destruct (barcodeExists _ _) eqn:Hfresh; [exact Hadds|].
  destruct (JS.isNaN _ || JS.ltZero _); [exact Hadds|].
  destruct (parseIntOrZero _) as [q|]; [|exact Hadds].
  destruct (q <? 0); [exact Hadds|].
  destruct Hadds as (news & newMovements & Hb & Hm & Hu & Hq & Href).
  set (newBook := Book.mk _ _ _ _ _ _ _ _ _).
  exists (news ++ [newBook])%list.
  exists (if 0 <? q
          then (newMovements ++
               [Movement.mk (ImportState.nextMoveId st) In_
                  (Book.barcode newBook) q NoteInitialImport (clock index)])%list
          else newMovements).
  cbn [ImportState.books ImportState.movements]. unfold push.
  assert (Hweak : Forall (fun m => In (Movement.bookBarcode m)
                                      (map Book.barcode (news ++ [newBook])))
                         newMovements).
  { eapply Forall_impl; [|exact Href]. cbn beta. intros m Hin.
    rewrite map_app. apply in_or_app. now left. }
  split; [rewrite Hb; now rewrite app_assoc|].
  split; [rewrite Hm; destruct (0 <? q); [now rewrite app_assoc|reflexivity]|].
  split; [|split].
  - rewrite map_app. apply NoDup_snoc; [exact Hu|].
    now apply barcodeExists_false.
  - apply Forall_app. split; [exact Hq|]. repeat constructor.
  - destruct (0 <? q); [|exact Hweak].
    apply Forall_app. split; [exact Hweak|]. constructor; [|constructor].
    cbn. rewrite map_app. apply in_or_app. right. now left.
Qed.

Lemma forEachRow_adds clock books0 movements0 rows index st :
  importAdds books0 movements0 st ->
  importAdds books0 movements0 (forEachRow clock rows index st).
Proof.
  revert index st. induction rows as [|row rows IH]; intros index st H.
  - exact H.
  - cbn. apply IH. now apply importRow_adds.
Qed.

Lemma accounted_same recorded db db' :
  books db' = books db -> stockMovements db' = stockMovements db ->
  accounted recorded db db'.
Proof.
  intros Hb Hm. exists (books db), []. rewrite app_nil_r.
  repeat split; auto. intros i b Hn _ Hl. exists b. rewrite Hm. auto.
Qed.

Lemma length_modifyAt {A} ref (f : A -> A) (arr : list A) :
  List.length (modifyAt ref f arr) = List.length arr.
Proof.
  revert ref. induction arr as [|a arr IH]; intros [|r]; cbn; auto.
Qed.

Lemma move_keeps_books ms m (bks : list Book.t) ref book
  (f : Book.t -> Book.t) :
  nth_error bks ref = Some book ->
  Movement.bookBarcode m = Book.barcode book ->
  Book.barcode (f book) = Book.barcode book ->
  Book.initial_qty (f book) = Book.initial_qty book ->
  Book.current_qty (f book) = Book.current_qty book + signedQty m ->
  forall i b,
    nth_error bks i = Some b -> aloneAt bks i b -> ledgerEquation ms b ->
    exists b',
      nth_error (modifyAt ref f bks) i = Some b' /\
      Book.initial_qty b' = Book.initial_qty b /\
      Book.barcode b' = Book.barcode b /\
      ledgerEquation (push ms m) b'.
Proof.
  intros Hnth Hm Hb Hi Hc i b Hn Halone Hl.
  destruct (Nat.eq_dec i ref) as [->|Hne].
  - assert (b = book) by congruence. subst b. exists (f book).
    rewrite (nth_error_modifyAt_same _ _ _ _ Hnth).
    repeat split; auto. unfold ledgerEquation in *.
    pose proof (net_push (Book.barcode book) ms m) as N.
    rewrite Hm, String.eqb_refl in N. rewrite Hb, Hi, Hc. lia.
  - exists b. rewrite nth_error_modifyAt_other by exact Hne.
    repeat split; auto. apply ledgerEquation_push_other; [|exact Hl].
    rewrite Hm. intros E. apply Hne. symmetry. apply Halone.
    rewrite nth_error_map, Hnth. cbn. now rewrite E.
Qed.

Lemma move_accounted recorded db db' ref book (f : Book.t -> Book.t) m :
  books db' = modifyAt ref f (books db) ->
  stockMovements db' = push (stockMovements db) m ->
  nth_error (books db) ref = Some book ->
  Movement.bookBarcode m = Book.barcode book ->
  Book.barcode (f book) = Book.barcode book ->
  Book.initial_qty (f book) = Book.initial_qty book ->
  Book.current_qty (f book) = Book.current_qty book + signedQty m ->
  accounted recorded db db'.
Proof.
  intros Hbooks Hms Hnth Hm Hb Hi Hc.
  exists (modifyAt ref f (books db)), []. rewrite app_nil_r.
  split; [exact Hbooks|]. split; [apply length_modifyAt|].
  split; [constructor|]. intros i b Hn Halone Hl.
  destruct (move_keeps_books (stockMovements db) m (books db) ref book f
              Hnth Hm Hb Hi Hc i b Hn Halone Hl) as (b' & H1 & H2 & _ & H4).
  exists b'. rewrite Hms. auto.
Qed.

Lemma stock_in_accounted recorded now db barcode qty note :
  accounted recorded db (snd (post_api_stock_in now db barcode qty note)).
Proof.
  unfold post_api_stock_in.
  destruct (parseIntOrZero qty) as [q|]; [|now apply accounted_same].
  destruct (_ || _); [now apply accounted_same|].
  destruct (findByBarcode _ _) as [[ref book]|] eqn:Hf;
    [|now apply accounted_same].
  apply findByBarcode_Some in Hf. destruct Hf as [Hn Hb]. cbn [snd].
  eapply move_accounted with (book := book); cbn [books stockMovements];
    try reflexivity; auto; cbn; rewrite ?orZeroZ_id; auto.
Qed.

Lemma stock_sale_accounted recorded now db bookBarcode sellerBarcode qty :
  accounted recorded db
    (snd (post_api_stock_sale now db bookBarcode sellerBarcode qty)).
Proof.
  unfold post_api_stock_sale.
  destruct (parseIntOrZero qty) as [q|]; [|now apply accounted_same].
  destruct (_ || _); [now apply accounted_same|].
  destruct (findByBarcode _ _) as [[ref book]|] eqn:Hf;
    [|now apply accounted_same].
  destruct (findSeller _ _) as [[k seller]|]; [|now apply accounted_same].
  destruct (_ <? _); [now apply accounted_same|].
  apply findByBarcode_Some in Hf. destruct Hf as [Hn Hb]. cbn [snd].
  eapply move_accounted with (book := book); cbn [books stockMovements];
    try reflexivity; auto; cbn; rewrite ?orZeroZ_id; auto.
Qed.

Lemma aloneAt_same_barcodes (bks bks' : list Book.t) i (b b' : Book.t) :
  map Book.barcode bks' = map Book.barcode bks ->
  Book.barcode b' = Book.barcode b ->
  aloneAt bks i b -> aloneAt bks' i b'.
Proof. unfold aloneAt. intros -> ->. auto. Qed.

Lemma applyItem_tracked sellerName sellerCode now bks ms st item :
  tracked bks ms st ->
  validRef (map Book.barcode bks) item ->
  tracked bks ms (applyItem sellerName sellerCode now st item).
Proof.
  intros [Hcodes Hkeep] Hv. unfold validRef in Hv.
  rewrite <- Hcodes, nth_error_map in Hv. unfold applyItem.
  destruct (nth_error (Quick.books st) (Normalized.book item)) as [book|]
    eqn:Hn; [|discriminate Hv].
  injection Hv as Hb. cbn [Quick.books Quick.movements]. split.
  - rewrite <- Hcodes. apply map_modifyAt. intros x Hx. reflexivity.
  - intros i b Hi Halone Hl.
    destruct (Hkeep i b Hi Halone Hl) as (b1 & H1 & H2 & H3 & H4).
    edestruct (move_keeps_books (Quick.movements st)) as (b' & K1 & K2 & K3 & K4);
      [exact Hn | | | | | exact H1 | | exact H4 | ].
    5: { eapply aloneAt_same_barcodes; [exact Hcodes | exact H3 | exact Halone]. }
    5: { exists b'. split; [exact K1|]. repeat split; [congruence|congruence|exact K4]. }
    all: cbn; rewrite ?orZeroZ_id; auto.
Qed.

Lemma forEach_applyItem_tracked sellerName sellerCode now bks ms items st :
  tracked bks ms st ->
  Forall (validRef (map Book.barcode bks)) items ->
  tracked bks ms (fold_left (applyItem sellerName sellerCode now) items st).
Proof.
  revert st. induction items as [|item later IH]; intros st Ht Hv; [exact Ht|].
  inversion Hv as [|? ? Hitem Hlater]; subst. cbn [fold_left].
  apply IH; [|exact Hlater]. now apply applyItem_tracked.
Qed.

Lemma sales_quick_accounted recorded now db sellerBarcode items :
  accounted recorded db
    (snd (post_api_sales_quick now db sellerBarcode items)).
Proof.
  unfold post_api_sales_quick.
  destruct (_ =? _)%string; [now apply accounted_same|].
  destruct items as [[|item later]|];
    [now apply accounted_same| |now apply accounted_same].
  destruct (findSeller _ _) as [[k seller]|]; [|now apply accounted_same].
  destruct (normalizeItems _ _ _ _) as [e|normalizedItems] eqn:Hnorm;
    [now apply accounted_same|].
  apply normalizeItems_validRef in Hnorm; [|constructor].
  cbn [snd].
  match goal with
  | |- context [fold_left ?f ?l ?st0] =>
      destruct (forEach_applyItem_tracked (Seller.name seller)
                  (trimmedOrEmpty sellerBarcode) now (books db)
                  (stockMovements db) l st0) as [E F]
  end; [|exact Hnorm|].
  { split; [reflexivity|]. intros i b Hi _ Hl. exists b. auto. }
  eexists _, []. rewrite app_nil_r. cbn [books stockMovements].
  split; [reflexivity|]. split.
  - rewrite <- (length_map Book.barcode), E. apply length_map.
  - split; [constructor|]. intros i b Hi Halone Hl.
    destruct (F i b Hi Halone Hl) as (b' & H1 & H2 & H3 & H4). eauto.
Qed.

Lemma books_delete_accounted db ids b :
  let db' := snd (post_api_books_delete db ids) in
  In b (books db') ->
  In b (books db) /\
  (ledgerEquation (stockMovements db) b ->
   ledgerEquation (stockMovements db') b).
Proof.
  unfold post_api_books_delete.
  destruct ids as [[|v rest]|]; cbn [snd]; auto.
  cbn [books stockMovements]. intros H. apply filter_In in H. tauto.
Qed.

Lemma sellers_accounted recorded now db name barcode :
  accounted recorded db (snd (post_api_sellers now db name barcode)).
Proof.
  unfold post_api_sellers.
  repeat match goal with
  | |- context [if ?c then _ else _] => destruct c
  end; now apply accounted_same.
Qed.

Lemma books_post_accounted draws db body res db' :
  post_api_books draws db body = Some (res, db') ->
  accounted (fun _ => 0) db db'.
Proof.
  unfold post_api_books.
  destruct (negb _ || _); [intros [= _ <-]; now apply accounted_same|].
  destruct (JS.isNaN _ || JS.ltZero _);
    [intros [= _ <-]; now apply accounted_same|].
  destruct (parseIntOrZero _) as [q|];
    [|intros [= _ <-]; now apply accounted_same].
  destruct (q <? 0); [intros [= _ <-]; now apply accounted_same|].
  destruct (JS.truthy (BookReq.id body)).
  - destruct (findRef _ _) as [[ref existing]|] eqn:Hf;
      [|intros [= _ <-]; now apply accounted_same].
    destruct (_ && _); [intros [= _ <-]; now apply accounted_same|].
    intros [= _ <-]. eexists _, []. rewrite app_nil_r.
    cbn [books stockMovements]. split; [reflexivity|].
    split; [apply length_modifyAt|]. split; [constructor|].
    intros i b Hi _ Hl. destruct (Nat.eq_dec i ref) as [->|Hne].
    + apply findRef_Some in Hf. destruct Hf as (Hn & _).
      assert (b = existing) by congruence. subst b.
      eexists. rewrite (nth_error_modifyAt_same _ _ _ _ Hn).
      split; [reflexivity|]. split; [reflexivity|].
      unfold ledgerEquation in *. cbn. intros ->. exact Hl.
    + exists b. rewrite nth_error_modifyAt_other by exact Hne. auto.
  - destruct (negb _ && _) eqn:Htaken;
      [intros [= _ <-]; now apply accounted_same|].
    match goal with
    | |- context [match ?c with Some _ => _ | None => _ end] =>
        destruct c as [code|] eqn:Hcode
    end; [|discriminate].
    intros [= _ <-].
    assert (Hfresh : barcodeExists code (books db) = false).
    { destruct (_ =? "")%string eqn:Hempty.
      - now apply generateCode_fresh in Hcode.
      - injection Hcode as <-. cbn [negb andb] in Htaken. exact Htaken. }
    eexists (books db), [_]. cbn [books stockMovements].
    split; [reflexivity|]. split; [reflexivity|]. split.
    + constructor; [|constructor]. unfold insertedBook.
      cbn [books stockMovements Book.barcode Book.current_qty
           Book.initial_qty].
      split; [now apply barcodeExists_false|].
      split; [reflexivity|]. split; [lia|reflexivity].
    + intros i b Hi _ Hl. exists b. auto.
Qed.

Lemma importRow_appends clock books0 movements0 st row index :
  importAppends books0 movements0 st ->
  importAppends books0 movements0 (importRow clock st row index).
Proof.
  intros Happ. unfold importRow.
  destruct row as [row|]; [|exact Happ].
  destruct (_ =? "")%string; [exact Happ|].
  destruct (_ =? "")%string; [exact Happ|].
  destruct (barcodeExists _ _) eqn:Hfresh; [exact Happ|].
  destruct (JS.isNaN _ || JS.ltZero _); [exact Happ|].
  destruct (parseIntOrZero _) as [q|]; [|exact Happ].
  destruct (Z.ltb_spec q 0) as [Hneg|Hq]; [exact Happ|].
  destruct Happ as (news & newMovements & Hb & Hm & Hu & Hnews & Hstock & Hin).
  set (newBook := Book.mk _ _ _ _ _ _ _ _ _).
  exists (news ++ [newBook])%list.
  exists (if 0 <? q
          then (newMovements ++
               [Movement.mk (ImportState.nextMoveId st) In_
                  (Book.barcode newBook) q NoteInitialImport (clock index)])%list
          else newMovements).
  cbn [ImportState.books ImportState.movements]. unfold push.
  apply barcodeExists_false in Hfresh. rewrite Hb, map_app in Hfresh.
  split; [rewrite Hb; now rewrite app_assoc|].
  split; [rewrite Hm; destruct (0 <? q); [now rewrite app_assoc|reflexivity]|].
  split; [|split; [|split]].
  - rewrite map_app. apply NoDup_snoc; [exact Hu|].
    intros H. apply Hfresh, in_or_app. now right.
  - apply Forall_app. split; [exact Hnews|]. constructor; [|constructor].
    split; [|split; [reflexivity|exact Hq]].
    intros H. apply Hfresh, in_or_app. now left.
  - unfold initialStock in *. rewrite filter_app, map_app, <- Hstock.
    cbn [filter Book.initial_qty newBook].
    destruct (0 <? q); [|now rewrite app_nil_r].
    now rewrite map_app.
  - destruct (0 <? q); [|exact Hin].
    apply Forall_app. split; [exact Hin|]. now repeat constructor.
Qed.

Lemma forEachRow_appends clock books0 movements0 rows index st :
  importAppends books0 movements0 st ->
  importAppends books0 movements0 (forEachRow clock rows index st).
Proof.
  revert index st. induction rows as [|row rows IH]; intros index st H.
  - exact H.
  - cbn. apply IH. now apply importRow_appends.
Qed.

Lemma sumQty_cons d code (m : Movement.t) (ms : list Movement.t) :
  sumQty d code (m :: ms)
  = (if sameDirection (Movement.type m) d
        && (Movement.bookBarcode m =? code)%string
     then Movement.qty m else 0)
    + sumQty d code ms.
Proof.
  unfold sumQty. cbn [filter].
  destruct (sameDirection (Movement.type m) d
            && (Movement.bookBarcode m =? code)%string); reflexivity.
Qed.

Lemma sumQty_other_direction code (ms : list Movement.t) :
  Forall (fun m => Movement.type m = In_) ms -> sumQty Out_ code ms = 0.
Proof.
  induction 1 as [|m ms Hm _ IH]; [reflexivity|].
  rewrite sumQty_cons, IH, Hm. reflexivity.
Qed.

(** The movements of an import reference the books that it inserted. *)
Lemma initialStock_unreferenced d code (news : list Book.t)
  (ms : list Movement.t) :
  map (fun m => (Movement.bookBarcode m, Movement.qty m)) ms
  = initialStock news ->
  ~ In code (map Book.barcode news) ->
  sumQty d code ms = 0.
Proof.
  intros Hstock Hcode. apply sumQty_unreferenced.
  intros (m & Hin & E). apply Hcode.
  apply (in_map (fun m => (Movement.bookBarcode m, Movement.qty m))) in Hin.
  rewrite Hstock in Hin. unfold initialStock in Hin.
  apply in_map_iff in Hin. destruct Hin as (b & [= Hb _] & Hin).
  apply filter_In in Hin. apply in_map_iff. exists b.
  split; [congruence|tauto].
Qed.

(** The quantity that an import records as come in for a book that it
    inserted is the initial quantity of the book. *)
Lemma sumQty_initialStock (news : list Book.t) (ms : list Movement.t)
  (b : Book.t) :
  NoDup (map Book.barcode news) ->
  Forall (fun b => 0 <= Book.initial_qty b) news ->
  map (fun m => (Movement.bookBarcode m, Movement.qty m)) ms
  = initialStock news ->
  Forall (fun m => Movement.type m = In_) ms ->
  In b news ->
  sumQty In_ (Book.barcode b) ms = Book.initial_qty b.
Proof.
  revert ms. induction news as [|a news IH]; intros ms Hu Hq Hstock Hin Hb;
    [contradiction|].
  cbn [map] in Hu. apply NoDup_cons_iff in Hu. destruct Hu as [Ha Hu].
  inversion Hq as [|? ? Hqa Hq']; subst.
  unfold initialStock in Hstock. cbn [filter] in Hstock.
  fold (initialStock news) in Hstock.
  destruct (Z.ltb_spec 0 (Book.initial_qty a)) as [Hpos|Hzero].
  - destruct ms as [|m ms]; [discriminate Hstock|].
    cbn [map] in Hstock. injection Hstock as Hcode Hqty Hstock.
    inversion Hin as [|? ? Hm Hin']; subst.
    rewrite sumQty_cons, Hm, Hcode, Hqty. cbn [sameDirection andb].
    destruct Hb as [<-|Hb].
    + rewrite String.eqb_refl.
      rewrite (initialStock_unreferenced _ _ news ms Hstock Ha). lia.
    + assert (Hne : (Book.barcode a =? Book.barcode b)%string = false).
      { apply String.eqb_neq. intros E. apply Ha. rewrite E.
        now apply in_map. }
      rewrite Hne. now rewrite (IH ms).
  - destruct Hb as [<-|Hb].
    + rewrite (initialStock_unreferenced _ _ news ms Hstock Ha). lia.
    + now apply IH.
Qed.

Lemma import_accounted clock db rows :
  accounted Book.initial_qty db
    (snd (post_api_import_books_tsv clock db rows)).
Proof.
  unfold post_api_import_books_tsv.
  destruct rows as [rows|]; [|now apply accounted_same].
  cbn [snd].
  destruct (forEachRow_appends clock (books db) (stockMovements db) rows 0
              (ImportState.mk (books db) (stockMovements db)
                 (nextId Book.id (books db))
                 (nextId Movement.id (stockMovements db)) 0 0 []))
    as (news & newMovements & Hb & Hm & Hu & Hnews & Hstock & Hin).
  { exists [], []. cbn. rewrite !app_nil_r. repeat split; auto; constructor. }
  exists (books db), news. cbn [books stockMovements].
  split; [exact Hb|]. split; [reflexivity|]. rewrite Hm. split.
  - rewrite Forall_forall in *. intros b' Hb'.
    destruct (Hnews b' Hb') as (Hfresh & Hcur & Hq).
    unfold insertedBook. cbn [books stockMovements].
    split; [exact Hfresh|]. split; [exact Hcur|]. rewrite !sumQty_app.
    rewrite (sumQty_initialStock news newMovements b'); auto.
    + rewrite (sumQty_other_direction _ newMovements); [lia|].
      now apply Forall_forall.
    + apply Forall_forall. intros x Hx. now apply Hnews.
    + now apply Forall_forall.
  - intros i b Hi _ Hl. exists b. split; [exact Hi|]. split; [reflexivity|].
    intros _. unfold ledgerEquation in *. rewrite !sumQty_app.
    assert (Hold : ~ In (Book.barcode b) (map Book.barcode news)).
    { intros H. apply in_map_iff in H. destruct H as (b2 & E2 & Hin2).
      rewrite Forall_forall in Hnews. destruct (Hnews b2 Hin2) as [Hnew _].
      apply Hnew. rewrite E2. apply in_map. eapply nth_error_In. exact Hi. }
    rewrite !(initialStock_unreferenced _ _ news newMovements Hstock Hold).
    lia.
Qed.

Lemma handle_accounted db r ok db' :
  handle db r = Some (ok, db') ->
  (forall ids, r <> PostBooksDelete ids) ->
  accounted (recordedIn r) db db'.
Proof.
  destruct r; cbn [handle]; intros E Hr.
  - destruct (post_api_books draws db body) as [[res db1]|] eqn:E1;
      [|discriminate]. injection E as _ <-.
    exact (books_post_accounted _ _ _ _ _ E1).
  - now elim (Hr ids).
  - pose proof (sellers_accounted (fun _ => 0) now db name barcode) as H.
    destruct (post_api_sellers now db name barcode).
    injection E as _ <-. exact H.
  - pose proof (stock_in_accounted (fun _ => 0) now db barcode qty note) as H.
    destruct (post_api_stock_in now db barcode qty note).
    injection E as _ <-. exact H.
  - pose proof (stock_sale_accounted (fun _ => 0) now db bookBarcode
                  sellerBarcode qty) as H.
    destruct (post_api_stock_sale now db bookBarcode sellerBarcode qty).
    injection E as _ <-. exact H.
  - pose proof (sales_quick_accounted (fun _ => 0) now db sellerBarcode items)
      as H.
    destruct (post_api_sales_quick now db sellerBarcode items).
    injection E as _ <-. exact H.
  - pose proof (import_accounted clock db rows) as H.
    destruct (post_api_import_books_tsv clock db rows).
    injection E as _ <-. exact H.
Qed.

(** The claim C1 fails after an import. In the shop every book satisfies
    the equation; the import of one row with the initial quantity 4
    inserts a book whose current and initial quantities are 4 and pushes
    an ['in'] movement of 4 for it, so that the equation would ask for the
    current quantity 8. *)
Lemma import_breaks_ledger_equation :
  let rows := [Shop.row (JS.Str "C") (JS.Str "Gimel") (JS.Str "4")] in
  uniqueBarcodes Shop.db /\ ledgerHolds Shop.db /\
  exists report db' b,
    post_api_import_books_tsv Shop.clock Shop.db (Some rows)
    = (Success report, db') /\
    nth_error (books db') 2 = Some b /\
    Book.current_qty b = 4 /\
    Book.initial_qty b + sumQty In_ (Book.barcode b) (stockMovements db')
      - sumQty Out_ (Book.barcode b) (stockMovements db') = 8 /\
    ~ ledgerHolds db'.
Proof.
  split; [|split].
  - repeat constructor; cbn; intuition discriminate.
  - repeat constructor.
  - eexists _, _, _. split; [reflexivity|]. split; [reflexivity|].
    split; [reflexivity|]. split; [reflexivity|].
    intros H. unfold ledgerHolds in H. rewrite Forall_forall in H.
    specialize (H (Book.mk 3 "C" "Gimel" "" "" "" (JS.ofZ 0) 4 4)).
    assert (E : 4 = 8); [|discriminate E].
    apply H. right. right. left. reflexivity.
Qed.

(** What the amended claim leaves out cannot be claimed. After three
    copies of the first book came in, an update that gives this book
    another barcode leaves its movement behind; after the books were
    deleted, a book created under the barcode of the first one inherits
    that movement. *)
Example update_of_barcode_leaves_movements_behind :
  ledgerHolds Shop.dbRestocked /\
  exists b db',
    post_api_books [] Shop.dbRestocked
      (Shop.bookBody (JS.Num 1) (JS.Str "Z") (JS.Str "Alef") JS.Undefined)
    = Some (Success b, db') /\
    Book.barcode b = "Z" /\ In b (books db') /\
    ~ ledgerEquation (stockMovements db') b.
Proof.
  split.
  - repeat constructor.
  - eexists _, _. split; [reflexivity|]. split; [reflexivity|].
    split; [now left|]. intros H. discriminate H.
Qed.

Example reused_barcode_inherits_movements :
  let db := snd (post_api_books_delete Shop.dbRestocked
                   (Some [JS.Num 1; JS.Num 2])) in
  books db = [] /\ ledgerHolds db /\
  exists b db',
    post_api_books [] db
      (Shop.bookBody JS.Undefined (JS.Str "A") (JS.Str "Alef") (JS.Str "5"))
    = Some (Success b, db') /\
    In b (books db') /\ ~ ledgerEquation (stockMovements db') b.
Proof.
  split; [reflexivity|]. split; [constructor|].
  eexists _, _. split; [reflexivity|]. split; [now left|].
  intros H. discriminate H.
Qed.

(** Nor can a book that shares its barcode be covered: the incoming
    stock is written to the first book of the barcode, and its movement
    counts for the second one too. *)
Example shared_barcode_breaks_equation :
  let twin := Book.mk 3 "A" "Alef again" "" "" "" (JS.ofZ 10) 5 5 in
  let db := mkDB [Shop.bookA; twin] [] [] [] in
  ledgerHolds db /\
  exists b db',
    post_api_stock_in Shop.noon db (JS.Str "A") (JS.Num 3) JS.Undefined
    = (Success b, db') /\
    nth_error (books db') 1 = Some twin /\
    ~ ledgerEquation (stockMovements db') twin.
Proof.
  split; [repeat constructor|].
  eexists _, _. split; [reflexivity|]. split; [reflexivity|].
  intros H. discriminate H.
Qed.

(** C1, amended. Take a request whose documents, the one loaded and the
    one written, hold safe integers as quantities. A book that was in the
    document, whose barcode no other book had and which satisfied
    [current_qty = initial_qty + sum of 'in' - sum of 'out'] over the
    movements of its barcode, satisfies it after the request, whatever the
    request, unless the request deleted the book or gave it another
    barcode; its initial quantity is not changed. A book of the document
    written is such a book, or a book that the request inserted: then no
    book had its barcode, its current quantity is its initial quantity,
    and the quantities recorded for its barcode are those of the movements
    loaded and, for an import, its initial quantity as come in; so that it
    satisfies the equation exactly when these are equal on the two sides:
    when no movement loaded has its barcode, always after a creation, and
    after an import when its initial quantity is 0 only. *)
Theorem ledger_equation_preserved (db : DB) (r : request) (ok : bool)
  (db' : DB) :
  safeQuantities db -> safeQuantities db' ->
  handle db r = Some (ok, db') ->
  (forall i b b',
     nth_error (books db) i = Some b ->
     continues r db' i b b' ->
     aloneAt (books db) i b ->
     ledgerEquation (stockMovements db) b ->
     Book.initial_qty b' = Book.initial_qty b /\
     (Book.barcode b' = Book.barcode b ->
      ledgerEquation (stockMovements db') b')) /\
  (forall b',
     In b' (books db') ->
     (exists i b, nth_error (books db) i = Some b /\ continues r db' i b b')
     \/ (insertedBook (recordedIn r) db db' b' /\
         (ledgerEquation (stockMovements db') b' <->
          sumQty In_ (Book.barcode b') (stockMovements db) + recordedIn r b'
          = sumQty Out_ (Book.barcode b') (stockMovements db)))).
Proof.
  intros _ _ E.
  assert (Hdel : (exists ids, r = PostBooksDelete ids)
                 \/ forall ids, r <> PostBooksDelete ids).
  { destruct r; try (right; discriminate). left. eauto. }
  destruct Hdel as [[ids ->]|Hr].
  - cbn [handle] in E.
    pose proof (books_delete_accounted db ids) as H.
    destruct (post_api_books_delete db ids) as [res db1].
    injection E as _ <-. cbn [snd] in H. unfold continues. split.
    + intros i b b' Hi [Hin ->] _ Hl. split; [reflexivity|].
      intros _. now apply H.
    + intros b' Hin. left. destruct (H b' Hin) as [Hold _].
      apply In_nth_error in Hold. destruct Hold as [i Hi]. eauto.
  - destruct (handle_accounted db r ok db' E Hr)
      as (old & inserted & Hbooks & Hlen & Hnew & Hkept).
    assert (Hcont : forall i b b', continues r db' i b b'
                                   <-> nth_error (books db') i = Some b').
    { intros i b b'. destruct r; try reflexivity. now elim (Hr ids). }
    split.
    + intros i b b' Hi Hc Halone Hl. apply Hcont in Hc.
      destruct (Hkept i b Hi Halone Hl) as (b1 & H1 & H2 & H3).
      rewrite Hbooks, nth_error_app1 in Hc
        by (rewrite Hlen; apply nth_error_Some; congruence).
      assert (b' = b1) by congruence. subst b1. auto.
    + intros b' Hin. rewrite Hbooks in Hin. apply in_app_or in Hin.
      destruct Hin as [Hin|Hin].
      * left. apply In_nth_error in Hin. destruct Hin as [i Hi].
        assert (Hlt : (i < List.length (books db))%nat).
        { rewrite <- Hlen. apply nth_error_Some. congruence. }
        destruct (nth_error (books db) i) as [b|] eqn:Hb;
          [|apply nth_error_None in Hb; lia].
        exists i, b. split; [exact Hb|]. apply Hcont.
        rewrite Hbooks, nth_error_app1; [exact Hi|lia].
      * right. rewrite Forall_forall in Hnew.
        pose proof (Hnew b' Hin) as Hb'. split; [exact Hb'|].
        destruct Hb' as (_ & Hq & Hins & Houts).
        unfold ledgerEquation. rewrite Hins, Houts. lia.
Qed.

Lemma ledger_equation_preserved_witness :
  let items := Some [Item.mk (JS.Str "A") (JS.Num 3);
                     Item.mk (JS.Str "B") (JS.Str "1");
                     Item.mk (JS.Str "A") (JS.Num 2)] in
  let db' := snd (post_api_sales_quick Shop.noon Shop.db (JS.Str "S1") items) in
  exists b',
    nth_error (books db') 0 = Some b' /\
    Book.current_qty b' = 0 /\
    ledgerEquation (stockMovements db') b'.
Proof.
  intros items db'. eexists. split; [reflexivity|]. split; [reflexivity|].
  assert (Hsafe : safeQuantities Shop.db)
    by (split; cbn; repeat apply Forall_cons; try apply Forall_nil;
        unfold safeInteger; cbn; lia).
  assert (Hsafe' : safeQuantities db')
    by (unfold safeQuantities;
        let bks := eval vm_compute in (books db') in
        change (books db') with bks;
        let ms := eval vm_compute in (stockMovements db') in
        change (stockMovements db') with ms;
        split; repeat apply Forall_cons; try apply Forall_nil;
        unfold safeInteger; cbn; lia).
  destruct (ledger_equation_preserved Shop.db
              (PostSalesQuick Shop.noon (JS.Str "S1") items) true db'
              Hsafe Hsafe' eq_refl) as [Hkept _].
  apply (Hkept 0%nat Shop.bookA); try reflexivity.
  intros [|[|[|j]]] Hj; try reflexivity; discriminate Hj.
Defined.

(** ** Current quantities below zero *)

(** The boolean tests of the handlers, as facts on integers. *)
Ltac bool_to_Z :=
  repeat match goal with
  | H : _ || _ = false |- _ => apply orb_false_iff in H; destruct H
  | H : (_ <? _) = false |- _ => apply Z.ltb_ge in H
  | H : (_ <=? _) = false |- _ => apply Z.leb_gt in H
  | H : (_ <? _) = true |- _ => apply Z.ltb_lt in H
  | H : (_ <=? _) = true |- _ => apply Z.leb_le in H
  end.

Lemma Forall_modifyAt {A} (P : A -> Prop) ref (f : A -> A) (arr : list A) :
  Forall P arr ->
  (forall x, nth_error arr ref = Some x -> P x -> P (f x)) ->
  Forall P (modifyAt ref f arr).
Proof.
  intros Hall. revert ref. induction Hall as [|a arr Pa Hall IH];
    intros [|r] Hf; cbn; constructor; auto.
Qed.

Lemma importRow_nonNegative clock st row index :
  Forall (fun b => 0 <= Book.current_qty b) (ImportState.books st) ->
  Forall (fun b => 0 <= Book.current_qty b)
         (ImportState.books (importRow clock st row index)).
Proof.
  intros H. unfold importRow.
  repeat match goal with
  | |- context [if ?c then _ else _] => destruct c eqn:?
  | |- context [match ?x with _ => _ end] => destruct x eqn:?
  end; try exact H;
  cbn [ImportState.books]; apply Forall_app; (split; [exact H|]);
  (constructor; [|constructor]); cbn; bool_to_Z; lia.
Qed.

Lemma forEachRow_nonNegative clock rows index st :
  Forall (fun b => 0 <= Book.current_qty b) (ImportState.books st) ->
  Forall (fun b => 0 <= Book.current_qty b)
         (ImportState.books (forEachRow clock rows index st)).
Proof.
  revert index st. induction rows as [|row rows IH]; intros index st H.
  - exact H.
  - cbn. apply IH. now apply importRow_nonNegative.
Qed.

(** X19. Every request other than a quick sale leaves the current quantities
    non-negative: the single sale checks the quantity it writes, incoming
    stock adds, creation and import start from a quantity that is checked,
    update and deletion write no quantity. *)
Lemma only_quick_sale_oversells (db : DB) (r : request) (ok : bool)
  (db' : DB) :
  nonNegative db ->
  handle db r = Some (ok, db') ->
  (forall now sellerBarcode items,
     r <> PostSalesQuick now sellerBarcode items) ->
  nonNegative db'.
Proof.
  unfold nonNegative. intros H.
  destruct r; cbn [handle]; intros E Hr.
  - destruct (post_api_books draws db body) as [[res db1]|] eqn:E1;
      [|discriminate]. injection E as _ <-. revert E1.
    unfold post_api_books.
    destruct (negb _ || _); [now intros [= _ <-]|].
    destruct (JS.isNaN _ || JS.ltZero _); [now intros [= _ <-]|].
    destruct (parseIntOrZero _) as [q|]; [|now intros [= _ <-]].
    destruct (Z.ltb_spec q 0); [now intros [= _ <-]|].
    destruct (JS.truthy (BookReq.id body)).
    + destruct (findRef _ _) as [[ref existing]|]; [|now intros [= _ <-]].
      destruct (_ && _); intros [= _ <-]; [exact H|].
      cbn [books]. apply Forall_modifyAt; auto.
    + destruct (negb _ && _); [now intros [= _ <-]|].
      match goal with
      | |- context [match ?c with Some _ => _ | None => _ end] =>
          destruct c as [code|]
      end; [|discriminate].
      intros [= _ <-]. cbn [books]. apply Forall_app. split; [exact H|].
      constructor; [|constructor]. cbn. lia.
  - revert E. unfold post_api_books_delete.
    destruct ids as [[|v rest]|]; cbv zeta; intros [= _ <-]; try exact H.
    cbn [books]. rewrite Forall_forall in *. intros b Hb.
    apply filter_In in Hb. apply H. tauto.
  - revert E. unfold post_api_sellers.
    repeat match goal with
    | |- context [if ?c then _ else _] => destruct c
    end; intros [= _ <-]; exact H.
  - revert E. unfold post_api_stock_in.
    destruct (parseIntOrZero qty) as [q|]; [|now intros [= _ <-]].
    destruct (_ || _) eqn:Hq; [now intros [= _ <-]|].
    destruct (findByBarcode _ _) as [[ref book]|]; intros [= _ <-];
      [|exact H].
    cbn [books]. apply Forall_modifyAt; [exact H|].
    intros x _ Hx. cbn. rewrite orZeroZ_id. bool_to_Z. lia.
  - revert E. unfold post_api_stock_sale.
    destruct (parseIntOrZero qty) as [q|]; [|now intros [= _ <-]].
    destruct (_ || _); [now intros [= _ <-]|].
    destruct (findByBarcode _ _) as [[ref book]|]; [|now intros [= _ <-]].
    destruct (findSeller _ _) as [[k seller]|]; [|now intros [= _ <-]].
    destruct (_ <? _) eqn:Hq; intros [= _ <-]; [exact H|].
    cbn [books]. apply Forall_modifyAt; [exact H|].
    intros x _ _. cbn. bool_to_Z. lia.
  - exfalso. now apply (Hr now sellerBarcode items).
  - revert E. unfold post_api_import_books_tsv.
    destruct rows as [rows|]; intros [= _ <-]; [|exact H].
    cbn [books]. now apply forEachRow_nonNegative.
Qed.

Lemma normalizeItems_checked bks items i acc normalizedItems :
  normalizeItems bks items i acc = inr normalizedItems ->
  exists new,
    normalizedItems = (acc ++ new)%list /\
    map Normalized.barcode new
    = map (fun item => trimmedOrEmpty (Item.barcode item)) items /\
    Forall (checkedItem bks) new.
Proof.
  revert i acc. induction items as [|item later IH]; intros i acc.
  - cbn. intros [= <-]. exists []. rewrite app_nil_r. repeat split. constructor.
  - cbn [normalizeItems].
    destruct (parseIntOrZero _) as [q|]; [|discriminate].
    destruct (_ || _); [discriminate|].
    destruct (findByBarcode _ _) as [[ref book]|] eqn:Hf; [|discriminate].
    destruct (_ <? _) eqn:Hq; [discriminate|].
    intros H. destruct (IH _ _ H) as (new & -> & Hcodes & Hall).
    apply findByBarcode_Some in Hf. destruct Hf as [Hn Hb].
    rewrite orZeroZ_id in Hq. apply Z.ltb_ge in Hq.
    exists (Normalized.mk ref (trimmedOrEmpty (Item.barcode item)) q :: new).
    unfold push. rewrite <- app_assoc. split; [reflexivity|]. split.
    + cbn. now rewrite Hcodes.
    + constructor; [|exact Hall]. exists book. cbn. auto.
Qed.

Lemma checked_refs_distinct bks (items : list Normalized.t) :
  Forall (checkedItem bks) items ->
  NoDup (map Normalized.barcode items) ->
  NoDup (map Normalized.book items).
Proof.
  induction items as [|item later IH]; cbn; intros Hall Hnd; [constructor|].
  inversion Hall as [|? ? (b & Hb & Hcode & _) Hlater]; subst.
  inversion Hnd as [|? ? Hnotin Hnd']; subst.
  constructor; [|now apply IH].
  intros Hin. apply Hnotin. apply in_map_iff in Hin.
  destruct Hin as (other & Href & Hin). apply in_map_iff.
  exists other. split; [|exact Hin].
  rewrite Forall_forall in Hlater.
  destruct (Hlater other Hin) as (b' & Hb' & Hcode' & _).
  rewrite Href, Hb in Hb'. injection Hb' as <-. congruence.
Qed.

Lemma forEach_applyItem_nonNegative sellerName sellerCode now items st :
  Forall (fun b => 0 <= Book.current_qty b) (Quick.books st) ->
  NoDup (map Normalized.book items) ->
  Forall (fun item =>
            exists b, nth_error (Quick.books st) (Normalized.book item) = Some b
                      /\ Normalized.qty item <= Book.current_qty b) items ->
  Forall (fun b => 0 <= Book.current_qty b)
    (Quick.books (fold_left (applyItem sellerName sellerCode now) items st)).
Proof.
  revert st. induction items as [|item later IH]; intros st Hpos Hnd Hall.
  - exact Hpos.
  - cbn [fold_left map] in *.
    inversion Hnd as [|? ? Hnotin Hnd']; subst.
    inversion Hall as [|? ? (b & Hb & Hle) Hlater]; subst.
    apply IH; auto; unfold applyItem; rewrite Hb; cbn [Quick.books].
    + apply Forall_modifyAt; [exact Hpos|].
      intros x Hx _. cbn. rewrite orZeroZ_id.
      rewrite Hb in Hx. injection Hx as <-. lia.
    + rewrite Forall_forall in *. intros other Hin.
      destruct (Hlater other Hin) as (b' & Hb' & Hle').
      exists b'. split; [|exact Hle'].
      rewrite nth_error_modifyAt_other; [exact Hb'|].
      intros E. apply Hnotin. rewrite <- E. now apply in_map.
Qed.

(** X20. A quick sale whose items have pairwise distinct barcodes leaves the
    current quantities non-negative: the quantity below zero of
    [quick_sale_repeated_barcode_oversells] needs a repeated barcode. *)
Lemma quick_sale_of_distinct_barcodes_non_negative now db sellerBarcode items :
  nonNegative db ->
  NoDup (map (fun item => trimmedOrEmpty (Item.barcode item)) items) ->
  nonNegative (snd (post_api_sales_quick now db sellerBarcode (Some items))).
Proof.
  unfold nonNegative. intros H Hnd. unfold post_api_sales_quick.
  destruct (_ =? _)%string; [exact H|].
  destruct items as [|item later] eqn:Hitems; [exact H|]. rewrite <- Hitems in *.
  destruct (findSeller _ _) as [[k seller]|]; [|exact H].
  destruct (normalizeItems _ _ _ _) as [e|normalizedItems] eqn:Hnorm;
    [exact H|].
  apply normalizeItems_checked in Hnorm.
  destruct Hnorm as (new & -> & Hcodes & Hall). cbn [app snd books].
  rewrite <- Hcodes in Hnd.
  apply forEach_applyItem_nonNegative; cbn [Quick.books]; auto.
  - now apply (checked_refs_distinct (books db)).
  - eapply Forall_impl; [|exact Hall]. intros n (b & Hb & _ & Hle). eauto.
Qed.

(** ** Failures and identifiers along the requests *)

(** X21. A request that is answered with a failure leaves the document as it
    was loaded: every handler returns before [saveDb]. *)
Lemma failure_changes_nothing (db : DB) (r : request) (db' : DB) :
  handle db r = Some (false, db') -> db' = db.
Proof.
  destruct r; cbn [handle].
  - destruct (post_api_books draws db body) as [[res db1]|] eqn:E;
      [|discriminate].
    destruct res as [e|b]; [|discriminate]. intros [= <-]. revert E.
    unfold post_api_books.
    repeat match goal with
    | |- context [if ?c then _ else _] => destruct c
    | |- context [match ?x with _ => _ end] => destruct x
    end; intros H; try discriminate H; now inversion H.
  - unfold post_api_books_delete.
    destruct ids as [[|v rest]|]; cbn; intros H; try discriminate H;
      now inversion H.
  - unfold post_api_sellers.
    repeat match goal with
    | |- context [if ?c then _ else _] => destruct c
    end; cbn; intros H; try discriminate H; now inversion H.
  - unfold post_api_stock_in.
    destruct (parseIntOrZero qty) as [q|]; [|now intros [= <-]].
    destruct (_ || _); [now intros [= <-]|].
    destruct (findByBarcode _ _) as [[ref book]|]; [|now intros [= <-]].
    discriminate.
  - unfold post_api_stock_sale.
    destruct (parseIntOrZero qty) as [q|]; [|now intros [= <-]].
    destruct (_ || _); [now intros [= <-]|].
    destruct (findByBarcode _ _) as [[ref book]|]; [|now intros [= <-]].
    destruct (findSeller _ _) as [[k seller]|]; [|now intros [= <-]].
    destruct (_ <? _); [now intros [= <-]|]. discriminate.
  - unfold post_api_sales_quick.
    destruct (_ =? _)%string; [now intros [= <-]|].
    destruct items as [[|item later]|]; try now intros [= <-].
    destruct (findSeller _ _) as [[k seller]|]; [|now intros [= <-]].
    destruct (normalizeItems _ _ _ _); [now intros [= <-]|]. discriminate.
  - unfold post_api_import_books_tsv.
    destruct rows as [rows|]; [discriminate|now intros [= <-]].
Qed.

(** The counters of a quick sale are the identifiers that [nextId] gives
    for the movements and the sales as they are after each item. *)
Lemma applyItem_counters sellerName sellerCode now st item :
  Quick.nextMoveId st = nextId Movement.id (Quick.movements st) ->
  Quick.nextSaleId st = nextId Sale.id (Quick.sales st) ->
  let st' := applyItem sellerName sellerCode now st item in
  Quick.nextMoveId st' = nextId Movement.id (Quick.movements st') /\
  Quick.nextSaleId st' = nextId Sale.id (Quick.sales st').
Proof.
  intros Hm Hs. unfold applyItem.
  destruct (nth_error _ _); [|now split].
  cbn [Quick.nextMoveId Quick.nextSaleId Quick.movements Quick.sales].
  split; symmetry; rewrite nextId_push; cbn; congruence.
Qed.

(** After the book of the greatest identifier is deleted, the identifier
    of the next book is computed from the books that are left. *)
Example nextId_after_delete :
  let db' := snd (post_api_books_delete Shop.db (Some [JS.Num 2])) in
  nextId Book.id (books Shop.db) = 3 /\ nextId Book.id (books db') = 2.
Proof. split; reflexivity. Qed.

(** * Further properties of the handlers *)

(** ** Barcodes and identifiers stay unique *)

Lemma modifyAt_ext {A} (f g : A -> A) ref (arr : list A) :
  (forall x, nth_error arr ref = Some x -> f x = g x) ->
  modifyAt ref f arr = modifyAt ref g arr.
Proof.
  revert ref. induction arr as [|a arr IH]; intros [|r] H; cbn; auto.
  - now rewrite H.
  - now rewrite IH.
Qed.

Lemma in_map_modifyAt {A K} (key : A -> K) ref (f : A -> A) (arr : list A) y :
  In y (map key (modifyAt ref f arr)) ->
  In y (map key arr) \/
  exists x, nth_error arr ref = Some x /\ y = key (f x).
Proof.
  revert ref. induction arr as [|a arr IH]; intros [|r]; cbn; auto.
  - intros [<-|H]; [right; eauto|auto].
  - intros [<-|H]; [auto|]. destruct (IH r H) as [?|?]; auto.
Qed.

(** A write through a reference that keeps the key of the object, or
    gives it a key that no object has, keeps the keys unique. *)
Lemma modifyAt_keeps_keys_unique {A K} (key : A -> K) ref (f : A -> A)
  (arr : list A) (x : A) :
  NoDup (map key arr) ->
  nth_error arr ref = Some x ->
  key (f x) = key x \/ ~ In (key (f x)) (map key arr) ->
  NoDup (map key (modifyAt ref f arr)).
Proof.
  intros Hu Hx [Hsame|Hfresh].
  - rewrite map_modifyAt; [exact Hu|]. intros y Hy. congruence.
  - revert ref Hx Hfresh Hu.
    induction arr as [|a arr IH]; intros [|r] Hx Hfresh Hu;
      cbn in *; try discriminate Hx;
      apply NoDup_cons_iff in Hu; destruct Hu as [Ha Hu];
      apply NoDup_cons_iff.
    + injection Hx as ->. split; [|exact Hu]. intros H. apply Hfresh. now right.
    + split; [|apply IH; auto].
      intros H. apply in_map_modifyAt in H.
      destruct H as [H|(y & Hy & E)]; [contradiction|].
      rewrite Hx in Hy. injection Hy as <-. apply Hfresh. now left.
Qed.

Lemma applyItem_books_frame sellerName sellerCode now st item :
  let st' := applyItem sellerName sellerCode now st item in
  map Book.barcode (Quick.books st') = map Book.barcode (Quick.books st) /\
  map Book.id (Quick.books st') = map Book.id (Quick.books st) /\
  map Book.initial_qty (Quick.books st')
  = map Book.initial_qty (Quick.books st).
Proof.
  unfold applyItem. destruct (nth_error _ _); [|auto].
  cbn [Quick.books]. repeat split; now apply map_modifyAt.
Qed.

Lemma forEach_applyItem_books_frame sellerName sellerCode now items st :
  let st' := fold_left (applyItem sellerName sellerCode now) items st in
  map Book.barcode (Quick.books st') = map Book.barcode (Quick.books st) /\
  map Book.id (Quick.books st') = map Book.id (Quick.books st) /\
  map Book.initial_qty (Quick.books st')
  = map Book.initial_qty (Quick.books st).
Proof.
  revert st. induction items as [|item later IH]; intros st; [auto|].
  cbn [fold_left].
  destruct (IH (applyItem sellerName sellerCode now st item)) as (B & I & Q).
  destruct (applyItem_books_frame sellerName sellerCode now st item)
    as (B' & I' & Q').
  repeat split; congruence.
Qed.

(** What a quick sale leaves in the place of the books: books of the same
    barcodes, identifiers and initial quantities, in the same order. *)
Lemma sales_quick_books_frame now db sellerBarcode items :
  let db' := snd (post_api_sales_quick now db sellerBarcode items) in
  map Book.barcode (books db') = map Book.barcode (books db) /\
  map Book.id (books db') = map Book.id (books db) /\
  map Book.initial_qty (books db') = map Book.initial_qty (books db) /\
  sellers db' = sellers db.
Proof.
  unfold post_api_sales_quick.
  destruct (_ =? _)%string; [auto|].
  destruct items as [[|item later]|]; auto.
  destruct (findSeller _ _) as [[k seller]|]; [|auto].
  destruct (normalizeItems _ _ _ _) as [e|normalizedItems]; [auto|].
  cbn [snd books sellers].
  match goal with
  | |- context [fold_left ?f ?l ?st0] =>
      destruct (forEach_applyItem_books_frame (Seller.name seller)
                  (trimmedOrEmpty sellerBarcode) now l st0) as (B & I & Q)
  end.
  auto.
Qed.

Lemma import_keeps_barcodes_unique clock db rows :
  uniqueBarcodes db ->
  uniqueBarcodes (snd (post_api_import_books_tsv clock db rows)).
Proof.
  intros Hu. unfold post_api_import_books_tsv.
  destruct rows as [rows|]; [|exact Hu].
  cbn [snd]. unfold uniqueBarcodes. cbn [books].
  destruct (forEachRow_adds clock (books db) (stockMovements db) rows 0
              (ImportState.mk (books db) (stockMovements db)
                 (nextId Book.id (books db))
                 (nextId Movement.id (stockMovements db)) 0 0 []))
    as (news & newMovements & _ & _ & Hu' & _).
  { exists [], []. cbn. rewrite !app_nil_r. repeat split; auto. }
  exact Hu'.
Qed.

Lemma books_post_keeps_barcodes_unique draws db body res db' :
  uniqueBarcodes db ->
  post_api_books draws db body = Some (res, db') ->
  uniqueBarcodes db' /\ sellers db' = sellers db.
Proof.
  intros Hu. unfold post_api_books.
  destruct (negb _ || _); [now intros [= _ <-]|].
  destruct (JS.isNaN _ || JS.ltZero _); [now intros [= _ <-]|].
  destruct (parseIntOrZero _) as [q|]; [|now intros [= _ <-]].
  destruct (q <? 0); [now intros [= _ <-]|].
  destruct (JS.truthy (BookReq.id body)).
  - destruct (findRef _ _) as [[ref existing]|] eqn:Hf; [|now intros [= _ <-]].
    destruct (findRef_Some _ _ _ _ Hf) as (Hn & _).
    destruct (negb (trimmedOrEmpty (BookReq.barcode body) =? "")%string)
      eqn:Hempty; cbn [andb].
    + destruct (String.eqb_spec (trimmedOrEmpty (BookReq.barcode body))
                  (Book.barcode existing)) as [Hsame|Hother]; cbn [negb andb].
      * intros [= _ <-]. split; [|reflexivity].
        unfold uniqueBarcodes. cbn [books].
        apply (modifyAt_keeps_keys_unique Book.barcode _ _ _ existing);
          auto. left. cbn. apply negb_true_iff in Hempty.
        now rewrite Hempty.
      * destruct (barcodeExists _ _) eqn:Hex; intros [= _ <-];
          [now split|]. split; [|reflexivity].
        unfold uniqueBarcodes. cbn [books].
        apply (modifyAt_keeps_keys_unique Book.barcode _ _ _ existing);
          auto. right. cbn. apply negb_true_iff in Hempty.
        rewrite Hempty. now apply barcodeExists_false.
    + intros [= _ <-]. split; [|reflexivity].
      unfold uniqueBarcodes. cbn [books].
      apply (modifyAt_keeps_keys_unique Book.barcode _ _ _ existing); auto.
      left. cbn. apply negb_false_iff in Hempty. now rewrite Hempty.
  - destruct (negb _ && _) eqn:Htaken; [now intros [= _ <-]|].
    match goal with
    | |- context [match ?c with Some _ => _ | None => _ end] =>
        destruct c as [code|] eqn:Hcode
    end; [|discriminate].
    intros [= _ <-]. split; [|reflexivity].
    unfold uniqueBarcodes. cbn [books].
    assert (Hfresh : barcodeExists code (books db) = false).
    { destruct (_ =? "")%string eqn:Hempty.
      - now apply generateCode_fresh in Hcode.
      - injection Hcode as <-. cbn [negb andb] in Htaken. exact Htaken. }
    unfold push. rewrite map_app. apply NoDup_snoc; [exact Hu|].
    now apply barcodeExists_false.
Qed.

Lemma existsb_barcode_false (barcode : string) (l : list Seller.t) :
  existsb (fun s => (Seller.barcode s =? barcode)%string) l = false ->
  ~ In barcode (map Seller.barcode l).
Proof.
  induction l as [|s l IH]; cbn; [tauto|].
  rewrite orb_false_iff, String.eqb_neq. intros [Hs Hl].
  intros [E|Hin]; [contradiction|now apply IH].
Qed.

(** X1. Every request keeps the barcodes of the books pairwise distinct
    and the barcodes of the sellers pairwise distinct: a creation, an
    update and an import take no barcode that a book has, and a seller is
    not created under the barcode of a seller. *)
Theorem barcodes_stay_unique (db : DB) (r : request) (ok : bool) (db' : DB) :
  uniqueBarcodes db -> uniqueSellerBarcodes db ->
  handle db r = Some (ok, db') ->
  uniqueBarcodes db' /\ uniqueSellerBarcodes db'.
Proof.
  intros Hu Hs. unfold uniqueSellerBarcodes in *.
  destruct r; cbn [handle].
  - destruct (post_api_books draws db body) as [[res db1]|] eqn:E;
      [|discriminate].
    intros [= _ <-].
    destruct (books_post_keeps_barcodes_unique draws db body res db1 Hu E)
      as [H1 H2]. now rewrite H2.
  - unfold post_api_books_delete.
    destruct ids as [[|v rest]|]; cbv zeta; intros [= _ <-]; auto.
    split; [|exact Hs]. now apply filter_keeps_barcodes_unique.
  - unfold post_api_sellers.
    destruct (_ =? "")%string; [now intros [= _ <-]|].
    destruct (_ =? "")%string; [now intros [= _ <-]|].
    destruct (existsb _ _) eqn:Hex; intros [= _ <-]; [now split|].
    split; [exact Hu|]. cbn [sellers]. unfold push. rewrite map_app.
    apply NoDup_snoc; [exact Hs|]. now apply existsb_barcode_false.
  - unfold post_api_stock_in.
    destruct (parseIntOrZero qty) as [q|]; [|now intros [= _ <-]].
    destruct (_ || _); [now intros [= _ <-]|].
    destruct (findByBarcode _ _) as [[ref book]|]; intros [= _ <-];
      [|now split].
    split; [|exact Hs]. unfold uniqueBarcodes. cbn [books].
    rewrite map_modifyAt; auto.
  - unfold post_api_stock_sale.
    destruct (parseIntOrZero qty) as [q|]; [|now intros [= _ <-]].
    destruct (_ || _); [now intros [= _ <-]|].
    destruct (findByBarcode _ _) as [[ref book]|]; [|now intros [= _ <-]].
    destruct (findSeller _ _) as [[k seller]|]; [|now intros [= _ <-]].
    destruct (_ <? _); intros [= _ <-]; [now split|].
    split; [|exact Hs]. unfold uniqueBarcodes. cbn [books].
    rewrite map_modifyAt; auto.
  - pose proof (sales_quick_books_frame now db sellerBarcode items)
      as (B & _ & _ & S).
    destruct (post_api_sales_quick now db sellerBarcode items) as [res db1].
    intros [= _ <-]. cbn [snd] in B, S. unfold uniqueBarcodes.
    now rewrite B, S.
  - pose proof (import_keeps_barcodes_unique clock db rows Hu) as H.
    assert (S : sellers (snd (post_api_import_books_tsv clock db rows))
                = sellers db).
    { unfold post_api_import_books_tsv. now destruct rows. }
    destruct (post_api_import_books_tsv clock db rows) as [res db1].
    intros [= _ <-]. cbn [snd] in H, S. now rewrite S.
Qed.

Lemma barcodes_stay_unique_witness :
  let body := Shop.bookBody (JS.Num 1) (JS.Str "Z") (JS.Str "Alef")
                            JS.Undefined in
  exists b db',
    post_api_books [] Shop.db body = Some (Success b, db') /\
    map Book.barcode (books db') = ["Z"; "B"]%string /\
    uniqueBarcodes db' /\ uniqueSellerBarcodes db'.
Proof.
  intros body. eexists _, _. split; [reflexivity|]. split; [reflexivity|].
  apply (barcodes_stay_unique Shop.db (PostBooks [] body) true).
  - repeat constructor; cbn; intuition discriminate.
  - repeat constructor; cbn; intuition discriminate.
  - reflexivity.
Defined.

Lemma push_keeps_ids_unique {A} (id : A -> Z) (arr : list A) (x : A) :
  NoDup (map id arr) -> id x = nextId id arr ->
  NoDup (map id (push arr x)).
Proof.
  intros Hu Hx. unfold push. rewrite map_app. apply NoDup_snoc; [exact Hu|].
  intros Hin. apply in_map_iff in Hin. destruct Hin as (y & Hy & Hin).
  pose proof (nextId_above id arr y Hin). cbn in Hy. lia.
Qed.

Lemma filter_keeps_ids_unique (keep : Book.t -> bool) (bks : list Book.t) :
  NoDup (map Book.id bks) -> NoDup (map Book.id (filter keep bks)).
Proof.
  intros Hu. induction bks as [|b bks IH]; [constructor|].
  cbn [map] in Hu. apply NoDup_cons_iff in Hu. destruct Hu as [Hb Hu].
  cbn [filter]. destruct (keep b); [|now apply IH].
  cbn [map]. constructor; [|now apply IH].
  intros Hin. apply Hb. apply in_map_iff in Hin.
  destruct Hin as (x & Hx & Hin). apply filter_In in Hin.
  apply in_map_iff. exists x. tauto.
Qed.

Lemma applyItem_quickIdsFresh sellerName sellerCode now st item :
  quickIdsFresh st ->
  quickIdsFresh (applyItem sellerName sellerCode now st item).
Proof.
  intros (Hm & Hs & Cm & Cs).
  destruct (applyItem_counters sellerName sellerCode now st item Cm Cs)
    as [Cm' Cs'].
  unfold quickIdsFresh. split; [|split; [|split; assumption]];
    unfold applyItem; destruct (nth_error _ _); auto;
    cbn [Quick.movements Quick.sales];
    now apply push_keeps_ids_unique.
Qed.

Lemma forEach_applyItem_quickIdsFresh sellerName sellerCode now items st :
  quickIdsFresh st ->
  quickIdsFresh (fold_left (applyItem sellerName sellerCode now) items st).
Proof.
  revert st. induction items as [|item later IH]; intros st H; [exact H|].
  cbn [fold_left]. apply IH. now apply applyItem_quickIdsFresh.
Qed.

Lemma importRow_importIdsFresh clock st row index :
  importIdsFresh st -> importIdsFresh (importRow clock st row index).
Proof.
  intros (Hb & Hm & Cb & Cm).
  destruct (importRow_countersAgree clock st row index (conj Cb Cm))
    as [Cb' Cm'].
  unfold importIdsFresh. split; [|split; [|split; assumption]];
    unfold importRow;
    repeat match goal with
    | |- context [if ?c then _ else _] => destruct c
    | |- context [match ?x with _ => _ end] => destruct x
    end; auto;
    cbn [ImportState.books ImportState.movements];
    now apply push_keeps_ids_unique.
Qed.

Lemma forEachRow_importIdsFresh clock rows index st :
  importIdsFresh st -> importIdsFresh (forEachRow clock rows index st).
Proof.
  revert index st. induction rows as [|row rows IH]; intros index st H.
  - exact H.
  - cbn. apply IH. now apply importRow_importIdsFresh.
Qed.

(** X2. Every request keeps the identifiers of the books, of the sellers,
    of the movements and of the sales pairwise distinct: a record is
    pushed under the identifier that follows the greatest one of its
    array, also when a quick sale or an import pushes several. *)
Theorem identifiers_stay_unique (db : DB) (r : request) (ok : bool)
  (db' : DB) :
  uniqueIds db -> handle db r = Some (ok, db') -> uniqueIds db'.
Proof.
  intros (Hb & Hs & Hm & Ha). unfold uniqueIds.
  destruct r; cbn [handle].
  - destruct (post_api_books draws db body) as [[res db1]|] eqn:E;
      [|discriminate].
    intros [= _ <-]. revert E. unfold post_api_books.
    destruct (negb _ || _); [now intros [= _ <-]|].
    destruct (JS.isNaN _ || JS.ltZero _); [now intros [= _ <-]|].
    destruct (parseIntOrZero _) as [q|]; [|now intros [= _ <-]].
    destruct (q <? 0); [now intros [= _ <-]|].
    destruct (JS.truthy (BookReq.id body)).
    + destruct (findRef _ _) as [[ref existing]|]; [|now intros [= _ <-]].
      destruct (_ && _); intros [= _ <-]; [auto|].
      cbn [books sellers stockMovements sales].
      rewrite map_modifyAt; auto.
    + destruct (negb _ && _); [now intros [= _ <-]|].
      match goal with
      | |- context [match ?c with Some _ => _ | None => _ end] =>
          destruct c as [code|]
      end; [|discriminate].
      intros [= _ <-]. cbn [books sellers stockMovements sales].
      split; [|auto]. now apply push_keeps_ids_unique.
  - unfold post_api_books_delete.
    destruct ids as [[|v rest]|]; cbv zeta; intros [= _ <-]; auto.
    cbn [books sellers stockMovements sales].
    split; [|auto]. now apply filter_keeps_ids_unique.
  - unfold post_api_sellers.
    destruct (_ =? "")%string; [now intros [= _ <-]|].
    destruct (_ =? "")%string; [now intros [= _ <-]|].
    destruct (existsb _ _); intros [= _ <-]; [auto|].
    cbn [books sellers stockMovements sales].
    split; [auto|]. split; [|auto]. now apply push_keeps_ids_unique.
  - unfold post_api_stock_in.
    destruct (parseIntOrZero qty) as [q|]; [|now intros [= _ <-]].
    destruct (_ || _); [now intros [= _ <-]|].
    destruct (findByBarcode _ _) as [[ref book]|]; intros [= _ <-];
      [|auto].
    cbn [books sellers stockMovements sales].
    rewrite map_modifyAt; auto.
    split; [auto|]. split; [auto|]. split; [|auto].
    now apply push_keeps_ids_unique.
  - unfold post_api_stock_sale.
    destruct (parseIntOrZero qty) as [q|]; [|now intros [= _ <-]].
    destruct (_ || _); [now intros [= _ <-]|].
    destruct (findByBarcode _ _) as [[ref book]|]; [|now intros [= _ <-]].
    destruct (findSeller _ _) as [[k seller]|]; [|now intros [= _ <-]].
    destruct (_ <? _); intros [= _ <-]; [auto|].
    cbn [books sellers stockMovements sales].
    rewrite map_modifyAt; auto.
    split; [auto|]. split; [auto|].
    split; now apply push_keeps_ids_unique.
  - pose proof (sales_quick_books_frame now db sellerBarcode items)
      as (_ & I & _ & S).
    assert (H : let db1 := snd (post_api_sales_quick now db sellerBarcode
                                  items) in
                NoDup (map Movement.id (stockMovements db1)) /\
                NoDup (map Sale.id (sales db1))).
    { unfold post_api_sales_quick.
      destruct (_ =? _)%string; [auto|].
      destruct items as [[|item later]|]; auto.
      destruct (findSeller _ _) as [[k seller]|]; [|auto].
      destruct (normalizeItems _ _ _ _) as [e|normalizedItems]; [auto|].
      cbn [snd stockMovements sales].
      match goal with
      | |- context [fold_left ?f ?l ?st0] =>
          destruct (forEach_applyItem_quickIdsFresh (Seller.name seller)
                      (trimmedOrEmpty sellerBarcode) now l st0)
            as (M & A & _)
      end; [repeat split; auto|auto]. }
    destruct (post_api_sales_quick now db sellerBarcode items) as [res db1].
    intros [= _ <-]. cbn [snd] in I, S, H. rewrite I, S. tauto.
  - unfold post_api_import_books_tsv.
    destruct rows as [rows|]; intros [= _ <-]; [|auto].
    cbn [books sellers stockMovements sales].
    destruct (forEachRow_importIdsFresh clock rows 0
                (ImportState.mk (books db) (stockMovements db)
                   (nextId Book.id (books db))
                   (nextId Movement.id (stockMovements db)) 0 0 []))
      as (B & M & _); [repeat split; auto|auto].
Qed.

Lemma identifiers_stay_unique_witness :
  let items := Some [Item.mk (JS.Str "A") (JS.Num 1);
                     Item.mk (JS.Str "B") (JS.Num 2)] in
  let db' := snd (post_api_sales_quick Shop.noon Shop.dbRestocked
                    (JS.Str "S1") items) in
  map Movement.id (stockMovements db') = [1; 2; 3] /\ uniqueIds db'.
Proof.
  intros items db'. split; [reflexivity|].
  apply (identifiers_stay_unique Shop.dbRestocked
           (PostSalesQuick Shop.noon (JS.Str "S1") items) true).
  - repeat split; repeat constructor; cbn; intuition discriminate.
  - reflexivity.
Defined.

(** ** The history only grows *)

(** What one item of a quick sale pushes: an ['out'] movement and a sale
    of its barcode and quantity. *)
Lemma applyItem_records sellerName sellerCode now st item :
  validRef (map Book.barcode (Quick.books st)) item ->
  let st' := applyItem sellerName sellerCode now st item in
  exists m s,
    Quick.movements st' = (Quick.movements st ++ [m])%list /\
    Quick.sales st' = (Quick.sales st ++ [s])%list /\
    Movement.type m = Out_ /\
    Movement.bookBarcode m = Normalized.barcode item /\
    Movement.qty m = Normalized.qty item /\
    Sale.bookBarcode s = Normalized.barcode item /\
    Sale.sellerBarcode s = sellerCode /\
    Sale.qty s = Normalized.qty item /\
    Quick.totalQty st' = Quick.totalQty st + Normalized.qty item /\
    Quick.totalAmount st' = JS.add (Quick.totalAmount st) (Sale.total s).
Proof.
  unfold validRef. rewrite nth_error_map. intros Hitem. unfold applyItem.
  destruct (nth_error (Quick.books st) (Normalized.book item)) as [book|];
    [|discriminate Hitem].
  eexists _, _. cbn. unfold push. repeat split.
Qed.

(** What the [forEach] of a quick sale pushes: for each item, in order, an
    ['out'] movement and a sale of its barcode and quantity; the two
    totals add up the quantities and the totals of these sales. *)
Lemma forEach_applyItem_history sellerName sellerCode now items st :
  Forall (validRef (map Book.barcode (Quick.books st))) items ->
  let st' := fold_left (applyItem sellerName sellerCode now) items st in
  exists ms ss,
    Quick.movements st' = (Quick.movements st ++ ms)%list /\
    Quick.sales st' = (Quick.sales st ++ ss)%list /\
    map Movement.type ms = map (fun _ => Out_) items /\
    map Movement.bookBarcode ms = map Normalized.barcode items /\
    map Movement.qty ms = map Normalized.qty items /\
    map Sale.bookBarcode ss = map Normalized.barcode items /\
    map Sale.sellerBarcode ss = map (fun _ => sellerCode) items /\
    map Sale.qty ss = map Normalized.qty items /\
    Quick.totalQty st'
    = Quick.totalQty st + fold_right Z.add 0 (map Normalized.qty items) /\
    Quick.totalAmount st'
    = fold_left JS.add (map Sale.total ss) (Quick.totalAmount st).
Proof.
  revert st. induction items as [|item later IH]; intros st Hv.
  - exists [], []. cbn. rewrite !app_nil_r. repeat split. lia.
  - inversion Hv as [|? ? Hitem Hlater]; subst. cbn [fold_left].
    destruct (applyItem_books_frame sellerName sellerCode now st item)
      as (B & _).
    destruct (applyItem_records sellerName sellerCode now st item Hitem)
      as (m & s & M1 & S1 & T1 & MB1 & MQ1 & SB1 & SS1 & SQ1 & TQ1 & TA1).
    destruct (IH (applyItem sellerName sellerCode now st item))
      as (ms & ss & M & S & T & MB & MQ & SB & SS & SQ & TQ & TA).
    { now rewrite B. }
    exists (m :: ms), (s :: ss).
    rewrite M, S, M1, S1, TQ, TA, TQ1, TA1, <- !app_assoc.
    cbn [app map fold_right fold_left].
    rewrite T, MB, MQ, SB, SS, SQ, T1, MB1, MQ1, SB1, SS1, SQ1.
    repeat split. lia.
Qed.




(** What one row of an import adds: at most one book, with its movement
    when its quantity is positive, or one error, or one to the count of
    the rows skipped. *)
Lemma importRow_accounting clock st row index :
  let st' := importRow clock st row index in
  exists bs ms es,
    ImportState.books st' = (ImportState.books st ++ bs)%list /\
    ImportState.movements st' = (ImportState.movements st ++ ms)%list /\
    ImportState.errors st' = (ImportState.errors st ++ es)%list /\
    ImportState.insertedCount st'
    = ImportState.insertedCount st + Z.of_nat (List.length bs) /\
    ImportState.skippedExisting st <= ImportState.skippedExisting st' /\
    Z.of_nat (List.length bs)
    + (ImportState.skippedExisting st' - ImportState.skippedExisting st)
    + Z.of_nat (List.length es) + Z.of_nat (ignoredRows [row]) = 1 /\
    Forall (fun e => fst e = index + 1) es /\
    map (fun m => (Movement.bookBarcode m, Movement.qty m)) ms
    = initialStock bs /\
    Forall (fun m => Movement.type m = In_) ms /\
    Forall (fun b => Book.current_qty b = Book.initial_qty b /\
                     0 <= Book.initial_qty b) bs.
Proof.
  unfold importRow.
  destruct row as [row|];
    [|exists [], [], []; rewrite !app_nil_r; cbn; repeat split; auto; lia].
  destruct (_ =? "")%string;
    [eexists [], [], [_]; cbn; rewrite !app_nil_r; unfold push;
     repeat split; auto; lia|].
  destruct (_ =? "")%string;
    [eexists [], [], [_]; cbn; rewrite !app_nil_r; unfold push;
     repeat split; auto; lia|].
  destruct (barcodeExists _ _);
    [exists [], [], []; cbn; rewrite !app_nil_r; repeat split; auto; lia|].
  destruct (JS.isNaN _ || JS.ltZero _);
    [eexists [], [], [_]; cbn; rewrite !app_nil_r; unfold push;
     repeat split; auto; lia|].
  destruct (parseIntOrZero _) as [q|];
    [|eexists [], [], [_]; cbn; rewrite !app_nil_r; unfold push;
      repeat split; auto; lia].
  destruct (Z.ltb_spec q 0);
    [eexists [], [], [_]; cbn; rewrite !app_nil_r; unfold push;
     repeat split; auto; lia|].
  destruct (0 <? q) eqn:Hpos.
  - eexists [_], [_], []. unfold push, initialStock.
    cbn -[Z.ltb Z.of_nat]. split; [reflexivity|]. split; [reflexivity|].
    cbn -[Z.ltb Z.of_nat]. rewrite Hpos, !app_nil_r.
    apply Z.ltb_lt in Hpos. repeat split; auto; lia.
  - eexists [_], [], []. unfold push, initialStock.
    cbn -[Z.ltb Z.of_nat]. split; [reflexivity|].
    cbn -[Z.ltb Z.of_nat]. rewrite Hpos, !app_nil_r.
    repeat split; auto; lia.
Qed.

Lemma ignoredRows_cons row rows :
  ignoredRows (row :: rows) = (ignoredRows [row] + ignoredRows rows)%nat.
Proof. unfold ignoredRows. cbn. now destruct row. Qed.

Lemma initialStock_app bs bs' :
  initialStock (bs ++ bs') = (initialStock bs ++ initialStock bs')%list.
Proof. unfold initialStock. now rewrite filter_app, map_app. Qed.

Lemma forEachRow_accounting clock rows index st :
  let st' := forEachRow clock rows index st in
  exists bs ms es,
    ImportState.books st' = (ImportState.books st ++ bs)%list /\
    ImportState.movements st' = (ImportState.movements st ++ ms)%list /\
    ImportState.errors st' = (ImportState.errors st ++ es)%list /\
    ImportState.insertedCount st'
    = ImportState.insertedCount st + Z.of_nat (List.length bs) /\
    ImportState.skippedExisting st <= ImportState.skippedExisting st' /\
    Z.of_nat (List.length bs)
    + (ImportState.skippedExisting st' - ImportState.skippedExisting st)
    + Z.of_nat (List.length es) + Z.of_nat (ignoredRows rows)
    = Z.of_nat (List.length rows) /\
    Forall (fun e => index < fst e <= index + Z.of_nat (List.length rows)) es /\
    map (fun m => (Movement.bookBarcode m, Movement.qty m)) ms
    = initialStock bs /\
    Forall (fun m => Movement.type m = In_) ms /\
    Forall (fun b => Book.current_qty b = Book.initial_qty b /\
                     0 <= Book.initial_qty b) bs.
Proof.
  revert index st. induction rows as [|row rows IH]; intros index st.
  - exists [], [], []. cbn. rewrite !app_nil_r. repeat split; auto; lia.
  - cbn [forEachRow].
    destruct (importRow_accounting clock st row index)
      as (bs1 & ms1 & es1 & B1 & M1 & E1 & I1 & S1 & C1 & R1 & K1 & T1 & Q1).
    destruct (IH (index + 1) (importRow clock st row index))
      as (bs & ms & es & B & M & E & I & S & C & R & K & T & Q).
    exists (bs1 ++ bs)%list, (ms1 ++ ms)%list, (es1 ++ es)%list.
    rewrite B, M, E, I, B1, M1, E1, I1, !app_assoc, !length_app.
    rewrite ignoredRows_cons, initialStock_app, map_app, K, K1.
    cbn [List.length]. repeat split; auto; try lia.
    + apply Forall_app. split.
      * eapply Forall_impl; [|exact R1]. cbn. intros e He. lia.
      * eapply Forall_impl; [|exact R]. cbn. intros e He. lia.
    + now apply Forall_app.
    + now apply Forall_app.
Qed.

(** X4. The report of an import accounts for every row, and an import
    only appends. The books after an import are the books loaded followed
    by the books inserted, whose number is [insertedCount]; the rows
    inserted, the rows skipped, the errors and the falsy rows add up to
    the number of rows; each error carries the number of a row; the
    movements after it are the movements loaded followed by one ['in']
    movement for each inserted book of positive initial quantity, in
    order; an inserted book has its initial quantity, which is not
    negative, as current quantity. *)
Theorem import_report_accounts_for_rows (clock : Z -> string) (db : DB)
  (rows : list (option Row.t)) (report : importReport) (db' : DB) :
  post_api_import_books_tsv clock db (Some rows) = (Success report, db') ->
  exists bs ms,
    books db' = (books db ++ bs)%list /\
    stockMovements db' = (stockMovements db ++ ms)%list /\
    sellers db' = sellers db /\ sales db' = sales db /\
    insertedCount report = Z.of_nat (List.length bs) /\
    0 <= skippedExisting report /\
    insertedCount report + skippedExisting report
    + Z.of_nat (List.length (errors report)) + Z.of_nat (ignoredRows rows)
    = Z.of_nat (List.length rows) /\
    Forall (fun e => 1 <= fst e <= Z.of_nat (List.length rows))
           (errors report) /\
    map (fun m => (Movement.bookBarcode m, Movement.qty m)) ms
    = initialStock bs /\
    Forall (fun m => Movement.type m = In_) ms /\
    Forall (fun b => Book.current_qty b = Book.initial_qty b /\
                     0 <= Book.initial_qty b) bs.
Proof.
  unfold post_api_import_books_tsv. intros [= <- <-].
  match goal with
  | |- context [forEachRow clock rows 0 ?st0] =>
      destruct (forEachRow_accounting clock rows 0 st0)
        as (bs & ms & es & B & M & E & I & S & C & R & K & T & Q)
  end.
  cbn [ImportState.books ImportState.movements ImportState.errors
       ImportState.insertedCount ImportState.skippedExisting app]
    in B, M, E, I, S, C.
  exists bs, ms.
  cbn [books stockMovements sellers sales insertedCount skippedExisting
       errors].
  rewrite B, M, E, I. repeat split; auto; try lia.
  eapply Forall_impl; [|exact R]. cbn. intros e He. lia.
Qed.

Lemma import_report_accounts_for_rows_witness :
  let rows := [Shop.row (JS.Str "C") (JS.Str "Gimel") (JS.Str "4");
               None;
               Shop.row (JS.Str "A") (JS.Str "Alef") (JS.Str "1");
               Shop.row (JS.Str "D") (JS.Str "Dalet") (JS.Str "x")] in
  exists report db' bs,
    post_api_import_books_tsv Shop.clock Shop.db (Some rows)
    = (Success report, db') /\
    books db' = (books Shop.db ++ bs)%list /\
    insertedCount report = Z.of_nat (List.length bs) /\
    insertedCount report + skippedExisting report
    + Z.of_nat (List.length (errors report)) + 1 = 4.
Proof.
  intros rows.
  destruct (post_api_import_books_tsv Shop.clock Shop.db (Some rows))
    as [[e|report] db'] eqn:E; [discriminate E|].
  destruct (import_report_accounts_for_rows _ _ _ _ _ E)
    as (bs & ms & B & _ & _ & _ & I & _ & C & _).
  exists report, db', bs. repeat split; assumption.
Defined.

(** X5. No request rewrites the history or the sellers: after any request
    the sellers, the movements and the sales are those loaded, in their
    order, followed by what the request pushed. *)
Theorem history_only_grows (db : DB) (r : request) (ok : bool) (db' : DB) :
  handle db r = Some (ok, db') ->
  exists newSellers ms ss,
    sellers db' = (sellers db ++ newSellers)%list /\
    stockMovements db' = (stockMovements db ++ ms)%list /\
    sales db' = (sales db ++ ss)%list.
Proof.
  assert (Hsame : exists (newSellers : list Seller.t) (ms : list Movement.t)
                         (ss : list Sale.t),
             sellers db = (sellers db ++ newSellers)%list /\
             stockMovements db = (stockMovements db ++ ms)%list /\
             sales db = (sales db ++ ss)%list).
  { exists [], [], []. now rewrite !app_nil_r. }
  destruct r; cbn [handle].
  - destruct (post_api_books draws db body) as [[res db1]|] eqn:E;
      [|discriminate].
    intros [= _ <-]. revert E. unfold post_api_books.
    repeat match goal with
    | |- context [if ?c then _ else _] => destruct c
    | |- context [match ?x with _ => _ end] => destruct x
    end; intros H; try discriminate H; inversion H; subst;
      exact Hsame.
  - unfold post_api_books_delete.
    destruct ids as [[|v rest]|]; cbv zeta; intros [= _ <-]; exact Hsame.
  - unfold post_api_sellers.
    destruct (_ =? "")%string; [intros [= _ <-]; exact Hsame|].
    destruct (_ =? "")%string; [intros [= _ <-]; exact Hsame|].
    destruct (existsb _ _); intros [= _ <-]; [exact Hsame|].
    eexists [_], [], []. cbn [sellers stockMovements sales]. unfold push.
    now rewrite !app_nil_r.
  - unfold post_api_stock_in.
    destruct (parseIntOrZero qty) as [q|]; [|intros [= _ <-]; exact Hsame].
    destruct (_ || _); [intros [= _ <-]; exact Hsame|].
    destruct (findByBarcode _ _) as [[ref book]|]; intros [= _ <-];
      [|exact Hsame].
    eexists [], [_], []. cbn [sellers stockMovements sales]. unfold push.
    now rewrite !app_nil_r.
  - unfold post_api_stock_sale.
    destruct (parseIntOrZero qty) as [q|]; [|intros [= _ <-]; exact Hsame].
    destruct (_ || _); [intros [= _ <-]; exact Hsame|].
    destruct (findByBarcode _ _) as [[ref book]|];
      [|intros [= _ <-]; exact Hsame].
    destruct (findSeller _ _) as [[k seller]|];
      [|intros [= _ <-]; exact Hsame].
    destruct (_ <? _); intros [= _ <-]; [exact Hsame|].
    eexists [], [_], [_]. cbn [sellers stockMovements sales]. unfold push.
    now rewrite !app_nil_r.
  - unfold post_api_sales_quick.
    destruct (_ =? _)%string; [intros [= _ <-]; exact Hsame|].
    destruct items as [[|item later]|]; try (intros [= _ <-]; exact Hsame).
    destruct (findSeller _ _) as [[k seller]|];
      [|intros [= _ <-]; exact Hsame].
    destruct (normalizeItems _ _ _ _) as [e|normalizedItems] eqn:Hnorm;
      intros [= _ <-]; [exact Hsame|].
    pose proof (normalizeItems_validRef _ _ _ _ _ Hnorm (Forall_nil _)) as Hv.
    cbn [sellers stockMovements sales].
    match goal with
    | |- context [fold_left ?f ?l ?st0] =>
        destruct (forEach_applyItem_history (Seller.name seller)
                    (trimmedOrEmpty sellerBarcode) now l st0 Hv)
          as (ms & ss & M & S & _)
    end.
    exists [], ms, ss. rewrite app_nil_r. auto.
  - unfold post_api_import_books_tsv.
    destruct rows as [rows|]; intros [= _ <-]; [|exact Hsame].
    cbn [sellers stockMovements sales].
    match goal with
    | |- context [forEachRow clock rows 0 ?st0] =>
        destruct (forEachRow_accounting clock rows 0 st0)
          as (bs & ms & es & _ & M & _)
    end.
    exists [], ms, []. rewrite !app_nil_r. auto.
Qed.

Lemma history_only_grows_witness :
  exists ms ss,
    stockMovements
      (snd (post_api_stock_sale Shop.noon Shop.dbRestocked (JS.Str "A")
              (JS.Str "S1") (JS.Num 2)))
    = (Shop.arrival :: ms)%list /\
    sales (snd (post_api_stock_sale Shop.noon Shop.dbRestocked (JS.Str "A")
                  (JS.Str "S1") (JS.Num 2))) = ss.
Proof.
  destruct (history_only_grows Shop.dbRestocked
              (PostStockSale Shop.noon (JS.Str "A") (JS.Str "S1") (JS.Num 2))
              true
              (snd (post_api_stock_sale Shop.noon Shop.dbRestocked
                      (JS.Str "A") (JS.Str "S1") (JS.Num 2))) eq_refl)
    as (newSellers & ms & ss & _ & M & S).
  exists ms, ss. split; [exact M|exact S].
Defined.

(** ** Sales compared *)

Lemma sale_total_is_a_number (price : JS.num) (q : Z) :
  0 < q ->
  JS.eqb (JS.add (JS.ofZ 0) (JS.mul (JS.orZero price) (JS.ofZ q)))
         (JS.mul (JS.orZero price) (JS.ofZ q)) = true.
Proof.
  intros Hq. destruct price as [|s|p]; cbn -[Qeq_bool Qplus Qmult].
  - apply Qeq_bool_iff, Qplus_0_l.
  - destruct (Z.eqb_spec q 0); [lia|]. cbn. apply eqb_reflx.
  - destruct (Qnum p =? 0); cbn -[Qeq_bool Qplus Qmult];
      apply Qeq_bool_iff, Qplus_0_l.
Qed.

Ltac compare_sales :=
  cbn; repeat split; try reflexivity; intros; try discriminate.

(** X6. A quick sale of one item does what the single sale of this item
    does: both succeed or both fail; they leave the same books, sellers
    and sales, and the same movements but for the text of the note; on
    success the quantity and the amount of the quick sale are those of
    the single sale. *)
Theorem quick_sale_of_one_item_is_a_sale (now : string) (db : DB)
  (bookBarcode sellerBarcode qty : JS.value) :
  let single := post_api_stock_sale now db bookBarcode sellerBarcode qty in
  let quick :=
    post_api_sales_quick now db sellerBarcode
      (Some [Item.mk bookBarcode qty]) in
  isSuccess (fst single) = isSuccess (fst quick) /\
  books (snd single) = books (snd quick) /\
  sellers (snd single) = sellers (snd quick) /\
  sales (snd single) = sales (snd quick) /\
  map withoutNote (stockMovements (snd single))
  = map withoutNote (stockMovements (snd quick)) /\
  forall receipt, fst single = Success receipt ->
    exists quickReceipt,
      fst quick = Success quickReceipt /\
      itemsCount quickReceipt = 1 /\
      totalQty quickReceipt = soldQty receipt /\
      JS.eqb (totalAmount quickReceipt) (total receipt) = true.
Proof.
  intros single quick. subst single quick.
  unfold post_api_stock_sale, post_api_sales_quick.
  cbn [normalizeItems Item.barcode Item.qty].
  destruct (parseIntOrZero qty) as [q|].
  2:{ destruct (_ =? "")%string; [compare_sales|].
      destruct (findSeller _ _) as [[k seller]|]; compare_sales. }
  destruct (trimmedOrEmpty sellerBarcode =? "")%string;
    [rewrite orb_true_r; compare_sales|].
  destruct (trimmedOrEmpty bookBarcode =? "")%string;
    [destruct (findSeller _ _) as [[k seller]|]; compare_sales|].
  cbn [orb].
  destruct (Z.leb_spec q 0) as [Hq|Hq];
    [destruct (findSeller _ _) as [[k seller]|]; compare_sales|].
  destruct (findByBarcode _ _) as [[ref book]|] eqn:Hbook;
    [|destruct (findSeller _ _) as [[k seller]|]; compare_sales].
  destruct (findSeller _ _) as [[k seller]|]; [|compare_sales].
  destruct (_ <? _); [compare_sales|].
  destruct (findRef_Some _ _ _ _ Hbook) as (Hnth & _).
  cbn [fold_left push app]. unfold applyItem.
  cbn [Quick.books Normalized.book Normalized.qty Normalized.barcode].
  rewrite Hnth.
  cbn [fst snd books sellers sales stockMovements isSuccess Quick.books
       Quick.movements Quick.sales Quick.totalAmount Quick.totalQty
       List.length].
  split; [reflexivity|]. split.
  { apply modifyAt_ext. intros x Hx. rewrite Hnth in Hx.
    now injection Hx as <-. }
  split; [reflexivity|]. split; [reflexivity|]. split.
  { unfold push. rewrite !map_app. reflexivity. }
  intros receipt [= <-]. eexists. split; [reflexivity|].
  cbn [itemsCount totalQty totalAmount soldQty total].
  split; [reflexivity|]. split; [reflexivity|].
  now apply sale_total_is_a_number.
Qed.

(** ** Requests in sequence *)

Lemma findRef_modifyAt {A} (p : A -> bool) (f : A -> A) (arr : list A) ref x :
  findRef p arr = Some (ref, x) -> p (f x) = true ->
  findRef p (modifyAt ref f arr) = Some (ref, f x).
Proof.
  revert ref. induction arr as [|a arr IH]; intros ref; cbn; [discriminate|].
  destruct (p a) eqn:Hp.
  - intros [= <- <-] Hf. cbn. now rewrite Hf.
  - destruct (findRef p arr) as [[k y]|] eqn:E; [|discriminate].
    intros [= <- <-] Hf. cbn. rewrite Hp, (IH k eq_refl Hf). reflexivity.
Qed.

Lemma modifyAt_twice {A} (f g : A -> A) ref (arr : list A) :
  modifyAt ref g (modifyAt ref f arr) = modifyAt ref (fun x => g (f x)) arr.
Proof.
  revert ref. induction arr as [|a arr IH]; intros [|r]; cbn; auto.
  now rewrite IH.
Qed.

Lemma modifyAt_same {A} (f : A -> A) ref (arr : list A) :
  (forall x, nth_error arr ref = Some x -> f x = x) ->
  modifyAt ref f arr = arr.
Proof.
  revert ref. induction arr as [|a arr IH]; intros [|r] H; cbn; auto.
  - now rewrite H.
  - now rewrite IH.
Qed.

(** X7. Selling what just came in gives the books back. When no current
    quantity is negative, after an incoming stock that succeeds and leaves
    the book with a safe integer as current quantity, the single sale of
    the same barcode and quantity to a seller of the shop succeeds and
    leaves the books exactly as they were before the stock came in. *)
Theorem restock_then_sale_restores_books (now later : string) (db : DB)
  (barcode qty note sellerBarcode : JS.value) (restocked : Book.t)
  (db1 : DB) (i : nat) (seller : Seller.t) :
  nonNegative db ->
  post_api_stock_in now db barcode qty note = (Success restocked, db1) ->
  safeInteger (Book.current_qty restocked) ->
  trimmedOrEmpty sellerBarcode <> "" ->
  findSeller (trimmedOrEmpty sellerBarcode) (sellers db) = Some (i, seller) ->
  exists receipt db2,
    post_api_stock_sale later db1 barcode sellerBarcode qty
    = (Success receipt, db2) /\
    parseIntOrZero qty = Some (soldQty receipt) /\
    books db2 = books db.
Proof.
  intros Hpos Hin _ Hs Hseller. revert Hin.
  unfold post_api_stock_in, post_api_stock_sale.
  destruct (parseIntOrZero qty) as [q|]; [|discriminate].
  destruct (trimmedOrEmpty barcode =? "")%string; [discriminate|].
  apply String.eqb_neq in Hs. rewrite Hs. cbn [orb].
  destruct (Z.leb_spec q 0) as [Hq|Hq]; [discriminate|].
  destruct (findByBarcode _ _) as [[ref book]|] eqn:Hbook; [|discriminate].
  intros [= _ <-]. cbn [books sellers stockMovements sales].
  unfold findByBarcode in *.
  destruct (findRef_Some _ _ _ _ Hbook) as (Hnth & Hp & _).
  rewrite (findRef_modifyAt _ _ _ _ _ Hbook) by exact Hp.
  rewrite Hseller. cbn [Book.current_qty Book.set_current_qty].
  rewrite !orZeroZ_id.
  assert (Hcur : 0 <= Book.current_qty book).
  { unfold nonNegative in Hpos. rewrite Forall_forall in Hpos.
    apply Hpos. eapply nth_error_In. exact Hnth. }
  destruct (Z.ltb_spec (Book.current_qty book + q) q); [lia|].
  eexists _, _. split; [reflexivity|].
  cbn [soldQty books]. split; [reflexivity|].
  rewrite modifyAt_twice. apply modifyAt_same.
  intros x Hx. rewrite Hnth in Hx. injection Hx as <-.
  destruct book. unfold Book.set_current_qty.
  cbn [Book.id Book.barcode Book.title Book.author Book.publisher
       Book.shelf Book.price Book.initial_qty Book.current_qty].
  f_equal. lia.
Qed.

Lemma restock_then_sale_restores_books_witness :
  exists receipt db2,
    post_api_stock_sale Shop.noon
      (snd (post_api_stock_in Shop.noon Shop.db (JS.Str "B") (JS.Str "3")
              JS.Undefined))
      (JS.Str "B") (JS.Str "S1") (JS.Str "3")
    = (Success receipt, db2) /\
    books db2 = books Shop.db.
Proof.
  destruct (restock_then_sale_restores_books Shop.noon Shop.noon Shop.db
              (JS.Str "B") (JS.Str "3") JS.Undefined (JS.Str "S1")
              (Book.set_current_qty 8 Shop.bookB)
              (snd (post_api_stock_in Shop.noon Shop.db (JS.Str "B")
                      (JS.Str "3") JS.Undefined))
              0%nat Shop.dan)
    as (receipt & db2 & H & _ & B).
  - repeat constructor; discriminate.
  - reflexivity.
  - unfold safeInteger. cbn. lia.
  - discriminate.
  - reflexivity.
  - exists receipt, db2. split; assumption.
Defined.

Lemma filter_twice {A} (p : A -> bool) (l : list A) :
  filter p (filter p l) = filter p l.
Proof.
  induction l as [|a l IH]; [reflexivity|]. cbn [filter].
  destruct (p a) eqn:Hp; [|exact IH]. cbn [filter]. now rewrite Hp, IH.
Qed.

(** X8. Deleting twice deletes nothing more: after a deletion, the same
    deletion again succeeds with [deletedCount] 0 and leaves the document
    as the first one left it. *)
Theorem delete_twice_deletes_nothing_more (db : DB) (v : JS.value)
  (rest : list JS.value) :
  let db1 := snd (post_api_books_delete db (Some (v :: rest))) in
  post_api_books_delete db1 (Some (v :: rest)) = (Success 0, db1).
Proof.
  unfold post_api_books_delete. cbn [snd books sellers stockMovements sales].
  rewrite filter_twice, Z.sub_diag. reflexivity.
Qed.

Lemma barcodeExists_app barcode (bks more : list Book.t) :
  barcodeExists barcode bks = true ->
  barcodeExists barcode (bks ++ more) = true.
Proof.
  unfold barcodeExists. rewrite existsb_app. intros ->. reflexivity.
Qed.

Lemma settledRow_app bks more row :
  settledRow bks row -> settledRow (bks ++ more) row.
Proof.
  destruct row as [r|]; [|auto]. cbn.
  intros [H|[H|[H|H]]]; auto. right. right. left.
  now apply barcodeExists_app.
Qed.

(** After a row is handled it is settled. *)
Lemma importRow_settles clock st row index :
  settledRow (ImportState.books (importRow clock st row index)) row.
Proof.
  destruct row as [r|]; [|exact I]. unfold importRow. cbn.
  destruct (String.eqb_spec (trimmedOrEmpty (Row.title r)) ""); [auto|].
  destruct (String.eqb_spec (trimmedOrEmpty (Row.barcode r)) ""); [auto|].
  destruct (barcodeExists (trimmedOrEmpty (Row.barcode r))
              (ImportState.books st)) eqn:Hex; [auto|].
  destruct (JS.isNaN _ || JS.ltZero _) eqn:Hp; [auto 6|].
  destruct (parseIntOrZero _) as [q|] eqn:Hq; [|auto 7].
  destruct (Z.ltb_spec q 0); [right; right; right; right; right; eauto|].
  cbn [ImportState.books]. right. right. left.
  unfold push, barcodeExists. rewrite existsb_app. cbn.
  now rewrite String.eqb_refl, orb_true_r.
Qed.

Lemma forEachRow_settles clock rows index st :
  Forall (settledRow (ImportState.books (forEachRow clock rows index st)))
         rows.
Proof.
  revert index st. induction rows as [|row rows IH]; intros index st;
    [constructor|].
  cbn [forEachRow]. constructor; [|apply IH].
  destruct (forEachRow_accounting clock rows (index + 1)
              (importRow clock st row index)) as (bs & _ & _ & -> & _).
  apply settledRow_app, importRow_settles.
Qed.

(** A settled row leaves the books, the movements and the counters. *)
Lemma importRow_of_settled clock st row index :
  settledRow (ImportState.books st) row ->
  let st' := importRow clock st row index in
  ImportState.books st' = ImportState.books st /\
  ImportState.movements st' = ImportState.movements st /\
  ImportState.insertedCount st' = ImportState.insertedCount st.
Proof.
  destruct row as [r|]; [|auto]. unfold importRow. cbn.
  intros H.
  destruct (String.eqb_spec (trimmedOrEmpty (Row.title r)) ""); [auto|].
  destruct (String.eqb_spec (trimmedOrEmpty (Row.barcode r)) ""); [auto|].
  destruct (barcodeExists _ _) eqn:Hex; [auto|].
  destruct (JS.isNaN _ || JS.ltZero _) eqn:Hp; [auto|].
  destruct (parseIntOrZero _) as [q|] eqn:Hq; [|auto].
  destruct (Z.ltb_spec q 0); [auto|].
  exfalso.
  destruct H as [H|[H|[H|[H|[H|(q' & H & Hneg)]]]]]; try congruence.
  injection H as <-. lia.
Qed.

Lemma forEachRow_of_settled clock rows index st :
  Forall (settledRow (ImportState.books st)) rows ->
  let st' := forEachRow clock rows index st in
  ImportState.books st' = ImportState.books st /\
  ImportState.movements st' = ImportState.movements st /\
  ImportState.insertedCount st' = ImportState.insertedCount st.
Proof.
  revert index st. induction rows as [|row rows IH]; intros index st Hall;
    [auto|].
  inversion Hall as [|? ? Hrow Hrows]; subst. cbn [forEachRow].
  destruct (importRow_of_settled clock st row index Hrow) as (B & M & I).
  destruct (IH (index + 1) (importRow clock st row index)) as (B' & M' & I').
  { now rewrite B. }
  repeat split; congruence.
Qed.

(** X9. Importing the same rows again inserts nothing: after an import,
    the import of the same rows succeeds with [insertedCount] 0 and leaves
    the document as the first import left it; each row is skipped or is
    an error again. *)
Theorem import_again_inserts_nothing (clock later : Z -> string) (db : DB)
  (rows : list (option Row.t)) :
  let db1 := snd (post_api_import_books_tsv clock db (Some rows)) in
  exists report,
    post_api_import_books_tsv later db1 (Some rows) = (Success report, db1)
    /\ insertedCount report = 0.
Proof.
  unfold post_api_import_books_tsv.
  cbn [snd books sellers stockMovements sales].
  set (st1 := forEachRow clock rows 0 _).
  pose proof (forEachRow_settles clock rows 0
                (ImportState.mk (books db) (stockMovements db)
                   (nextId Book.id (books db))
                   (nextId Movement.id (stockMovements db)) 0 0 []))
    as Hsettled.
  fold st1 in Hsettled.
  match goal with
  | |- context [forEachRow later rows 0 ?st0] =>
      destruct (forEachRow_of_settled later rows 0 st0 Hsettled)
        as (B & M & I)
  end.
  cbn [ImportState.books ImportState.movements ImportState.insertedCount]
    in B, M, I.
  eexists. rewrite B, M. split; [reflexivity|]. exact I.
Qed.

(** ** Searches and lookups *)

Lemma toLowerCase_app (a b : string) :
  toLowerCase (a ++ b) = toLowerCase a ++ toLowerCase b.
Proof. induction a as [|c a IH]; cbn; [reflexivity|now rewrite IH]. Qed.

Lemma startsWith_app (hay needle post : string) :
  startsWith hay needle = true -> startsWith (hay ++ post) needle = true.
Proof.
  revert hay. induction needle as [|c needle IH]; intros hay;
    [reflexivity|].
  destruct hay as [|d hay]; cbn; [discriminate|].
  destruct (c =? d)%char; [apply IH|discriminate].
Qed.

Lemma includes_app_post (hay needle post : string) :
  includes hay needle = true -> includes (hay ++ post) needle = true.
Proof.
  induction hay as [|c hay IH]; cbn [includes append].
  - rewrite orb_false_r. intros H.
    destruct needle; [now destruct post|discriminate H].
  - intros H. apply orb_true_iff in H. apply orb_true_iff.
    destruct H as [H|H]; [left|right; now apply IH].
    now apply (startsWith_app (String.String c hay) needle post).
Qed.

Lemma includes_app_pre (pre hay needle : string) :
  includes hay needle = true -> includes (pre ++ hay) needle = true.
Proof.
  intros H. induction pre as [|c pre IH]; [exact H|].
  cbn [append includes]. rewrite IH. apply orb_true_r.
Qed.

Lemma toLowerCase_join (fields : list string) :
  toLowerCase (joinWithSpace fields)
  = joinWithSpace (map toLowerCase fields).
Proof.
  induction fields as [|f [|g rest] IH]; [reflexivity|reflexivity|].
  cbn [joinWithSpace map] in *. rewrite !toLowerCase_app, IH. reflexivity.
Qed.

Lemma includes_join (fields : list string) (field needle : string) :
  In field fields -> includes field needle = true ->
  includes (joinWithSpace fields) needle = true.
Proof.
  intros Hin Hinc. induction fields as [|f rest IH]; [inversion Hin|].
  destruct rest as [|g rest].
  - destruct Hin as [<-|[]]. exact Hinc.
  - cbn [joinWithSpace]. destruct Hin as [<-|Hin].
    + now apply includes_app_post.
    + apply includes_app_pre, includes_app_pre. now apply IH.
Qed.

(** X10. A search returns, in their order, books (sellers) of the shop; it
    returns all of them when the query is absent or blank; and it returns
    every book (seller) one of whose fields read by the search contains
    the query, the query being trimmed and the letter case being
    ignored on both sides. *)
Theorem search_finds_matching_fields (db : DB) (q : option string) :
  (searchText q = "" ->
   get_api_books_search db q = books db /\
   get_api_sellers_search db q = sellers db) /\
  (forall b, In b (get_api_books_search db q) -> In b (books db)) /\
  (forall s, In s (get_api_sellers_search db q) -> In s (sellers db)) /\
  (forall b field,
     In b (books db) -> In field (bookFields b) ->
     includes (toLowerCase field) (searchText q) = true ->
     In b (get_api_books_search db q)) /\
  (forall s field,
     In s (sellers db) -> In field (sellerFields s) ->
     includes (toLowerCase field) (searchText q) = true ->
     In s (get_api_sellers_search db q)).
Proof.
  unfold get_api_books_search, get_api_sellers_search.
  split; [|split; [|split; [|split]]].
  - intros ->. split; reflexivity.
  - intros b. destruct (negb _); [|auto]. intros H.
    now apply filter_In in H.
  - intros s. destruct (negb _); [|auto]. intros H.
    now apply filter_In in H.
  - intros b field Hb Hf Hinc. destruct (negb _); [|exact Hb].
    apply filter_In. split; [exact Hb|]. rewrite toLowerCase_join.
    apply (includes_join _ (toLowerCase field)); [|exact Hinc].
    now apply in_map.
  - intros s field Hs Hf Hinc. destruct (negb _); [|exact Hs].
    apply filter_In. split; [exact Hs|]. rewrite toLowerCase_join.
    apply (includes_join _ (toLowerCase field)); [|exact Hinc].
    now apply in_map.
Qed.

Lemma search_finds_matching_fields_witness :
  In Shop.bookB (get_api_books_search Shop.db (Some "  BET ")) /\
  get_api_sellers_search Shop.db (Some "   ") = [Shop.dan].
Proof.
  destruct (search_finds_matching_fields Shop.db (Some "  BET "))
    as (_ & _ & _ & Hbook & _).
  destruct (search_finds_matching_fields Shop.db (Some "   "))
    as (Hblank & _).
  split.
  - apply (Hbook Shop.bookB "Bet").
    + right. left. reflexivity.
    + left. reflexivity.
    + reflexivity.
  - apply Hblank. reflexivity.
Defined.

Lemma findRef_push_fresh {A} (p : A -> bool) (arr : list A) (x : A) :
  existsb p arr = false -> p x = true ->
  findRef p (push arr x) = Some (List.length arr, x).
Proof.
  unfold push. induction arr as [|a arr IH]; cbn; intros Hex Hx.
  - now rewrite Hx.
  - apply orb_false_iff in Hex. destruct Hex as [-> Hex].
    now rewrite (IH Hex Hx).
Qed.

(** In an array of unique keys, the search for the key of an element
    finds this element. *)
Lemma findRef_unique_key {A} (key : A -> string) (arr : list A) i x :
  NoDup (map key arr) -> nth_error arr i = Some x ->
  findRef (fun y => (key y =? key x)%string) arr = Some (i, x).
Proof.
  revert i. induction arr as [|a arr IH]; intros [|i] Hu Hx;
    try discriminate Hx; cbn in *.
  - injection Hx as ->. now rewrite String.eqb_refl.
  - apply NoDup_cons_iff in Hu. destruct Hu as [Ha Hu].
    destruct (String.eqb_spec (key a) (key x)) as [E|_].
    + exfalso. apply Ha. rewrite E. apply in_map.
      eapply nth_error_In. exact Hx.
    + now rewrite (IH i Hu Hx).
Qed.

(** X11. What [POST /api/books] answers is what the lookup by barcode
    finds afterwards: the book created is found under its barcode, and so
    is the book updated when the barcodes of the books are unique. *)
Theorem saved_book_is_found_by_barcode (draws : list (Z * Z)) (db : DB)
  (body : BookReq.t) (b : Book.t) (db' : DB) :
  JS.truthy (BookReq.id body) = false \/ uniqueBarcodes db ->
  post_api_books draws db body = Some (Success b, db') ->
  get_api_books_by_barcode db' (Book.barcode b) = Success b.
Proof.
  intros Hcase Hpost. unfold get_api_books_by_barcode, findByBarcode.
  destruct (JS.truthy (BookReq.id body)) eqn:Hid.
  - destruct Hcase as [Hcase|Hu]; [discriminate Hcase|].
    destruct (books_post_keeps_barcodes_unique draws db body _ _ Hu Hpost)
      as [Hu' _].
    revert Hpost Hu'. unfold post_api_books. rewrite Hid.
    destruct (negb _ || _); [discriminate|].
    destruct (JS.isNaN _ || JS.ltZero _); [discriminate|].
    destruct (parseIntOrZero _) as [q|]; [|discriminate].
    destruct (q <? 0); [discriminate|].
    destruct (findRef _ _) as [[ref existing]|] eqn:Hf; [|discriminate].
    destruct (_ && _); [discriminate|].
    intros [= <- <-] Hu'. unfold uniqueBarcodes in Hu'. cbn [books] in *.
    destruct (findRef_Some _ _ _ _ Hf) as (Hn & _).
    match goal with
    | |- context [modifyAt ref ?f (books db)] =>
        pose proof (nth_error_modifyAt_same ref f (books db) existing Hn)
          as Hn'
    end.
    now rewrite (findRef_unique_key Book.barcode _ _ _ Hu' Hn').
  - revert Hpost. unfold post_api_books. rewrite Hid.
    destruct (negb _ || _); [discriminate|].
    destruct (JS.isNaN _ || JS.ltZero _); [discriminate|].
    destruct (parseIntOrZero _) as [q|]; [|discriminate].
    destruct (q <? 0); [discriminate|].
    destruct (negb _ && _) eqn:Htaken; [discriminate|].
    match goal with
    | |- context [match ?c with Some _ => _ | None => _ end] =>
        destruct c as [code|] eqn:Hcode
    end; [|discriminate].
    intros [= <- <-]. cbn [books Book.barcode].
    assert (Hfresh : barcodeExists code (books db) = false).
    { destruct (_ =? "")%string eqn:Hempty.
      - now apply generateCode_fresh in Hcode.
      - injection Hcode as <-. cbn [negb andb] in Htaken. exact Htaken. }
    rewrite findRef_push_fresh; [reflexivity|exact Hfresh|].
    cbn. apply String.eqb_refl.
Qed.

Lemma saved_book_is_found_by_barcode_witness :
  exists b db',
    post_api_books [(1700000012345, 7)] Shop.db
      (Shop.bookBody JS.Undefined JS.Undefined (JS.Str "Gimel") (JS.Str "1"))
    = Some (Success b, db') /\
    get_api_books_by_barcode db' (Book.barcode b) = Success b /\
    Book.barcode b = "B00012345007".
Proof.
  destruct (post_api_books [(1700000012345, 7)] Shop.db
              (Shop.bookBody JS.Undefined JS.Undefined (JS.Str "Gimel")
                             (JS.Str "1")))
    as [[[e|b] db']|] eqn:E; try discriminate E.
  exists b, db'. split; [reflexivity|]. split.
  - apply (saved_book_is_found_by_barcode [(1700000012345, 7)] Shop.db
             (Shop.bookBody JS.Undefined JS.Undefined (JS.Str "Gimel")
                            (JS.Str "1")) b db' (or_introl eq_refl) E).
  - vm_compute in E. injection E as <- _. reflexivity.
Defined.

(** X12. A seller is created under the trimmed name and barcode, with the
    identifier that follows, and is found afterwards by this barcode; the
    creation leaves the books, the movements and the sales. *)
Theorem created_seller_is_found_by_barcode (now : string) (db : DB)
  (name barcode : JS.value) (seller : Seller.t) (db' : DB) :
  post_api_sellers now db name barcode = (Success seller, db') ->
  seller = Seller.mk (nextId Seller.id (sellers db)) (trimmedOrEmpty name)
                     (trimmedOrEmpty barcode) now /\
  Seller.name seller <> "" /\ Seller.barcode seller <> "" /\
  get_api_sellers_by_barcode db (Seller.barcode seller)
  = Failure SellerNotFound /\
  get_api_sellers_by_barcode db' (Seller.barcode seller) = Success seller /\
  sellers db' = push (sellers db) seller /\
  books db' = books db /\ stockMovements db' = stockMovements db /\
  sales db' = sales db.
Proof.
  unfold post_api_sellers, get_api_sellers_by_barcode, findSeller.
  destruct (String.eqb_spec (trimmedOrEmpty name) ""); [discriminate|].
  destruct (String.eqb_spec (trimmedOrEmpty barcode) ""); [discriminate|].
  destruct (existsb _ _) eqn:Hex; [discriminate|].
  intros [= <- <-]. cbn [Seller.name Seller.barcode sellers books
                         stockMovements sales].
  rewrite findRef_push_fresh; [|exact Hex|cbn; apply String.eqb_refl].
  apply findRef_None in Hex. rewrite Hex. repeat split; auto.
Qed.

Lemma created_seller_is_found_by_barcode_witness :
  exists seller db',
    post_api_sellers Shop.noon Shop.db (JS.Str " Rut ") (JS.Str " S2 ")
    = (Success seller, db') /\
    get_api_sellers_by_barcode db' "S2" = Success seller /\
    Seller.id seller = 2.
Proof.
  destruct (post_api_sellers Shop.noon Shop.db (JS.Str " Rut ")
              (JS.Str " S2 ")) as [[e|seller] db'] eqn:E;
    [discriminate E|].
  destruct (created_seller_is_found_by_barcode _ _ _ _ _ _ E)
    as (Hs & _ & _ & _ & Hfound & _).
  exists seller, db'. split; [reflexivity|].
  rewrite Hs in *. split; [exact Hfound|reflexivity].
Defined.

Lemma same_barcode_same_book (bks : list Book.t) (x y : Book.t) :
  NoDup (map Book.barcode bks) -> In x bks -> In y bks ->
  Book.barcode x = Book.barcode y -> x = y.
Proof.
  induction bks as [|a bks IH]; cbn; intros Hu Hx Hy E; [contradiction|].
  apply NoDup_cons_iff in Hu. destruct Hu as [Ha Hu].
  destruct Hx as [<-|Hx], Hy as [<-|Hy]; auto.
  - exfalso. apply Ha. rewrite E. now apply in_map.
  - exfalso. apply Ha. rewrite <- E. now apply in_map.
Qed.

(** X13. A deleted book is not found any more. When the barcodes of the
    books are unique, after a deletion that lists the identifier of a
    book, the lookup by the barcode of this book answers that no such book
    exists. *)
Theorem deleted_book_is_not_found (db : DB) (v : JS.value)
  (rest : list JS.value) (b : Book.t) :
  uniqueBarcodes db -> In b (books db) ->
  listed (Book.id b) (v :: rest) = true ->
  get_api_books_by_barcode (snd (post_api_books_delete db (Some (v :: rest))))
                           (Book.barcode b)
  = Failure BookNotFound.
Proof.
  intros Hu Hb Hl. unfold post_api_books_delete, get_api_books_by_barcode.
  cbn [snd books]. unfold findByBarcode.
  match goal with
  | |- context [findRef ?p ?l] => destruct (findRef p l) as [[i y]|] eqn:Hf
  end; [|reflexivity].
  exfalso. destruct (findRef_Some _ _ _ _ Hf) as (Hn & Hp & _).
  apply nth_error_In in Hn. apply filter_In in Hn. destruct Hn as [Hy Hkept].
  apply String.eqb_eq in Hp.
  assert (y = b) by (eapply same_barcode_same_book; eauto). subst y.
  rewrite setHas_listed, Hl in Hkept. discriminate Hkept.
Qed.

Lemma deleted_book_is_not_found_witness :
  get_api_books_by_barcode Shop.db "A" = Success Shop.bookA /\
  get_api_books_by_barcode
    (snd (post_api_books_delete Shop.db (Some [JS.Str "1"]))) "A"
  = Failure BookNotFound.
Proof.
  split; [reflexivity|].
  apply (deleted_book_is_not_found Shop.db (JS.Str "1") [] Shop.bookA).
  - repeat constructor; cbn; intuition discriminate.
  - left. reflexivity.
  - reflexivity.
Defined.

(** ** The text of a report *)

Lemma readChars_app (st : reader) (a b : string) :
  readChars st (a ++ b)
  = match readChars st a with
    | Some st' => readChars st' b
    | None => None
    end.
Proof.
  revert st. induction a as [|c a IH]; intros st; cbn; [reflexivity|].
  destruct (readChar st c); [apply IH|reflexivity].
Qed.

Lemma append_unit (a r : string) (c : ascii) :
  (a ++ String.String c "") ++ r = a ++ String.String c r.
Proof. induction a as [|d a IH]; cbn; [reflexivity|now rewrite IH]. Qed.

Lemma append_assoc_l (a b c : string) : (a ++ b) ++ c = a ++ (b ++ c).
Proof. induction a as [|d a IH]; cbn; [reflexivity|now rewrite IH]. Qed.

Lemma append_empty (a : string) : a ++ "" = a.
Proof. induction a as [|d a IH]; cbn; [reflexivity|now rewrite IH]. Qed.

(** Inside quotes, the reader takes the doubled quotes of a text for the
    text. *)
Lemma readChars_doubleQuotes d r (content s : string) :
  readChars (mkReader d r (InQuotes content)) (doubleQuotes s)
  = Some (mkReader d r (InQuotes (content ++ s))).
Proof.
  revert content. induction s as [|c s IH]; intros content.
  - cbn. now rewrite append_empty.
  - cbn [doubleQuotes]. destruct (Ascii.eqb_spec c quote) as [->|Hc].
    + cbn [readChars readChar current readRecords readFields].
      rewrite Ascii.eqb_refl.
      cbn [readChar current readRecords readFields].
      rewrite Ascii.eqb_refl, IH, append_unit. reflexivity.
    + cbn [readChars readChar current readRecords readFields].
      apply Ascii.eqb_neq in Hc. rewrite Hc, IH, append_unit. reflexivity.
Qed.

Section ToCsvFacts.
Context {V : Type} (toText : V -> option string).

Lemma readChars_esc d r (v : V) :
  readChars (mkReader d r AtStart) (esc toText v)
  = Some (mkReader d r (afterCell (toText v))).
Proof.
  unfold esc. destruct (toText v) as [s|]; [|reflexivity].
  cbn [readChars readChar current readRecords readFields afterCell].
  rewrite Ascii.eqb_refl, readChars_app, readChars_doubleQuotes.
  cbn [readChars readChar current readRecords readFields append].
  now rewrite Ascii.eqb_refl.
Qed.

Lemma readChar_tab d r (t : option string) :
  readChar (mkReader d r (afterCell t)) tab
  = Some (mkReader d (r ++ [t])%list AtStart).
Proof. now destruct t. Qed.

Lemma readChar_lineFeed d r (t : option string) :
  readChar (mkReader d r (afterCell t)) lineFeed
  = Some (mkReader (d ++ [r ++ [t]])%list [] AtStart).
Proof. now destruct t. Qed.

Lemma finishReading_afterCell d r (t : option string) :
  finishReading (mkReader d r (afterCell t)) = Some (d ++ [r ++ [t]])%list.
Proof. now destruct t. Qed.

(** The reader takes the line of a record with a cell at least for the
    texts of its cells, at the end of the text and before a line feed. *)
Lemma readFrom_last_record d r (v : V) (vs : list V) :
  readFrom (mkReader d r AtStart) (join tab (map (esc toText) (v :: vs)))
  = Some (d ++ [r ++ map toText (v :: vs)])%list.
Proof.
  revert v r. induction vs as [|v' vs IH]; intros v r.
  - cbn [map join]. unfold readFrom. rewrite readChars_esc.
    apply finishReading_afterCell.
  - change (join tab (map (esc toText) (v :: v' :: vs)))
      with (esc toText v
            ++ String.String tab (join tab (map (esc toText) (v' :: vs)))).
    unfold readFrom in *. rewrite readChars_app, readChars_esc.
    cbn [readChars]. rewrite readChar_tab, IH.
    cbn [map]. now rewrite <- app_assoc.
Qed.

Lemma readFrom_record d r (v : V) (vs : list V) (rest : string) :
  readFrom (mkReader d r AtStart)
    (join tab (map (esc toText) (v :: vs)) ++ String.String lineFeed rest)
  = readFrom (mkReader (d ++ [r ++ map toText (v :: vs)])%list [] AtStart)
      rest.
Proof.
  revert v r. induction vs as [|v' vs IH]; intros v r.
  - cbn [map join]. unfold readFrom. rewrite readChars_app, readChars_esc.
    cbn [readChars]. now rewrite readChar_lineFeed.
  - change (join tab (map (esc toText) (v :: v' :: vs)))
      with (esc toText v
            ++ String.String tab (join tab (map (esc toText) (v' :: vs)))).
    unfold readFrom in *.
    rewrite append_assoc_l, readChars_app, readChars_esc.
    cbn [readChars append]. rewrite readChar_tab, IH.
    cbn [map]. now rewrite <- app_assoc.
Qed.

Lemma readFrom_records d (record : list V) (records : list (list V)) :
  record <> [] -> Forall (fun r => r <> []) records ->
  readFrom (mkReader d [] AtStart)
    (join lineFeed
       (map (fun r => join tab (map (esc toText) r)) (record :: records)))
  = Some (d ++ map (map toText) (record :: records))%list.
Proof.
  revert d record. induction records as [|record' records IH];
    intros d record Hne Hall.
  - destruct record as [|v vs]; [congruence|].
    exact (readFrom_last_record d [] v vs).
  - inversion Hall as [|? ? Hne' Hall']; subst.
    destruct record as [|v vs]; [congruence|].
    change (join lineFeed
              (map (fun r => join tab (map (esc toText) r))
                   ((v :: vs) :: record' :: records)))
      with (join tab (map (esc toText) (v :: vs))
            ++ String.String lineFeed
                 (join lineFeed
                    (map (fun r => join tab (map (esc toText) r))
                         (record' :: records)))).
    rewrite readFrom_record, IH by assumption.
    cbn [map app]. now rewrite <- app_assoc.
Qed.

End ToCsvFacts.

(** X14. The text that [toCsv] builds reads back without loss. When the
    headers and each row have a cell at least, a reader that ends the
    fields at the tabs and the records at the line feeds outside quotes,
    and takes a doubled quote inside quotes for a quote, finds the header
    and the rows in order, each cell with its text (or nothing for a null
    cell), whatever tabs, line feeds and quotes the texts contain. *)
Theorem toCsv_reads_back {V : Type} (toText : V -> option string)
  (headers : list V) (rows : list (list V)) :
  headers <> [] -> Forall (fun r => r <> []) rows ->
  readTsv (toCsv toText headers rows)
  = Some (map (map toText) (headers :: rows)).
Proof.
  intros Hh Hr. unfold readTsv, toCsv.
  exact (readFrom_records toText [] headers rows Hh Hr).
Qed.

Lemma toCsv_reads_back_witness :
  let nasty := String.String quote
                 (String.String tab (String.String lineFeed "x")) in
  readTsv (toCsv valueText [JS.Str "id"; JS.Str "title"]
                 [[JS.Num 3; JS.Str nasty]; [JS.Null; JS.Str ""]])
  = Some [[Some "id"; Some "title"]; [Some "3"; Some nasty];
          [None; Some ""]].
Proof.
  intros nasty.
  apply (toCsv_reads_back valueText [JS.Str "id"; JS.Str "title"]
           [[JS.Num 3; JS.Str nasty]; [JS.Null; JS.Str ""]]).
  - discriminate.
  - repeat constructor; discriminate.
Defined.

(** ** The report of the sales *)

Lemma titleOf_cons barcode (a : Book.t) (bks : list Book.t) :
  titleOf barcode (a :: bks)
  = if (Book.barcode a =? barcode)%string then Book.title a
    else titleOf barcode bks.
Proof.
  unfold titleOf, findByBarcode. cbn [findRef].
  destruct (Book.barcode a =? barcode)%string; [reflexivity|].
  now destruct (findRef _ bks) as [[i y]|].
Qed.

Lemma titleOf_modifyAt barcode ref (f : Book.t -> Book.t)
  (bks : list Book.t) :
  (forall x, Book.barcode (f x) = Book.barcode x /\
             Book.title (f x) = Book.title x) ->
  titleOf barcode (modifyAt ref f bks) = titleOf barcode bks.
Proof.
  intros Hf. revert ref. induction bks as [|a bks IH]; intros [|r];
    cbn [modifyAt]; try reflexivity; rewrite !titleOf_cons.
  - destruct (Hf a) as [-> ->]. reflexivity.
  - now rewrite IH.
Qed.

Lemma titleOf_found barcode (bks : list Book.t) ref book :
  findByBarcode barcode bks = Some (ref, book) ->
  titleOf barcode bks = Book.title book.
Proof. unfold titleOf. now intros ->. Qed.

(** X15. A sale shows as the last row of the report of the sales. After
    a single sale that succeeds, the rows of the report are the rows
    before it, unchanged, followed by one row with the identifier and the
    date of the sale, the barcode and the title of the book, the barcode
    and the name of the seller, and the quantity and the total of the
    receipt. *)
Theorem sale_is_last_row_of_report (now : string) (db : DB)
  (bookBarcode sellerBarcode qty : JS.value) (receipt : saleReceipt)
  (db' : DB) :
  post_api_stock_sale now db bookBarcode sellerBarcode qty
  = (Success receipt, db') ->
  sales_csv_rows db'
  = (sales_csv_rows db ++
     [[idCell (nextId Sale.id (sales db)); Text now;
       Text (trimmedOrEmpty bookBarcode); Text (bookTitle receipt);
       Text (trimmedOrEmpty sellerBarcode); Text (sellerName receipt);
       Count (soldQty receipt); Amount (JS.orZero (total receipt))]])%list.
Proof.
  unfold post_api_stock_sale.
  destruct (parseIntOrZero qty) as [q|]; [|discriminate].
  destruct (_ || _); [discriminate|].
  destruct (findByBarcode _ _) as [[ref book]|] eqn:Hbook; [|discriminate].
  destruct (findSeller _ _) as [[k seller]|] eqn:Hseller; [|discriminate].
  destruct (_ <? _); [discriminate|].
  intros [= <- <-]. unfold sales_csv_rows, push.
  cbn [sales books sellers]. rewrite map_app. f_equal.
  - apply map_ext. intros s. unfold saleRow. cbn [books sellers].
    rewrite titleOf_modifyAt; [reflexivity|]. intros x. split; reflexivity.
  - cbn [map]. unfold saleRow.
    cbn [books sellers Sale.id Sale.date Sale.bookBarcode Sale.sellerBarcode
         Sale.qty Sale.total bookTitle sellerName soldQty total].
    rewrite titleOf_modifyAt by (intros x; split; reflexivity).
    rewrite (titleOf_found _ _ _ _ Hbook). unfold nameOf.
    rewrite Hseller, orZeroZ_id. reflexivity.
Qed.

Lemma sale_is_last_row_of_report_witness :
  exists receipt db',
    post_api_stock_sale Shop.noon Shop.db (JS.Str "B") (JS.Str "S1")
      (JS.Num 2) = (Success receipt, db') /\
    sales_csv_rows db'
    = [[Count 1; Text Shop.noon; Text "B"; Text "Bet"; Text "S1";
        Text "Dan"; Count 2; Amount (JS.orZero (total receipt))]].
Proof.
  destruct (post_api_stock_sale Shop.noon Shop.db (JS.Str "B") (JS.Str "S1")
              (JS.Num 2)) as [[e|receipt] db'] eqn:E; [discriminate E|].
  exists receipt, db'. split; [reflexivity|].
  rewrite (sale_is_last_row_of_report _ _ _ _ _ _ _ E).
  injection E as <- _. reflexivity.
Defined.

Lemma titleOf_filter_kept barcode (keep : Book.t -> bool)
  (bks : list Book.t) :
  (forall b, In b bks -> Book.barcode b = barcode -> keep b = true) ->
  titleOf barcode (filter keep bks) = titleOf barcode bks.
Proof.
  induction bks as [|a bks IH]; intros H; [reflexivity|].
  cbn [filter]. rewrite titleOf_cons.
  destruct (String.eqb_spec (Book.barcode a) barcode) as [E|E].
  - rewrite (H a (or_introl eq_refl) E), titleOf_cons.
    apply String.eqb_eq in E. now rewrite E.
  - destruct (keep a).
    + rewrite titleOf_cons. apply String.eqb_neq in E. rewrite E.
      apply IH. intros b Hb. apply H. now right.
    + apply IH. intros b Hb. apply H. now right.
Qed.

Lemma titleOf_filter_dropped (keep : Book.t -> bool) (bks : list Book.t)
  (b : Book.t) :
  NoDup (map Book.barcode bks) -> In b bks -> keep b = false ->
  titleOf (Book.barcode b) (filter keep bks) = "".
Proof.
  intros Hu Hb Hk. unfold titleOf, findByBarcode.
  destruct (findRef _ _) as [[i y]|] eqn:Hf; [|reflexivity].
  exfalso. destruct (findRef_Some _ _ _ _ Hf) as (Hn & Hp & _).
  apply nth_error_In in Hn. apply filter_In in Hn. destruct Hn as [Hy Hkept].
  apply String.eqb_eq in Hp.
  assert (y = b) by (eapply same_barcode_same_book; eauto). subst y.
  congruence.
Qed.

(** X16. The report of the sales keeps the sales of deleted books. When
    the barcodes of the books are unique, after a deletion the report has
    a row for each sale as before; the row of a sale whose book was
    deleted shows an empty title, the rest of the row being unchanged, and
    the row of any other sale is unchanged. *)
Theorem report_keeps_sales_of_deleted_books (db : DB) (v : JS.value)
  (rest : list JS.value) :
  uniqueBarcodes db ->
  let db' := snd (post_api_books_delete db (Some (v :: rest))) in
  sales db' = sales db /\
  List.length (sales_csv_rows db') = List.length (sales_csv_rows db) /\
  (forall s b,
     In b (books db) -> Book.barcode b = Sale.bookBarcode s ->
     listed (Book.id b) (v :: rest) = true ->
     saleRow db' s
     = [idCell (Sale.id s); Text (Sale.date s); Text (Sale.bookBarcode s);
        Text ""; Text (Sale.sellerBarcode s);
        Text (nameOf (Sale.sellerBarcode s) (sellers db));
        Count (JS.orZeroZ (Sale.qty s)); Amount (JS.orZero (Sale.total s))])
  /\
  (forall s,
     (forall b, In b (books db) -> Book.barcode b = Sale.bookBarcode s ->
                listed (Book.id b) (v :: rest) = false) ->
     saleRow db' s = saleRow db s).
Proof.
  intros Hu db'. subst db'. unfold post_api_books_delete.
  cbn [snd]. unfold sales_csv_rows, saleRow. cbn [books sellers sales].
  split; [reflexivity|]. split; [now rewrite !length_map|]. split.
  - intros s b Hb Hcode Hl. rewrite <- Hcode.
    rewrite (titleOf_filter_dropped _ _ b Hu Hb); [reflexivity|].
    now rewrite setHas_listed, Hl.
  - intros s H. rewrite titleOf_filter_kept; [reflexivity|].
    intros b Hb Hcode. now rewrite setHas_listed, (H b Hb Hcode).
Qed.

Lemma report_keeps_sales_of_deleted_books_witness :
  let sold := snd (post_api_stock_sale Shop.noon Shop.db (JS.Str "B")
                     (JS.Str "S1") (JS.Num 2)) in
  let db' := snd (post_api_books_delete sold (Some [JS.Num 2])) in
  map (fun row => nth 3 row (Text "?")) (sales_csv_rows sold) = [Text "Bet"]
  /\ map (fun row => nth 3 row (Text "?")) (sales_csv_rows db') = [Text ""].
Proof.
  intros sold db'. split; [reflexivity|].
  assert (Hu : uniqueBarcodes sold)
    by (repeat constructor; cbn; intuition discriminate).
  destruct (report_keeps_sales_of_deleted_books sold (JS.Num 2) [] Hu)
    as (_ & _ & Hdeleted & _).
  unfold sales_csv_rows.
  change (sales db') with [Sale.mk 1 "B" "S1" 2
                             (JS.mul (JS.orZero (JS.ofZ 7)) (JS.ofZ 2))
                             Shop.noon].
  cbn [map].
  rewrite (Hdeleted _ (Book.set_current_qty 3 Shop.bookB));
    [reflexivity| right; left; reflexivity | reflexivity | reflexivity].
Defined.

(** ** Incoming stock *)

(** X17. What [POST /api/stock/in] does, case by case. It succeeds exactly
    when the trimmed barcode is not empty, the quantity parses to a
    positive integer and a book has the barcode; the first such book then
    gains the quantity, the other books are untouched, one incoming
    movement with the barcode, the quantity, the note and the date is
    appended, and the lookup by barcode answers the book that was
    returned. It answers 400 when the barcode is empty or the quantity is
    not a positive integer, 404 when no book has the barcode, and writes
    nothing in both cases. *)
Theorem stock_in_adds_to_the_book (now : string) (db : DB)
  (barcode qty note : JS.value) :
  let code := trimmedOrEmpty barcode in
  match post_api_stock_in now db barcode qty note with
  | (Success restocked, db') =>
      exists ref book q,
        code <> "" /\ parseIntOrZero qty = Some q /\ 0 < q /\
        findByBarcode code (books db) = Some (ref, book) /\
        restocked = Book.set_current_qty (Book.current_qty book + q) book /\
        nth_error (get_api_books db') ref = Some restocked /\
        (forall j, j <> ref ->
           nth_error (get_api_books db') j = nth_error (get_api_books db) j) /\
        get_api_books_by_barcode db' code = Success restocked /\
        stockMovements db'
        = push (stockMovements db)
            (Movement.mk (nextId Movement.id (stockMovements db)) In_ code q
               (NoteGiven (stringOrEmpty note)) now) /\
        sellers db' = sellers db /\ sales db' = sales db
  | (Failure e, db') =>
      db' = db /\
      ((e = InvalidStockIn /\
        (code = "" \/ parseIntOrZero qty = None \/
         exists q, parseIntOrZero qty = Some q /\ q <= 0)) \/
       (e = BookNotFound /\ code <> "" /\
        findByBarcode code (books db) = None))
  end.
Proof.
  intros code. subst code. unfold post_api_stock_in.
  destruct (parseIntOrZero qty) as [q|]; [|split; [reflexivity|]; tauto].
  destruct (String.eqb_spec (trimmedOrEmpty barcode) "") as [E|E];
    cbn [orb]; [split; [reflexivity|]; tauto|].
  destruct (Z.leb_spec q 0) as [Hq|Hq];
    [split; [reflexivity|]; left; split; [reflexivity|]; eauto|].
  destruct (findByBarcode _ _) as [[ref book]|] eqn:Hfind;
    [|split; [reflexivity|]; tauto].
  destruct (findByBarcode_Some _ _ _ _ Hfind) as [Hnth Hcode].
  exists ref, book, q. rewrite orZeroZ_id.
  unfold get_api_books, get_api_books_by_barcode.
  cbn [books sellers sales stockMovements].
  repeat split; auto.
  - rewrite (nth_error_modifyAt_same _ _ _ _ Hnth). now rewrite orZeroZ_id.
  - intros j Hj. now apply nth_error_modifyAt_other.
  - unfold findByBarcode in *.
    rewrite (findRef_modifyAt _ _ _ _ _ Hfind).
    + now rewrite orZeroZ_id.
    + cbn. now apply String.eqb_eq.
Qed.

(** ** Generated barcodes *)

Lemma generateCode_first_free draws (bks : list Book.t) :
  match generateCode draws bks with
  | Some code =>
      exists taken now random later,
        draws = (taken ++ (now, random) :: later)%list /\
        Forall (fun d => barcodeExists (newCode (fst d) (snd d)) bks = true)
               taken /\
        code = newCode now random
  | None =>
      Forall (fun d => barcodeExists (newCode (fst d) (snd d)) bks = true)
             draws
  end.
Proof.
  induction draws as [|[now random] later IH]; cbn [generateCode];
    [constructor|].
  destruct (barcodeExists (newCode now random) bks) eqn:E.
  - destruct (generateCode later bks) as [code|].
    + destruct IH as (taken & n & r & l & -> & Hall & ->).
      exists ((now, random) :: taken), n, r, l.
      repeat split. now constructor.
    + now constructor.
  - exists [], now, random, later. repeat split. constructor.
Qed.

(** X18. A book saved without identifier and without barcode gets the
    first generated barcode that no book has. The loop goes through the
    readings of the clock and of the random generator; every reading
    before the one that is kept gives the barcode of some book, the
    barcode that is kept starts with B and is the barcode of no book, and
    the loop stops only when a reading gives a free barcode. *)
Theorem generated_barcode_is_first_free (draws : list (Z * Z)) (db : DB)
  (body : BookReq.t) :
  JS.truthy (BookReq.id body) = false ->
  trimmedOrEmpty (BookReq.barcode body) = "" ->
  let collides (d : Z * Z) :=
    barcodeExists (newCode (fst d) (snd d)) (books db) = true in
  match post_api_books draws db body with
  | Some (Success book, db') =>
      exists taken now random later,
        draws = (taken ++ (now, random) :: later)%list /\
        Forall collides taken /\
        Book.barcode book = newCode now random /\
        barcodeExists (Book.barcode book) (books db) = false /\
        startsWith (Book.barcode book) "B" = true /\
        books db' = push (books db) book
  | Some (Failure e, db') =>
      e = MissingTitle \/ e = InvalidPrice \/ e = InvalidInitialQty
  | None => Forall collides draws
  end.
Proof.
  intros Hid Hcode collides. unfold post_api_books.
  destruct (negb _ || _); [tauto|].
  destruct (JS.isNaN _ || JS.ltZero _); [tauto|].
  destruct (parseIntOrZero _) as [initialQty|]; [|tauto].
  destruct (initialQty <? 0); [tauto|].
  rewrite Hid, Hcode. cbn [String.eqb negb andb].
  pose proof (generateCode_first_free draws (books db)) as H.
  pose proof (generateCode_fresh draws (books db)) as Hfresh.
  destruct (generateCode draws (books db)) as [code|]; [|exact H].
  destruct H as (taken & now & random & later & -> & Hall & ->).
  exists taken, now, random, later. cbn [Book.barcode books].
  repeat split; auto.
Qed.

Lemma generated_barcode_is_first_free_witness :
  let db := mkDB [Book.mk 1 (newCode 1 2) "Alef" "" "" "" (JS.ofZ 10) 5 5]
                 [] [] [] in
  exists book db',
    post_api_books [(1, 2); (1, 3); (1, 4)] db
      (Shop.bookBody JS.Undefined JS.Undefined (JS.Str "Bet") (JS.Num 1))
    = Some (Success book, db') /\
    barcodeExists (Book.barcode book) (books db) = false /\
    startsWith (Book.barcode book) "B" = true.
Proof.
  intros db.
  pose proof (generated_barcode_is_first_free [(1, 2); (1, 3); (1, 4)] db
                (Shop.bookBody JS.Undefined JS.Undefined (JS.Str "Bet")
                   (JS.Num 1)) eq_refl eq_refl) as H.
  cbv zeta in H.
  destruct (post_api_books _ db _) as [[[e|book] db']|] eqn:E;
    [discriminate E| |discriminate E].
  exists book, db'. split; [reflexivity|].
  destruct H as (taken & now & random & later & _ & _ & _ & Hfree & HB & _).
  now split.
Defined.

(** ** Instances of the properties of the quantities and of the failures *)

Lemma only_quick_sale_oversells_witness :
  nonNegative Shop.db /\
  nonNegative
    (snd (post_api_stock_sale Shop.noon Shop.db (JS.Str "A") (JS.Str "S1")
            (JS.Num 5))).
Proof.
  assert (H : nonNegative Shop.db) by (repeat constructor; cbn; lia).
  split; [exact H|].
  apply (only_quick_sale_oversells Shop.db
           (PostStockSale Shop.noon (JS.Str "A") (JS.Str "S1") (JS.Num 5))
           true); [exact H | reflexivity | intros; discriminate].
Defined.

Lemma quick_sale_of_distinct_barcodes_non_negative_witness :
  nonNegative
    (snd (post_api_sales_quick Shop.noon Shop.db (JS.Str "S1")
            (Some [Item.mk (JS.Str "A") (JS.Num 5);
                   Item.mk (JS.Str "B") (JS.Num 2)]))).
Proof.
  apply quick_sale_of_distinct_barcodes_non_negative.
  - repeat constructor; cbn; lia.
  - repeat constructor; cbn; intuition discriminate.
Defined.

Lemma failure_changes_nothing_witness :
  exists db',
    handle Shop.db
      (PostStockSale Shop.noon (JS.Str "A") (JS.Str "S1") (JS.Num 6))
    = Some (false, db') /\ db' = Shop.db.
Proof.
  eexists. split; [reflexivity|].
  apply (failure_changes_nothing Shop.db
           (PostStockSale Shop.noon (JS.Str "A") (JS.Str "S1") (JS.Num 6))).
  reflexivity.
Defined.
